(** * Response-id security hook of the LiteLLM proxy

    A shallow embedding of [litellm/proxy/hooks/responses_id_security.py]
    (class [ResponsesIDSecurity]) and the properties of its token codec,
    access check, cache accessor and the three hooks.

    Python strings are modelled as [string]; dictionaries as [gmap];
    the hook methods live in a state-and-exception monad whose state
    carries the process configuration, the optional usage cache and a
    trace of the calls made to the collaborators. *)

From Stdlib Require Import ZArith Lia Bool Ascii.
From stdpp Require Import base option list strings gmap.

(** ** Python string primitives *)

Module Str.

(** [s.startswith(p)] *)
Fixpoint startswith (s p : string) {struct p} : bool :=
  match p with
  | EmptyString => true
  | String a p' =>
      match s with
      | EmptyString => false
      | String b s' => Ascii.eqb a b && startswith s' p'
      end
  end.

(** Remove the first [n] characters: [s[n:]]. *)
Fixpoint drop (n : nat) (s : string) {struct n} : string :=
  match n, s with
  | O, _ => s
  | S _, EmptyString => EmptyString
  | S n', String _ s' => drop n' s'
  end.

(** [s.partition(sep)] restricted to the found case: the text before the
    leftmost occurrence of [sep] and the text after it. *)
Fixpoint partition (sep s : string) : option (string * string) :=
  if startswith s sep then Some (EmptyString, drop (String.length sep) s)
  else match s with
       | EmptyString => None
       | String c s' =>
           match partition sep s' with
           | Some (b, a) => Some (String c b, a)
           | None => None
           end
       end.

(** [sep in s] *)
Definition contains (sep s : string) : bool :=
  match partition sep s with Some _ => true | None => false end.

Fixpoint split_fuel (fuel : nat) (sep s : string) : list string :=
  match fuel with
  | O => [s]
  | S fuel' =>
      match partition sep s with
      | None => [s]
      | Some (b, a) => b :: split_fuel fuel' sep a
      end
  end.

(** [s.split(sep)] for a non-empty separator: the pieces between the
    non-overlapping occurrences of [sep], scanned left to right.  Every
    occurrence consumes at least one character, so [length s] rounds are
    enough (lemma [split_unfold]). *)
Definition split (sep s : string) : list string :=
  split_fuel (String.length s) sep s.

(** [l[-1]] on the non-empty list a split returns. *)
Definition last_piece (l : list string) : string := List.last l EmptyString.

(** [x or ""] for an optional string. *)
Definition or_empty (x : option string) : string :=
  match x with Some s => s | None => EmptyString end.

(** Truthiness of an optional string: not [None] and not [""]. *)
Definition truthy (x : option string) : bool :=
  match x with
  | Some (String _ _) => true
  | _ => false
  end.

End Str.

(** ** Values, identities and responses *)

(** Plain attribute values: [None], a string, or something that is not a
    string (an integer stands for every non-string value). *)
Inductive PyVal :=
| PyNone
| PyStr (s : string)
| PyInt (z : Z).

(** Modelled from the spec: the role enum of the caller identity
    (section 3), [LitellmUserRoles] of [litellm/proxy/_types.py], a
    string enum; the hook tests for [PROXY_ADMIN] only. *)
Inductive LitellmUserRoles :=
| PROXY_ADMIN
| PROXY_ADMIN_VIEW_ONLY
| ORG_ADMIN
| INTERNAL_USER
| INTERNAL_USER_VIEW_ONLY
| TEAM
| CUSTOMER.

(** [user_role] holds either an enum member or its raw string value. *)
Inductive UserRole :=
| RoleMember (r : LitellmUserRoles)
| RoleValue (s : string).

(** The fields of [UserAPIKeyAuth] the hook reads. *)
Record UserAPIKeyAuth := mkUserAPIKeyAuth {
  user_id : option string;
  team_id : option string;
  user_role : option UserRole;
  request_route : option string
}.

(** Modelled from the spec: [ResponsesAPIResponse] of
    [litellm/types/llms/openai.py], whose identifier is a string
    (section 3); [rar_body] stands for the remaining attributes, which
    the hook never touches. *)
Record ResponsesAPIResponse := mkResponsesAPIResponse {
  rar_id : string;
  rar_body : gmap string PyVal
}.

(** The value of [getattr(obj, "response", None)]. *)
Inductive ResponseAttr :=
| RespNone
| RespOther (v : PyVal)
| RespObj (r : ResponsesAPIResponse).

(** Runtime class of a response or chunk, as far as [isinstance] tells. *)
Inductive PyClass :=
| ClsResponsesAPIResponse
| ClsBaseLiteLLMOpenAIResponseObject
| ClsOther.

(** A response (or stream chunk): [attr_id] is [getattr(obj, "id", None)],
    [attr_response] is [getattr(obj, "response", None)], [body] stands
    for the remaining attributes. *)
Record ResponseObject := mkResponseObject {
  cls : PyClass;
  attr_id : PyVal;
  attr_response : ResponseAttr;
  body : gmap string PyVal
}.

(** ** Exceptions, events and the hook monad *)

Inductive Exn :=
| HTTPException (status_code : Z) (detail : string)
| IndexError
| CacheError (msg : string).

Inductive Result (A : Type) :=
| Ok (a : A)
| Raise (e : Exn).
Arguments Ok {A} a.
Arguments Raise {A} e.

(** Calls the hook makes to its collaborators, most recent first. *)
Inductive Event :=
| EvDecrypt (value : string)
| EvEncrypt (value : string)
| EvDebug (msg : string)
| EvCheckAccess (owner_user owner_team : option string) (caller : UserAPIKeyAuth)
| EvCacheGet (key : string)
| EvCacheSet (key : string) (value : gmap string (option string)) (ttl : Z).

(** The symmetric primitive behind [encrypt_value_helper] and
    [decrypt_value_helper], keyed implicitly by the configured signing
    key; decryption returns [None] on failure. *)
Class Crypto := {
  encrypt_value : string -> string;
  decrypt_value : string -> option string
}.

(** The usage cache ([DualCache]): both calls may raise. *)
Class DualCache (C : Type) := {
  async_get_cache : C -> string -> Result (option (gmap string (option string))) * C;
  async_set_cache : C -> string -> gmap string (option string) -> Z -> Result unit * C
}.

(** What a call can read or change: [self.internal_usage_cache], the
    environment variable and [proxy_server.master_key] behind the signing
    key, [general_settings["disable_responses_id_security"]], and the
    trace. *)
Record World (C : Type) := mkWorld {
  internal_usage_cache : option C;
  LITELLM_SALT_KEY : option string;
  master_key : option string;
  disable_responses_id_security : bool;
  trace : list Event
}.
Arguments mkWorld {C}.
Arguments internal_usage_cache {C}.
Arguments LITELLM_SALT_KEY {C}.
Arguments master_key {C}.
Arguments disable_responses_id_security {C}.
Arguments trace {C}.

Definition M (C A : Type) : Type := World C -> Result A * World C.

Definition ret {C A} (a : A) : M C A := fun w => (Ok a, w).

Definition bind {C A B} (m : M C A) (k : A -> M C B) : M C B :=
  fun w => match m w with
           | (Ok a, w') => k a w'
           | (Raise e, w') => (Raise e, w')
           end.

Definition raise {C A} (e : Exn) : M C A := fun w => (Raise e, w).

(** [try: m except Exception as e: handler(e)] *)
Definition try_except {C A} (m : M C A) (handler : Exn -> M C A) : M C A :=
  fun w => match m w with
           | (Ok a, w') => (Ok a, w')
           | (Raise e, w') => handler e w'
           end.

(** The world after one more call has been traced. *)
Definition record_event {C} (e : Event) (w : World C) : World C :=
  mkWorld (internal_usage_cache w) (LITELLM_SALT_KEY w) (master_key w)
          (disable_responses_id_security w) (e :: trace w).

Definition emit {C} (e : Event) : M C unit :=
  fun w => (Ok tt, record_event e w).

Definition gets {C A} (f : World C -> A) : M C A := fun w => (Ok (f w), w).

Notation "x <- m ;; k" := (bind m (fun x => k))
  (at level 20, m at level 99, k at level 200, only parsing).
Notation "m ;; k" := (bind m (fun _ => k))
  (at level 100, k at level 200, right associativity, only parsing).

Fixpoint mapM {C A B} (f : A -> M C B) (l : list A) : M C (list B) :=
  match l with
  | [] => ret []
  | x :: l' => y <- f x ;; ys <- mapM f l' ;; ret (y :: ys)
  end.

(** ** Constants *)

Definition RESPONSE_ID_SECURITY_CACHE_PREFIX : string :=
  "litellm:responses_id_security:response_id:".

Definition RESPONSE_ID_SECURITY_CACHE_TTL_SECONDS : Z := 60 * 60 * 24.

(** Modelled from the spec: [SpecialEnums] is declared in
    [litellm/types/utils.py]; the namespace marker that opens every
    payload of the wire format of section 6. *)
Definition LITELM_MANAGED_FILE_ID_PREFIX : string := "litellm_proxy".

(** Modelled from the spec: [SpecialEnums] is declared in
    [litellm/types/utils.py]; the template
    [litellm_proxy:responses_api:response_id:{};user_id:{};team_id:{}] of
    the wire format of section 6, applied to its three arguments. *)
Definition LITELLM_MANAGED_RESPONSE_API_RESPONSE_ID_COMPLETE_STR_format
    (response_id user team : string) : string :=
  "litellm_proxy:responses_api:response_id:" +:+ response_id
    +:+ ";user_id:" +:+ user +:+ ";team_id:" +:+ team.

(** Modelled from the spec: the string value of each role, declared with
    the enum. *)
Definition role_value (r : LitellmUserRoles) : string :=
  match r with
  | PROXY_ADMIN => "proxy_admin"
  | PROXY_ADMIN_VIEW_ONLY => "proxy_admin_viewer"
  | ORG_ADMIN => "org_admin"
  | INTERNAL_USER => "internal_user"
  | INTERNAL_USER_VIEW_ONLY => "internal_user_viewer"
  | TEAM => "team"
  | CUSTOMER => "customer"
  end.

(** [user_role == s] for a string [s]: a string enum member equals its
    value. *)
Definition role_eq_value (x : option UserRole) (s : string) : bool :=
  match x with
  | Some (RoleValue v) => String.eqb v s
  | Some (RoleMember m) => String.eqb (role_value m) s
  | None => false
  end.

(** [user_role == m] for an enum member [m]. *)
Definition role_eq_member (x : option UserRole) (m : LitellmUserRoles) : bool :=
  match x with
  | Some (RoleValue v) => String.eqb v (role_value m)
  | Some (RoleMember m') => String.eqb (role_value m') (role_value m)
  | None => false
  end.

(** [str(x)] inside an f-string, for an optional string. *)
Definition py_str (x : option string) : string :=
  match x with Some s => s | None => "None" end.

Definition exn_str (e : Exn) : string :=
  match e with
  | HTTPException _ detail => detail
  | IndexError => "list index out of range"
  | CacheError msg => msg
  end.

Definition USER_MISMATCH_DETAIL : string :=
  "Forbidden. The response id is not associated with the user, who this key belongs to. To disable this security feature, set general_settings::disable_responses_id_security to True in the config.yaml file.".

Definition TEAM_MISMATCH_DETAIL : string :=
  "Forbidden. The response id is not associated with the team, who this key belongs to. To disable this security feature, set general_settings::disable_responses_id_security to True in the config.yaml file.".

(** [a != b] on optional strings. *)
Definition opt_ne (a b : option string) : bool := negb (bool_decide (a = b)).

(** [v and isinstance(v, str) and v.startswith("resp_")]: the string
    when the test passes. *)
Definition resp_id_str (v : PyVal) : option string :=
  match v with
  | PyStr s =>
      if Str.truthy (Some s) && Str.startswith s "resp_" then Some s else None
  | _ => None
  end.

(** [l[i]] *)
Definition getitem {C} (l : list string) (i : nat) : M C string :=
  match nth_error l i with
  | Some x => ret x
  | None => raise IndexError
  end.

(** [setattr(response, "id", v)] *)
Definition setattr_id (r : ResponseObject) (v : PyVal) : ResponseObject :=
  mkResponseObject (cls r) v (attr_response r) (body r).

(** [setattr(response_obj, "id", s)] on the nested response. *)
Definition setattr_rar_id (r : ResponsesAPIResponse) (s : string) : ResponsesAPIResponse :=
  mkResponsesAPIResponse s (rar_body r).

(** [setattr(response, "response", response_obj)] *)
Definition setattr_response (r : ResponseObject) (o : ResponsesAPIResponse) : ResponseObject :=
  mkResponseObject (cls r) (attr_id r) (RespObj o) (body r).

(** ** The hook: [class ResponsesIDSecurity] *)

Section Hook.
Context {Cr : Crypto} {C : Type} {Ca : DualCache C}.

Definition verbose_proxy_logger_debug (msg : string) : M C unit :=
  emit (EvDebug msg).

(** Modelled from the spec: [decrypt_value_helper] and
    [encrypt_value_helper] are declared in
    [litellm.proxy.common_utils.encrypt_decrypt_utils]; the primitive
    behind them is [Crypto], whose decryption gives the plaintext or a
    failure indicator (section 1).  Where the primitive fails the helper
    gives back [None], or, under the keyword [return_original_value=True]
    that both call sites of the hook pass, the value it was given.  Each
    call is traced. *)
Definition decrypt_value_helper (value : string) (return_original_value : bool)
    : M C (option string) :=
  emit (EvDecrypt value) ;;
  ret (match decrypt_value value with
       | Some decrypted => Some decrypted
       | None => if return_original_value then Some value else None
       end).

Definition encrypt_value_helper (value : string) : M C string :=
  emit (EvEncrypt value) ;; ret (encrypt_value value).

(** [self.internal_usage_cache.async_get_cache(key=...)] *)
Definition internal_usage_cache_async_get_cache (cache : C) (key : string)
    : M C (option (gmap string (option string))) :=
  fun w =>
    let '(r, cache') := async_get_cache cache key in
    (r, mkWorld (Some cache') (LITELLM_SALT_KEY w) (master_key w)
                (disable_responses_id_security w) (EvCacheGet key :: trace w)).

(** [self.internal_usage_cache.async_set_cache(key=..., value=..., ttl=...)] *)
Definition internal_usage_cache_async_set_cache (cache : C) (key : string)
    (value : gmap string (option string)) (ttl : Z) : M C unit :=
  fun w =>
    let '(r, cache') := async_set_cache cache key value ttl in
    (r, mkWorld (Some cache') (LITELLM_SALT_KEY w) (master_key w)
                (disable_responses_id_security w)
                (EvCacheSet key value ttl :: trace w)).

(** The call is traced on entry; [raise HTTPException(status_code=403)]
    is the denial. *)
Definition check_user_access_to_response_id
    (response_id_user_id response_id_team_id : option string)
    (user_api_key_dict : UserAPIKeyAuth) : M C bool :=
  emit (EvCheckAccess response_id_user_id response_id_team_id user_api_key_dict) ;;
  if role_eq_value (user_role user_api_key_dict) (role_value PROXY_ADMIN)
     || role_eq_member (user_role user_api_key_dict) PROXY_ADMIN
  then ret true
  else if Str.truthy response_id_user_id
          && opt_ne response_id_user_id (user_id user_api_key_dict)
  then
    disabled <- gets disable_responses_id_security ;;
    if disabled : bool then
      verbose_proxy_logger_debug
        ("Responses ID Security is disabled. User "
           +:+ py_str (user_id user_api_key_dict)
           +:+ " is accessing response id " +:+ py_str response_id_user_id
           +:+ " which is not associated with them.") ;;
      ret true
    else raise (HTTPException 403 USER_MISMATCH_DETAIL)
  else if Str.truthy response_id_team_id
          && opt_ne response_id_team_id (team_id user_api_key_dict)
  then
    disabled <- gets disable_responses_id_security ;;
    if disabled : bool then
      verbose_proxy_logger_debug
        ("Responses ID Security is disabled. Response belongs to team "
           +:+ py_str response_id_team_id +:+ " but user "
           +:+ py_str (user_id user_api_key_dict)
           +:+ " is accessing it with team id "
           +:+ py_str (team_id user_api_key_dict) +:+ ".") ;;
      ret true
    else raise (HTTPException 403 TEAM_MISMATCH_DETAIL)
  else ret true.

Definition _is_encrypted_response_id (response_id : string) : M C bool :=
  let split_result := Str.split "resp_" response_id in
  if (length split_result <? 2)%nat then ret false
  else
    remaining_string <- getitem split_result 1 ;;
    decrypted_value <- decrypt_value_helper remaining_string true ;;
    match decrypted_value with
    | None => ret false
    | Some decrypted_value =>
        if Str.startswith decrypted_value LITELM_MANAGED_FILE_ID_PREFIX
        then ret true
        else ret false
    end.

Definition _decrypt_response_id (response_id : string)
    : M C (string * option string * option string) :=
  let split_result := Str.split "resp_" response_id in
  if (length split_result <? 2)%nat then ret (response_id, None, None)
  else
    remaining_string <- getitem split_result 1 ;;
    decrypted_value <- decrypt_value_helper remaining_string true ;;
    match decrypted_value with
    | None => ret (response_id, None, None)
    | Some decrypted_value =>
        if Str.startswith decrypted_value LITELM_MANAGED_FILE_ID_PREFIX then
          let parts := Str.split ";" decrypted_value in
          if (2 <=? length parts)%nat then
            response_id_part <- getitem parts 0 ;;
            let original_response_id :=
              Str.last_piece (Str.split "response_id:" response_id_part) in
            user_id_part <- getitem parts 1 ;;
            let user_id := Str.last_piece (Str.split "user_id:" user_id_part) in
            team_id_part <- getitem parts 2 ;;
            let team_id := Str.last_piece (Str.split "team_id:" team_id_part) in
            ret (original_response_id, Some user_id, Some team_id)
          else ret (response_id, None, None)
        else ret (response_id, None, None)
    end.

Definition _get_cached_response_id_mapping (encrypted_response_id : string)
    : M C (option (gmap string (option string))) :=
  cache <- gets internal_usage_cache ;;
  match cache with
  | None => ret None
  | Some cache =>
      let cache_key := RESPONSE_ID_SECURITY_CACHE_PREFIX +:+ encrypted_response_id in
      try_except
        (internal_usage_cache_async_get_cache cache cache_key)
        (fun e =>
           verbose_proxy_logger_debug
             ("Responses ID Security: unable to fetch cached response id mapping - "
                +:+ exn_str e) ;;
           ret None)
  end.

(** [d.get(k)] on a cached mapping. *)
Definition mapping_get (d : gmap string (option string)) (k : string) : option string :=
  match d !! k with Some v => v | None => None end.

Definition _resolve_encrypted_response_id (response_id : string)
    (user_api_key_dict : UserAPIKeyAuth) : M C (option string) :=
  encrypted <- _is_encrypted_response_id response_id ;;
  if encrypted : bool then
    r <- _decrypt_response_id response_id ;;
    let '(original_response_id, user_id, team_id) := r in
    check_user_access_to_response_id user_id team_id user_api_key_dict ;;
    ret (Some original_response_id)
  else
    cached_mapping <- _get_cached_response_id_mapping response_id ;;
    match cached_mapping with
    | None => ret None
    | Some cached_mapping =>
        let cached_user_id := mapping_get cached_mapping "user_id" in
        let cached_team_id := mapping_get cached_mapping "team_id" in
        check_user_access_to_response_id cached_user_id cached_team_id
          user_api_key_dict ;;
        ret (mapping_get cached_mapping "response_id")
    end.

Definition responses_api_call_types : gset string :=
  {[ "aresponses"; "aget_responses"; "adelete_responses"; "acancel_responses" ]}.

(** The body the two branches of the hook share: resolve the field
    [field] of [data] in place when it is truthy.  The identifier fields
    hold strings ([response_id: str]). *)
Definition resolve_field (field : string) (data : gmap string string)
    (user_api_key_dict : UserAPIKeyAuth) : M C (gmap string string) :=
  match data !! field with
  | Some (String c s as response_id) =>
      resolved_response_id <-
        _resolve_encrypted_response_id response_id user_api_key_dict ;;
      match resolved_response_id with
      | Some resolved => ret (<[field := resolved]> data)
      | None => ret data
      end
  | _ => ret data
  end.

Definition async_pre_call_hook (user_api_key_dict : UserAPIKeyAuth)
    (data : gmap string string) (call_type : string)
    : M C (option (gmap string string)) :=
  if negb (bool_decide (call_type ∈ responses_api_call_types)) then ret None
  else if String.eqb call_type "aresponses" then
    data' <- resolve_field "previous_response_id" data user_api_key_dict ;;
    ret (Some data')
  else if bool_decide (call_type ∈ ({[ "aget_responses"; "adelete_responses";
                                       "acancel_responses" ]} : gset string)) then
    data' <- resolve_field "response_id" data user_api_key_dict ;;
    ret (Some data')
  else ret (Some data).

Definition _get_signing_key : M C (option string) :=
  salt_key <- gets LITELLM_SALT_KEY ;;
  match salt_key with
  | None => gets master_key
  | Some _ => ret salt_key
  end.

Definition NO_SIGNING_KEY_MESSAGE : string :=
  "Response ID encryption is enabled but no signing key is configured. "
    +:+ "Please set LITELLM_SALT_KEY environment variable or configure a master_key. "
    +:+ "Skipping response ID encryption. "
    +:+ "See: https://docs.litellm.ai/docs/proxy/prod#5-set-litellm-salt-key".

Definition _encrypt_response_id (response : ResponseObject)
    (user_api_key_dict : UserAPIKeyAuth) : M C ResponseObject :=
  signing_key <- _get_signing_key ;;
  match signing_key with
  | None =>
      verbose_proxy_logger_debug NO_SIGNING_KEY_MESSAGE ;;
      ret response
  | Some _ =>
      let response_id := attr_id response in
      let response_obj := attr_response response in
      match resp_id_str response_id with
      | Some response_id =>
          let encrypted_response_id :=
            LITELLM_MANAGED_RESPONSE_API_RESPONSE_ID_COMPLETE_STR_format
              response_id
              (Str.or_empty (user_id user_api_key_dict))
              (Str.or_empty (team_id user_api_key_dict)) in
          encoded_user_id_and_response_id <-
            encrypt_value_helper encrypted_response_id ;;
          ret (setattr_id response
                 (PyStr ("resp_" +:+ encoded_user_id_and_response_id)))
      | None =>
          match response_obj with
          | RespObj response_obj =>
              let encrypted_response_id :=
                LITELLM_MANAGED_RESPONSE_API_RESPONSE_ID_COMPLETE_STR_format
                  (rar_id response_obj)
                  (Str.or_empty (user_id user_api_key_dict))
                  (Str.or_empty (team_id user_api_key_dict)) in
              encoded_user_id_and_response_id <-
                encrypt_value_helper encrypted_response_id ;;
              ret (setattr_response response
                     (setattr_rar_id response_obj
                        ("resp_" +:+ encoded_user_id_and_response_id)))
          | _ => ret response
          end
      end
  end.

Definition _cache_response_id_mapping (encrypted_response_id original_response_id : string)
    (user_api_key_dict : UserAPIKeyAuth) : M C unit :=
  cache <- gets internal_usage_cache ;;
  match cache with
  | None => ret tt
  | Some cache =>
      let cache_key := RESPONSE_ID_SECURITY_CACHE_PREFIX +:+ encrypted_response_id in
      let cache_value : gmap string (option string) :=
        <["response_id" := Some original_response_id]>
          (<["user_id" := user_id user_api_key_dict]>
             (<["team_id" := team_id user_api_key_dict]> ∅)) in
      try_except
        (internal_usage_cache_async_set_cache cache cache_key cache_value
           RESPONSE_ID_SECURITY_CACHE_TTL_SECONDS)
        (fun e =>
           verbose_proxy_logger_debug
             ("Responses ID Security: unable to cache response id mapping - "
                +:+ exn_str e))
  end.

Definition _get_primary_response_id (response : ResponseObject) : option string :=
  let response_id := attr_id response in
  let response_obj := attr_response response in
  match resp_id_str response_id with
  | Some response_id => Some response_id
  | None =>
      match response_obj with
      | RespObj response_obj =>
          let response_obj_id := PyStr (rar_id response_obj) in
          match resp_id_str response_obj_id with
          | Some response_obj_id => Some response_obj_id
          | None => None
          end
      | _ => None
      end
  end.

(** Tag [response] and record the mapping when the primary id changed:
    the body the success hook and the streaming hook share. *)
Definition encrypt_and_cache (response : ResponseObject)
    (user_api_key_dict : UserAPIKeyAuth) : M C ResponseObject :=
  let original_response_id := _get_primary_response_id response in
  response <- _encrypt_response_id response user_api_key_dict ;;
  let encrypted_response_id := _get_primary_response_id response in
  (if Str.truthy original_response_id && Str.truthy encrypted_response_id
      && opt_ne original_response_id encrypted_response_id
   then _cache_response_id_mapping
          (Str.or_empty encrypted_response_id)
          (Str.or_empty original_response_id)
          user_api_key_dict
   else ret tt) ;;
  ret response.

Definition async_post_call_success_hook (data : gmap string string)
    (user_api_key_dict : UserAPIKeyAuth) (response : ResponseObject)
    : M C ResponseObject :=
  disabled <- gets disable_responses_id_security ;;
  if disabled : bool then ret response
  else
    match cls response with
    | ClsResponsesAPIResponse => encrypt_and_cache response user_api_key_dict
    | _ => ret response
    end.

(** [isinstance(chunk, BaseLiteLLMOpenAIResponseObject)];
    [ResponsesAPIResponse] is a subclass. *)
Definition isinstance_BaseLiteLLMOpenAIResponseObject (chunk : ResponseObject) : bool :=
  match cls chunk with
  | ClsOther => false
  | _ => true
  end.

(** One round of the [async for] loop: the chunk that is yielded. *)
Definition streaming_step (user_api_key_dict : UserAPIKeyAuth)
    (chunk : ResponseObject) : M C ResponseObject :=
  disabled <- gets disable_responses_id_security ;;
  if isinstance_BaseLiteLLMOpenAIResponseObject chunk
     && bool_decide (request_route user_api_key_dict = Some "/v1/responses")
     && negb disabled
  then encrypt_and_cache chunk user_api_key_dict
  else ret chunk.

(** The generator, as the list of chunks it yields for the list of chunks
    it is fed. *)
Definition async_post_call_streaming_iterator_hook
    (user_api_key_dict : UserAPIKeyAuth) (response : list ResponseObject)
    (request_data : gmap string string) : M C (list ResponseObject) :=
  mapM (streaming_step user_api_key_dict) response.

End Hook.

(** ** The access rule in the words of the specification *)

Record OwnerTag := mkOwnerTag {
  userId : option string;
  teamId : option string
}.

Inductive DenyReason :=
| UserMismatch
| TeamMismatch.

Inductive Decision :=
| Allow
| Deny (reason : DenyReason).

(** An owner field is set when it is present and not the empty string. *)
Definition is_set (x : option string) : bool :=
  match x with
  | None => false
  | Some s => negb (String.eqb s "")
  end.

(** The caller's role is admin: the member [PROXY_ADMIN] or its value. *)
Definition is_admin (caller : UserAPIKeyAuth) : bool :=
  match user_role caller with
  | Some (RoleMember PROXY_ADMIN) => true
  | Some (RoleValue s) => String.eqb s "proxy_admin"
  | _ => false
  end.

(** Section 4.3, steps 1 to 4. *)
Definition authorize (securityDisabled : bool) (owner : OwnerTag)
    (caller : UserAPIKeyAuth) : Decision :=
  if is_admin caller then Allow
  else if is_set (userId owner) && negb (bool_decide (userId owner = user_id caller))
  then (if securityDisabled then Allow else Deny UserMismatch)
  else if is_set (teamId owner) && negb (bool_decide (teamId owner = team_id caller))
  then (if securityDisabled then Allow else Deny TeamMismatch)
  else Allow.

(** How the hook surfaces a decision: [True], or a 403 whose detail names
    the mismatch. *)
Definition surfaced (d : Decision) : Result bool :=
  match d with
  | Allow => Ok true
  | Deny UserMismatch => Raise (HTTPException 403 USER_MISMATCH_DETAIL)
  | Deny TeamMismatch => Raise (HTTPException 403 TEAM_MISMATCH_DETAIL)
  end.

(** The request field that carries the identifier, per call type. *)
Definition identifier_field (call_type : string) : option string :=
  if String.eqb call_type "aresponses" then Some "previous_response_id"
  else if String.eqb call_type "aget_responses" then Some "response_id"
  else if String.eqb call_type "adelete_responses" then Some "response_id"
  else if String.eqb call_type "acancel_responses" then Some "response_id"
  else None.

(** ** Observations on traces and responses *)

Definition is_check_access (e : Event) : bool :=
  match e with EvCheckAccess _ _ _ => true | _ => false end.

Definition is_cache_set (e : Event) : bool :=
  match e with EvCacheSet _ _ _ => true | _ => false end.

Definition is_decrypt (e : Event) : bool :=
  match e with EvDecrypt _ => true | _ => false end.

(** What the hook gets for [value] from [decrypt_value_helper], which it
    calls with [return_original_value=True]: the plaintext, or [value]
    itself where decryption fails. *)
Definition decrypted_or_original {Cr : Crypto} (value : string) : string :=
  match decrypt_value value with
  | Some decrypted => decrypted
  | None => value
  end.

(** The payload that tagging [rid] on behalf of [caller] encrypts. *)
Definition payload_of (caller : UserAPIKeyAuth) (rid : string) : string :=
  LITELLM_MANAGED_RESPONSE_API_RESPONSE_ID_COMPLETE_STR_format rid
    (Str.or_empty (user_id caller)) (Str.or_empty (team_id caller)).

(** A signing key is configured. *)
Definition signing_key_configured {C} (w : World C) : bool :=
  match LITELLM_SALT_KEY w, master_key w with
  | None, None => false
  | _, _ => true
  end.

(** Two worlds with the same configuration. *)
Definition same_settings {C} (w w' : World C) : Prop :=
  LITELLM_SALT_KEY w' = LITELLM_SALT_KEY w
  /\ master_key w' = master_key w
  /\ disable_responses_id_security w' = disable_responses_id_security w.

(** From [w] to [w'] the cache was not written: its state is the same and
    no [async_set_cache] call was traced. *)
Definition no_cache_write {C} (w w' : World C) : Prop :=
  internal_usage_cache w' = internal_usage_cache w
  /\ exists evs, trace w' = evs ++ trace w
                 /\ forallb (fun e => negb (is_cache_set e)) evs = true.

(** The chunk carries no identifier: its top-level id does not have the
    response-id shape and it wraps no [ResponsesAPIResponse]. *)
Definition carries_no_identifier (chunk : ResponseObject) : bool :=
  match resp_id_str (attr_id chunk), attr_response chunk with
  | None, RespNone => true
  | None, RespOther _ => true
  | _, _ => false
  end.

(** [c'] is the chunk [c], possibly with its identifier rewritten (the
    top-level one or the nested one, never both). *)
Definition same_chunk (c c' : ResponseObject) : Prop :=
  c' = c
  \/ (exists tok, c' = setattr_id c (PyStr tok))
  \/ (exists o tok, attr_response c = RespObj o
                    /\ c' = setattr_response c (setattr_rar_id o tok)).

(** ** Sample collaborators, for concrete runs *)

Module Sample.

Definition flip_bit (c : Ascii.ascii) : Ascii.ascii :=
  match c with
  | Ascii.Ascii b0 b1 b2 b3 b4 b5 b6 b7 =>
      Ascii.Ascii (negb b0) b1 b2 b3 b4 b5 b6 b7
  end.

Fixpoint flip (s : string) : string :=
  match s with
  | EmptyString => EmptyString
  | String c s' => String (flip_bit c) (flip s')
  end.

(** A cipher that flips the low bit of every character behind a one-letter
    header; decryption fails when the header is missing. *)
Definition crypto : Crypto := {|
  encrypt_value := fun s => String "Z"%char (flip s);
  decrypt_value := fun s =>
    match s with
    | String c s' => if Ascii.eqb c "Z"%char then Some (flip s') else None
    | EmptyString => None
    end
|}.

(** An in-memory cache that never fails. *)
Definition memory_cache : DualCache (gmap string (gmap string (option string))) := {|
  async_get_cache := fun c key => (Ok (c !! key), c);
  async_set_cache := fun c key value ttl => (Ok tt, <[key := value]> c)
|}.

(** A cache whose transport is down: every call raises. *)
Definition broken_cache : DualCache unit := {|
  async_get_cache := fun c key => (Raise (CacheError "connection refused"), c);
  async_set_cache := fun c key value ttl => (Raise (CacheError "connection refused"), c)
|}.

Definition world_with_key : World (gmap string (gmap string (option string))) :=
  mkWorld (Some ∅) (Some "sk-salt") None false [].

Definition world_without_key : World (gmap string (gmap string (option string))) :=
  mkWorld (Some ∅) None None false [].

Definition world_security_disabled : World (gmap string (gmap string (option string))) :=
  mkWorld (Some ∅) (Some "sk-salt") None true [].

Definition world_broken_cache : World unit :=
  mkWorld (Some tt) (Some "sk-salt") None false [].

Definition alice : UserAPIKeyAuth :=
  mkUserAPIKeyAuth (Some "u1") (Some "t1") (Some (RoleMember INTERNAL_USER))
    (Some "/v1/responses").

Definition bob : UserAPIKeyAuth :=
  mkUserAPIKeyAuth (Some "u2") (Some "t1") (Some (RoleMember INTERNAL_USER))
    (Some "/v1/responses").

Definition anonymous : UserAPIKeyAuth :=
  mkUserAPIKeyAuth None None None (Some "/v1/responses").

Definition response_abc : ResponseObject :=
  mkResponseObject ClsResponsesAPIResponse (PyStr "resp_abc123") RespNone ∅.

End Sample.

(** ** Further observations, for the properties beyond the claims *)

Definition is_cache_get (e : Event) : bool :=
  match e with EvCacheGet _ => true | _ => false end.

Definition is_encrypt (e : Event) : bool :=
  match e with EvEncrypt _ => true | _ => false end.

(** A call to the cache, read or write. *)
Definition is_cache_call (e : Event) : bool :=
  is_cache_get e || is_cache_set e.

(** From [w] to [w'] the trace grew by events that all satisfy [P]. *)
Definition grows_by {C} (P : Event -> bool) (w w' : World C) : Prop :=
  exists evs, trace w' = evs ++ trace w /\ forallb P evs = true.

(** The side conditions under which the codec recovers what tagging
    [rid] for [caller] wrote: no field holds the delimiter or its own
    label, the ciphertext decrypts to the payload and holds no marker. *)
Definition codec_recovers {Cr : Crypto} (caller : UserAPIKeyAuth) (rid : string) : Prop :=
  Str.contains ";" rid = false
  /\ Str.contains "response_id:" rid = false
  /\ Str.contains ";" (Str.or_empty (user_id caller)) = false
  /\ Str.contains "user_id:" (Str.or_empty (user_id caller)) = false
  /\ Str.contains ";" (Str.or_empty (team_id caller)) = false
  /\ Str.contains "team_id:" (Str.or_empty (team_id caller)) = false
  /\ decrypt_value (encrypt_value (payload_of caller rid)) = Some (payload_of caller rid)
  /\ Str.contains "resp_" (encrypt_value (payload_of caller rid)) = false.

(** The owner that a token tagged for [creator] decodes to: the ids of
    the creator, an absent one as the empty string. *)
Definition owner_of (creator : UserAPIKeyAuth) : OwnerTag :=
  mkOwnerTag (Some (Str.or_empty (user_id creator)))
             (Some (Str.or_empty (team_id creator))).

(** The token that tagging [rid] for [caller] produces. *)
Definition token_of {Cr : Crypto} (caller : UserAPIKeyAuth) (rid : string) : string :=
  "resp_" +:+ encrypt_value (payload_of caller rid).

(** The mapping recorded for [rid] and [caller]. *)
Definition mapping_of (caller : UserAPIKeyAuth) (rid : string)
    : gmap string (option string) :=
  <["response_id" := Some rid]>
    (<["user_id" := user_id caller]> (<["team_id" := team_id caller]> ∅)).

(** ** More sample callers and worlds *)

Module MoreSamples.

(** A member of another team with the user id of [Sample.alice]. *)
Definition carol : UserAPIKeyAuth :=
  mkUserAPIKeyAuth (Some "u1") (Some "t2") (Some (RoleMember INTERNAL_USER))
    (Some "/v1/responses").

Definition admin : UserAPIKeyAuth :=
  mkUserAPIKeyAuth (Some "root") None (Some (RoleMember PROXY_ADMIN))
    (Some "/v1/responses").

(** The cipher after the signing key changed: nothing decrypts. *)
Definition locked_crypto : Crypto := {|
  encrypt_value := fun s => String "Y"%char (Sample.flip s);
  decrypt_value := fun _ => None
|}.

(** A world whose cache holds the mapping of an id that is no token. *)
Definition world_with_entry : World (gmap string (gmap string (option string))) :=
  mkWorld
    (Some {[ RESPONSE_ID_SECURITY_CACHE_PREFIX +:+ "resp_legacy"
             := mapping_of Sample.alice "resp_abc123" ]})
    (Some "sk-salt") None false [].

(** The token of [resp_abc123] for [Sample.alice], and a request that
    presents it. *)
Definition alice_token : string :=
  token_of (Cr := Sample.crypto) Sample.alice "resp_abc123".

Definition get_request : gmap string string :=
  {[ "response_id" := alice_token; "stream" := "true" ]}.

(** A token in the layout without owner fields. *)
Definition bare_token : string :=
  "resp_" +:+ encrypt_value (Crypto := Sample.crypto) "litellm_proxy:file".

(** A stream event that wraps a response. *)
Definition created_event (rid : string) : ResponseObject :=
  mkResponseObject ClsBaseLiteLLMOpenAIResponseObject PyNone
    (RespObj (mkResponsesAPIResponse rid ∅)) ∅.

(** A stream event without identifier. *)
Definition delta_event : ResponseObject :=
  mkResponseObject ClsBaseLiteLLMOpenAIResponseObject PyNone RespNone ∅.

End MoreSamples.

(** * Properties *)

(** ** Facts about the string primitives *)

Module StrFacts.
Import Str.

Lemma append_nil (b : string) : "" +:+ b = b.
Proof. reflexivity. Qed.

Lemma append_cons (x : Ascii.ascii) (a b : string) :
  String x a +:+ b = String x (a +:+ b).
Proof. reflexivity. Qed.

Lemma append_assoc (a b c : string) : (a +:+ b) +:+ c = a +:+ (b +:+ c).
Proof.
  induction a as [|x a IH]; [reflexivity |].
  now rewrite !append_cons, IH.
Qed.

Lemma length_append (a b : string) :
  String.length (a +:+ b) = (String.length a + String.length b)%nat.
Proof.
  induction a as [|x a IH]; [reflexivity |].
  rewrite append_cons. simpl. now rewrite IH.
Qed.

Lemma startswith_append (p s : string) : startswith (p +:+ s) p = true.
Proof.
  induction p as [|x p IH]; [reflexivity |].
  rewrite append_cons. simpl. now rewrite Ascii.eqb_refl, IH.
Qed.

(** [startswith] is exactly "has [p] as a prefix". *)
Lemma startswith_spec (s p : string) :
  startswith s p = true <-> exists r, s = p +:+ r.
Proof.
  revert s; induction p as [|x p IH]; intros s; simpl.
  - split; [intros _; now exists s | reflexivity].
  - destruct s as [|y s].
    + split; [discriminate | intros [r Hr]; discriminate].
    + rewrite andb_true_iff, Ascii.eqb_eq, IH. split.
      * intros [-> [r ->]]. now exists r.
      * intros [r Hr]. rewrite append_cons in Hr. injection Hr as -> ->.
        split; [reflexivity | now exists r].
Qed.

Lemma drop_append (a b : string) : drop (String.length a) (a +:+ b) = b.
Proof.
  induction a as [|x a IH]; [now destruct b |].
  rewrite append_cons. exact IH.
Qed.

Lemma length_drop_le (n : nat) (s : string) :
  (String.length (drop n s) <= String.length s)%nat.
Proof.
  revert s; induction n as [|n IH]; intros s; simpl; [lia |].
  destruct s as [|x s]; simpl; [lia |]. specialize (IH s). lia.
Qed.

Lemma partition_head (sep s : string) :
  partition sep (sep +:+ s) = Some ("", s).
Proof.
  destruct sep as [|x sep].
  - now destruct s.
  - rewrite append_cons. simpl.
    now rewrite Ascii.eqb_refl, startswith_append, drop_append.
Qed.

Lemma partition_eq (sep s : string) :
  partition sep s =
  if startswith s sep then Some ("", drop (String.length sep) s)
  else match s with
       | "" => None
       | String c s' =>
           match partition sep s' with
           | Some (b, a) => Some (String c b, a)
           | None => None
           end
       end.
Proof. destruct s; reflexivity. Qed.

(** What [partition] finds is an occurrence of the separator. *)
Lemma partition_Some (sep s b a : string) :
  partition sep s = Some (b, a) -> s = b +:+ sep +:+ a.
Proof.
  revert b a; induction s as [|x s IH]; intros b a; rewrite partition_eq.
  - destruct (startswith "" sep) eqn:E; [|discriminate].
    intros [= <- <-]. apply startswith_spec in E as [r Hr].
    destruct sep; [reflexivity | discriminate].
  - destruct (startswith (String x s) sep) eqn:E.
    + intros [= <- <-]. apply startswith_spec in E as [r Hr].
      rewrite Hr, drop_append. reflexivity.
    + destruct (partition sep s) as [[b' a']|] eqn:P; [|discriminate].
      intros [= <- <-]. rewrite append_cons. f_equal. now apply IH.
Qed.

(** ... and the leftmost one: nothing is found only when there is none. *)
Lemma partition_None (sep s : string) :
  partition sep s = None -> forall l r, s <> l +:+ sep +:+ r.
Proof.
  induction s as [|x s IH]; rewrite partition_eq.
  - destruct (startswith "" sep) eqn:E; [discriminate |].
    intros _ l r Hs. destruct l; [|discriminate]. rewrite append_nil in Hs.
    rewrite Hs, startswith_append in E. discriminate.
  - destruct (startswith (String x s) sep) eqn:E; [discriminate |].
    destruct (partition sep s) as [[b' a']|] eqn:P; [discriminate |].
    intros _ l r Hs. destruct l as [|y l].
    + rewrite append_nil in Hs. rewrite Hs, startswith_append in E. discriminate.
    + rewrite append_cons in Hs. injection Hs as -> Hs.
      now apply (IH eq_refl l r).
Qed.

(** [contains sep s] decides whether [sep] occurs in [s]. *)
Lemma contains_spec (sep s : string) :
  contains sep s = true <-> exists l r, s = l +:+ sep +:+ r.
Proof.
  unfold contains. destruct (partition sep s) as [[b a]|] eqn:P.
  - split; [intros _ | reflexivity]. exists b, a. now apply partition_Some.
  - split; [discriminate |]. intros (l & r & Hs).
    now apply (partition_None _ _ P) in Hs.
Qed.

Lemma partition_length (sep s b a : string) :
  sep <> "" -> partition sep s = Some (b, a) ->
  (String.length a < String.length s)%nat.
Proof.
  intros Hsep P. apply partition_Some in P. subst s.
  rewrite !length_append. destruct sep; [congruence | simpl; lia].
Qed.

(** More fuel than the length of the string changes nothing. *)
Lemma split_fuel_enough (sep : string) (n m : nat) (s : string) :
  sep <> "" -> (String.length s <= n)%nat -> (String.length s <= m)%nat ->
  split_fuel n sep s = split_fuel m sep s.
Proof.
  intros Hsep. revert m s; induction n as [|n IH]; intros m s Hn Hm.
  - destruct s; [|simpl in Hn; lia].
    destruct m; simpl; [reflexivity |].
    destruct sep; [congruence | reflexivity].
  - destruct m as [|m].
    + destruct s; [|simpl in Hm; lia]. simpl.
      destruct sep; [congruence | reflexivity].
    + simpl. destruct (partition sep s) as [[b a]|] eqn:P; [|reflexivity].
      f_equal. pose proof (partition_length _ _ _ _ Hsep P).
      apply IH; lia.
Qed.

(** The defining equation of [split]. *)
Lemma split_unfold (sep s : string) :
  sep <> "" ->
  split sep s = match partition sep s with
                | None => [s]
                | Some (b, a) => b :: split sep a
                end.
Proof.
  intros Hsep. unfold split. destruct (String.length s) as [|n] eqn:L.
  - destruct s; [|discriminate]. simpl.
    destruct sep; [congruence | reflexivity].
  - simpl. destruct (partition sep s) as [[b a]|] eqn:P; [|reflexivity].
    f_equal. pose proof (partition_length _ _ _ _ Hsep P).
    apply split_fuel_enough; [assumption | lia | lia].
Qed.

Lemma split_absent (sep s : string) :
  sep <> "" -> contains sep s = false -> split sep s = [s].
Proof.
  intros Hsep Hc. rewrite split_unfold by assumption.
  unfold contains in Hc. now destruct (partition sep s).
Qed.

Lemma split_head (sep s : string) :
  sep <> "" -> split sep (sep +:+ s) = "" :: split sep s.
Proof. intros Hsep. now rewrite split_unfold, partition_head. Qed.

Lemma length_split_absent (sep s : string) :
  sep <> "" -> ((length (split sep s) <? 2)%nat = true <-> contains sep s = false).
Proof.
  intros Hsep. rewrite split_unfold by assumption. unfold contains.
  destruct (partition sep s) as [[b a]|]; simpl.
  - rewrite split_unfold by assumption.
    destruct (partition sep a) as [[b' a']|]; simpl; split; discriminate.
  - split; reflexivity.
Qed.

(** A one-character separator splits at its first occurrence. *)
Lemma contains_char_cons (c x : Ascii.ascii) (s : string) :
  contains (String c "") (String x s) = Ascii.eqb c x || contains (String c "") s.
Proof.
  unfold contains. rewrite partition_eq. simpl.
  destruct (Ascii.eqb c x); simpl; [reflexivity |].
  now destruct (partition (String c "") s) as [[b a]|].
Qed.

Lemma contains_char_append (c : Ascii.ascii) (a b : string) :
  contains (String c "") (a +:+ b)
  = contains (String c "") a || contains (String c "") b.
Proof.
  induction a as [|x a IH]; [reflexivity |].
  now rewrite append_cons, !contains_char_cons, IH, orb_assoc.
Qed.

Lemma partition_char (c : Ascii.ascii) (a r : string) :
  contains (String c "") a = false ->
  partition (String c "") (a +:+ String c r) = Some (a, r).
Proof.
  induction a as [|x a IH]; intros Ha.
  - apply (partition_head (String c "") r).
  - rewrite contains_char_cons in Ha. apply orb_false_elim in Ha as [Hx Ha].
    rewrite append_cons, partition_eq. simpl. rewrite Hx. simpl.
    now rewrite IH.
Qed.

Lemma split_char_3 (c : Ascii.ascii) (x y z : string) :
  contains (String c "") x = false ->
  contains (String c "") y = false ->
  contains (String c "") z = false ->
  split (String c "") (x +:+ String c (y +:+ String c z)) = [x; y; z].
Proof.
  intros Hx Hy Hz.
  rewrite split_unfold, (partition_char _ _ _ Hx) by discriminate.
  rewrite split_unfold, (partition_char _ _ _ Hy) by discriminate.
  now rewrite split_absent by (discriminate || assumption).
Qed.

Lemma split_char_2 (c : Ascii.ascii) (x y : string) :
  contains (String c "") x = false ->
  contains (String c "") y = false ->
  split (String c "") (x +:+ String c y) = [x; y].
Proof.
  intros Hx Hy.
  rewrite split_unfold, (partition_char _ _ _ Hx) by discriminate.
  now rewrite split_absent by (discriminate || assumption).
Qed.

(** The piece after the last separator, when the text after a leading
    occurrence holds no further one. *)
Lemma last_piece_after (sep b a s : string) :
  sep <> "" -> partition sep s = Some (b, a) -> contains sep a = false ->
  last_piece (split sep s) = a.
Proof.
  intros Hsep P Ha. rewrite split_unfold, P by assumption.
  now rewrite split_absent by assumption.
Qed.

End StrFacts.

(** ** The hook monad *)

Section MonadLaws.
Context {C : Type}.

Lemma bind_ret_l {A B} (a : A) (k : A -> M C B) (w : World C) :
  bind (ret a) k w = k a w.
Proof. reflexivity. Qed.

Lemma bind_ret_r {A} (m : M C A) (w : World C) : bind m ret w = m w.
Proof. unfold bind, ret. now destruct (m w) as [[a|e] w']. Qed.

Lemma bind_assoc {A B D} (m : M C A) (k : A -> M C B) (h : B -> M C D)
    (w : World C) :
  bind (bind m k) h w = bind m (fun a => bind (k a) h) w.
Proof. unfold bind. now destruct (m w) as [[a|e] w']. Qed.

(** An exception skips the rest of the block and keeps the world. *)
Lemma bind_raise {A B} (e : Exn) (k : A -> M C B) (w : World C) :
  bind (raise e) k w = (Raise e, w).
Proof. reflexivity. Qed.

(** A handler sees only what was raised. *)
Lemma try_except_ok {A} (m : M C A) (handler : Exn -> M C A) (w w' : World C) (a : A) :
  m w = (Ok a, w') -> try_except m handler w = (Ok a, w').
Proof. intros Hm. unfold try_except. now rewrite Hm. Qed.

Lemma length_mapM {A B} (f : A -> M C B) (l : list A) (w w' : World C)
    (out : list B) :
  mapM f l w = (Ok out, w') -> length out = length l.
Proof.
  revert w w' out; induction l as [|x l IH]; intros w w' out; cbn [mapM].
  - unfold ret. now intros [= <- _].
  - unfold bind at 1. destruct (f x w) as [[y|e] w1]; [|discriminate].
    unfold bind at 1. destruct (mapM f l w1) as [[ys|e] w2] eqn:Hl; [|discriminate].
    unfold ret. intros [= <- _]. simpl. f_equal. now apply (IH w1 w2).
Qed.

End MonadLaws.

(** ** The access check *)

Section AccessCheck.
Context {Cr : Crypto} {C : Type} {Ca : DualCache C}.

Lemma admin_test_is_admin (caller : UserAPIKeyAuth) :
  role_eq_value (user_role caller) (role_value PROXY_ADMIN)
    || role_eq_member (user_role caller) PROXY_ADMIN
  = is_admin caller.
Proof.
  unfold is_admin, role_eq_value, role_eq_member.
  destruct (user_role caller) as [[m|s]|]; [now destruct m | | reflexivity].
  apply orb_diag.
Qed.

Lemma truthy_is_set (x : option string) : Str.truthy x = is_set x.
Proof. destruct x as [[|c s]|]; reflexivity. Qed.

(** The outcome of the access check is the decision of section 4.3 as
    the hook surfaces it. *)
Lemma check_user_access_run (w : World C)
    (owner_user owner_team : option string) (caller : UserAPIKeyAuth) :
  fst (check_user_access_to_response_id owner_user owner_team caller w)
  = surfaced (authorize (disable_responses_id_security w)
                        (mkOwnerTag owner_user owner_team) caller).
Proof.
  unfold check_user_access_to_response_id, authorize, bind, emit, gets, ret,
    raise, verbose_proxy_logger_debug, opt_ne, record_event.
  cbn [userId teamId disable_responses_id_security].
  rewrite admin_test_is_admin, !truthy_is_set.
  destruct (is_admin caller); [reflexivity |].
  destruct (is_set owner_user && negb (bool_decide (owner_user = user_id caller))).
  { now destruct (disable_responses_id_security w). }
  destruct (is_set owner_team && negb (bool_decide (owner_team = team_id caller))).
  { now destruct (disable_responses_id_security w). }
  reflexivity.
Qed.

(** C1. The access check is the algorithm of section 4.3: admin first,
    then the user mismatch, then the team mismatch, each mismatch allowed
    when security is disabled and denied with its own reason otherwise,
    and allow in every other case.  An owner field counts as set when it
    is present and non-empty; a denial is surfaced as the 403 whose detail
    names the user or the team. *)
Theorem check_user_access_is_authorize (w : World C)
    (owner_user owner_team : option string) (caller : UserAPIKeyAuth) :
  fst (check_user_access_to_response_id owner_user owner_team caller w)
  = surfaced (authorize (disable_responses_id_security w)
                        (mkOwnerTag owner_user owner_team) caller).
Proof. apply check_user_access_run. Qed.

End AccessCheck.

(** ** The token codec *)

Section Codec.
Context {Cr : Crypto} {C : Type} {Ca : DualCache C}.
Import Str StrFacts.

Local Arguments split : simpl never.
Local Arguments startswith : simpl never.

Lemma second_piece_length (token rem : string) :
  nth_error (split "resp_" token) 1 = Some rem ->
  (length (split "resp_" token) <? 2)%nat = false.
Proof.
  destruct (split "resp_" token) as [|a [|b l]]; simpl; intros;
    (reflexivity || congruence).
Qed.

Lemma second_piece_absent (token : string) :
  contains "resp_" token = false ->
  (length (split "resp_" token) <? 2)%nat = true.
Proof. intros Hc. now apply length_split_absent. Qed.

Lemma second_piece_present (token : string) :
  contains "resp_" token = true ->
  exists rem, nth_error (split "resp_" token) 1 = Some rem.
Proof.
  intros Hc. destruct (length (split "resp_" token) <? 2)%nat eqn:L.
  - apply length_split_absent in L; [congruence | discriminate].
  - destruct (split "resp_" token) as [|a [|b l]]; simpl in L; try discriminate.
    now exists b.
Qed.

(** Without the marker nothing is decrypted and the world is untouched. *)
Lemma is_encrypted_no_marker (token : string) (w : World C) :
  contains "resp_" token = false ->
  _is_encrypted_response_id token w = (Ok false, w).
Proof.
  intros Hc. unfold _is_encrypted_response_id.
  now rewrite (second_piece_absent _ Hc).
Qed.

Lemma decrypt_no_marker (token : string) (w : World C) :
  contains "resp_" token = false ->
  _decrypt_response_id token w = (Ok (token, None, None), w).
Proof.
  intros Hc. unfold _decrypt_response_id.
  now rewrite (second_piece_absent _ Hc).
Qed.

(** The helper as the hook calls it never gives [None]. *)
Lemma decrypt_value_helper_run (value : string) (w : World C) :
  decrypt_value_helper value true w
  = (Ok (Some (decrypted_or_original value)), record_event (EvDecrypt value) w).
Proof.
  unfold decrypt_value_helper, decrypted_or_original, bind, emit, ret.
  now destruct (decrypt_value value).
Qed.

Lemma decrypted_or_original_some (value d : string) :
  decrypt_value value = Some d -> decrypted_or_original value = d.
Proof. unfold decrypted_or_original. now intros ->. Qed.

Lemma decrypted_or_original_none (value : string) :
  decrypt_value value = None -> decrypted_or_original value = value.
Proof. unfold decrypted_or_original. now intros ->. Qed.

(** With the marker, the piece after its first occurrence is decrypted
    and what the helper returns is tested for the namespace prefix. *)
Lemma is_encrypted_marker (token rem : string) (w : World C) :
  nth_error (split "resp_" token) 1 = Some rem ->
  _is_encrypted_response_id token w
  = (Ok (startswith (decrypted_or_original rem) LITELM_MANAGED_FILE_ID_PREFIX),
     record_event (EvDecrypt rem) w).
Proof.
  intros Hrem. unfold _is_encrypted_response_id.
  rewrite (second_piece_length _ _ Hrem).
  unfold bind at 1, getitem. rewrite Hrem.
  unfold ret at 1, bind at 1. rewrite decrypt_value_helper_run.
  now destruct (startswith _ LITELM_MANAGED_FILE_ID_PREFIX).
Qed.

(** What the helper returned is outside this namespace. *)
Lemma decrypt_marker_outside (token rem : string) (w : World C) :
  nth_error (split "resp_" token) 1 = Some rem ->
  startswith (decrypted_or_original rem) LITELM_MANAGED_FILE_ID_PREFIX = false ->
  _decrypt_response_id token w
  = (Ok (token, None, None), record_event (EvDecrypt rem) w).
Proof.
  intros Hrem Hp. unfold _decrypt_response_id.
  rewrite (second_piece_length _ _ Hrem).
  unfold bind at 1, getitem. rewrite Hrem.
  unfold ret at 1, bind at 1. rewrite decrypt_value_helper_run.
  now rewrite Hp.
Qed.

(** What the helper returned is of this namespace: by the number of its
    fields. *)
Lemma decrypt_marker_inside (token rem : string) (w : World C) :
  nth_error (split "resp_" token) 1 = Some rem ->
  startswith (decrypted_or_original rem) LITELM_MANAGED_FILE_ID_PREFIX = true ->
  _decrypt_response_id token w
  = (match split ";" (decrypted_or_original rem) with
     | p0 :: p1 :: p2 :: _ =>
         Ok (last_piece (split "response_id:" p0),
             Some (last_piece (split "user_id:" p1)),
             Some (last_piece (split "team_id:" p2)))
     | [p0; p1] => Raise IndexError
     | _ => Ok (token, None, None)
     end,
     record_event (EvDecrypt rem) w).
Proof.
  intros Hrem Hp. unfold _decrypt_response_id.
  rewrite (second_piece_length _ _ Hrem).
  unfold bind at 1, getitem at 1. rewrite Hrem.
  unfold ret at 1, bind at 1. rewrite decrypt_value_helper_run.
  rewrite Hp.
  destruct (split ";" (decrypted_or_original rem)) as [|p0 [|p1 [|p2 l]]];
    reflexivity.
Qed.

Lemma decrypt_marker_undecodable (token rem : string) (w : World C) :
  nth_error (split "resp_" token) 1 = Some rem ->
  decrypt_value rem = None ->
  startswith rem LITELM_MANAGED_FILE_ID_PREFIX = false ->
  _decrypt_response_id token w
  = (Ok (token, None, None), record_event (EvDecrypt rem) w).
Proof.
  intros Hrem Hd Hp. apply decrypt_marker_outside; [exact Hrem |].
  now rewrite (decrypted_or_original_none _ Hd).
Qed.

Lemma decrypt_marker_foreign (token rem d : string) (w : World C) :
  nth_error (split "resp_" token) 1 = Some rem ->
  decrypt_value rem = Some d ->
  startswith d LITELM_MANAGED_FILE_ID_PREFIX = false ->
  _decrypt_response_id token w
  = (Ok (token, None, None), record_event (EvDecrypt rem) w).
Proof.
  intros Hrem Hd Hp. apply decrypt_marker_outside; [exact Hrem |].
  now rewrite (decrypted_or_original_some _ _ Hd).
Qed.

(** A payload of this namespace, by the number of its fields. *)
Lemma decrypt_marker_fields (token rem d : string) (w : World C) :
  nth_error (split "resp_" token) 1 = Some rem ->
  decrypt_value rem = Some d ->
  startswith d LITELM_MANAGED_FILE_ID_PREFIX = true ->
  _decrypt_response_id token w
  = (match split ";" d with
     | p0 :: p1 :: p2 :: _ =>
         Ok (last_piece (split "response_id:" p0),
             Some (last_piece (split "user_id:" p1)),
             Some (last_piece (split "team_id:" p2)))
     | [p0; p1] => Raise IndexError
     | _ => Ok (token, None, None)
     end,
     record_event (EvDecrypt rem) w).
Proof.
  intros Hrem Hd Hp.
  rewrite <- (decrypted_or_original_some _ _ Hd) in Hp |- *.
  now apply decrypt_marker_inside.
Qed.

(** *** The payload that tagging writes *)

Lemma format_startswith (rid u t : string) :
  startswith (LITELLM_MANAGED_RESPONSE_API_RESPONSE_ID_COMPLETE_STR_format rid u t)
             LITELM_MANAGED_FILE_ID_PREFIX = true.
Proof. reflexivity. Qed.

Lemma format_fields (rid u t : string) :
  contains ";" rid = false -> contains ";" u = false -> contains ";" t = false ->
  split ";" (LITELLM_MANAGED_RESPONSE_API_RESPONSE_ID_COMPLETE_STR_format rid u t)
  = ["litellm_proxy:responses_api:response_id:" +:+ rid;
     "user_id:" +:+ u; "team_id:" +:+ t].
Proof.
  intros Hr Hu Ht.
  rewrite <- (split_char_3 ";" ("litellm_proxy:responses_api:response_id:" +:+ rid)
                ("user_id:" +:+ u) ("team_id:" +:+ t)).
  - unfold LITELLM_MANAGED_RESPONSE_API_RESPONSE_ID_COMPLETE_STR_format.
    rewrite !append_assoc. reflexivity.
  - rewrite contains_char_append, Hr. reflexivity.
  - rewrite contains_char_append, Hu. reflexivity.
  - rewrite contains_char_append, Ht. reflexivity.
Qed.

Lemma response_id_piece (rid : string) :
  contains "response_id:" rid = false ->
  last_piece (split "response_id:" ("litellm_proxy:responses_api:response_id:" +:+ rid))
  = rid.
Proof.
  intros Hr.
  now apply (last_piece_after _ "litellm_proxy:responses_api:").
Qed.

Lemma user_id_piece (u : string) :
  contains "user_id:" u = false ->
  last_piece (split "user_id:" ("user_id:" +:+ u)) = u.
Proof.
  intros Hu. apply (last_piece_after _ ""); [discriminate | | assumption].
  apply partition_head.
Qed.

Lemma team_id_piece (t : string) :
  contains "team_id:" t = false ->
  last_piece (split "team_id:" ("team_id:" +:+ t)) = t.
Proof.
  intros Ht. apply (last_piece_after _ ""); [discriminate | | assumption].
  apply partition_head.
Qed.

(** A token whose ciphertext holds no further marker splits into the
    empty piece and the ciphertext. *)
Lemma token_second_piece (c : string) :
  contains "resp_" c = false ->
  nth_error (split "resp_" ("resp_" +:+ c)) 1 = Some c.
Proof.
  intros Hc. rewrite split_head by discriminate.
  now rewrite split_absent by (discriminate || assumption).
Qed.

(** Decoding a token of this layer whose fields hold no delimiter. *)
Lemma decrypt_tagged (rid u t c : string) (w : World C) :
  contains ";" rid = false -> contains "response_id:" rid = false ->
  contains ";" u = false -> contains "user_id:" u = false ->
  contains ";" t = false -> contains "team_id:" t = false ->
  contains "resp_" c = false ->
  decrypt_value c
  = Some (LITELLM_MANAGED_RESPONSE_API_RESPONSE_ID_COMPLETE_STR_format rid u t) ->
  _is_encrypted_response_id ("resp_" +:+ c) w
  = (Ok true, record_event (EvDecrypt c) w)
  /\ _decrypt_response_id ("resp_" +:+ c) w
     = (Ok (rid, Some u, Some t), record_event (EvDecrypt c) w).
Proof.
  intros Hr1 Hr2 Hu1 Hu2 Ht1 Ht2 Hc Hd.
  pose proof (token_second_piece c Hc) as Hrem. split.
  - rewrite (is_encrypted_marker _ _ w Hrem), (decrypted_or_original_some _ _ Hd).
    now rewrite format_startswith.
  - rewrite (decrypt_marker_fields _ _ _ w Hrem Hd (format_startswith rid u t)).
    rewrite format_fields by assumption.
    now rewrite response_id_piece, user_id_piece, team_id_piece.
Qed.

End Codec.

(** ** Outbound tagging *)

Section Outbound.
Context {Cr : Crypto} {C : Type} {Ca : DualCache C}.
Import Str StrFacts.

Local Arguments split : simpl never.
Local Arguments startswith : simpl never.

Lemma get_signing_key_run (w : World C) :
  _get_signing_key w
  = (Ok (match LITELLM_SALT_KEY w with
         | Some k => Some k
         | None => master_key w
         end), w).
Proof.
  unfold _get_signing_key, bind, gets, ret.
  now destruct (LITELLM_SALT_KEY w).
Qed.

Lemma signing_key_present (w : World C) :
  signing_key_configured w = true ->
  exists k, match LITELLM_SALT_KEY w with
            | Some k => Some k
            | None => master_key w
            end = Some k.
Proof.
  unfold signing_key_configured.
  destruct (LITELLM_SALT_KEY w) as [k|]; [now exists k |].
  destruct (master_key w) as [k|]; [now exists k | discriminate].
Qed.

Lemma signing_key_absent (w : World C) :
  signing_key_configured w = false ->
  match LITELLM_SALT_KEY w with
  | Some k => Some k
  | None => master_key w
  end = None.
Proof.
  unfold signing_key_configured.
  destruct (LITELLM_SALT_KEY w); [discriminate |].
  now destruct (master_key w).
Qed.

Lemma encrypt_no_key (response : ResponseObject) (caller : UserAPIKeyAuth)
    (w : World C) :
  signing_key_configured w = false ->
  _encrypt_response_id response caller w
  = (Ok response, record_event (EvDebug NO_SIGNING_KEY_MESSAGE) w).
Proof.
  intros Hk. unfold _encrypt_response_id, bind.
  rewrite get_signing_key_run, (signing_key_absent _ Hk).
  reflexivity.
Qed.

Lemma encrypt_top_level (response : ResponseObject) (caller : UserAPIKeyAuth)
    (rid : string) (w : World C) :
  signing_key_configured w = true ->
  resp_id_str (attr_id response) = Some rid ->
  _encrypt_response_id response caller w
  = (Ok (setattr_id response
           (PyStr ("resp_" +:+ encrypt_value (payload_of caller rid)))),
     record_event (EvEncrypt (payload_of caller rid)) w).
Proof.
  intros Hk Hid. unfold _encrypt_response_id, bind at 1.
  rewrite get_signing_key_run.
  destruct (signing_key_present _ Hk) as [k ->].
  rewrite Hid. reflexivity.
Qed.

Lemma encrypt_nested (response : ResponseObject) (caller : UserAPIKeyAuth)
    (o : ResponsesAPIResponse) (w : World C) :
  signing_key_configured w = true ->
  resp_id_str (attr_id response) = None ->
  attr_response response = RespObj o ->
  _encrypt_response_id response caller w
  = (Ok (setattr_response response
           (setattr_rar_id o
              ("resp_" +:+ encrypt_value (payload_of caller (rar_id o))))),
     record_event (EvEncrypt (payload_of caller (rar_id o))) w).
Proof.
  intros Hk Hid Ho. unfold _encrypt_response_id, bind at 1.
  rewrite get_signing_key_run.
  destruct (signing_key_present _ Hk) as [k ->].
  rewrite Hid, Ho. reflexivity.
Qed.

Lemma encrypt_no_identifier (response : ResponseObject) (caller : UserAPIKeyAuth)
    (w : World C) :
  signing_key_configured w = true ->
  carries_no_identifier response = true ->
  _encrypt_response_id response caller w = (Ok response, w).
Proof.
  intros Hk Hn. unfold _encrypt_response_id, bind at 1.
  rewrite get_signing_key_run.
  destruct (signing_key_present _ Hk) as [k ->].
  unfold carries_no_identifier in Hn.
  destruct (resp_id_str (attr_id response)); [discriminate |].
  destruct (attr_response response); (reflexivity || discriminate).
Qed.

(** A token is itself of response-id shape. *)
Lemma resp_id_str_token (c : string) :
  resp_id_str (PyStr ("resp_" +:+ c)) = Some ("resp_" +:+ c).
Proof. reflexivity. Qed.

Lemma resp_id_str_Some (v : PyVal) (s : string) :
  resp_id_str v = Some s -> v = PyStr s /\ startswith s "resp_" = true.
Proof.
  destruct v as [|s'|z]; try discriminate. unfold resp_id_str.
  destruct (truthy (Some s') && startswith s' "resp_") eqn:E; [|discriminate].
  intros [= ->]. apply andb_true_iff in E as [_ E]. now split.
Qed.

End Outbound.

(** ** Round trip of the codec *)

Section RoundTrip.
Context {Cr : Crypto} {C : Type} {Ca : DualCache C}.
Import Str StrFacts.

Local Arguments split : simpl never.
Local Arguments startswith : simpl never.

(** The primary id of a response is rewritten to the token. *)
Lemma encrypt_primary (response : ResponseObject) (caller : UserAPIKeyAuth)
    (rid : string) (w : World C) :
  signing_key_configured w = true ->
  _get_primary_response_id response = Some rid ->
  exists response',
    _encrypt_response_id response caller w
    = (Ok response', record_event (EvEncrypt (payload_of caller rid)) w)
    /\ same_chunk response response'
    /\ _get_primary_response_id response'
       = Some ("resp_" +:+ encrypt_value (payload_of caller rid)).
Proof.
  intros Hk Hp. unfold _get_primary_response_id in Hp.
  destruct (resp_id_str (attr_id response)) as [s|] eqn:Hid.
  - injection Hp as ->. eexists.
    split; [exact (encrypt_top_level response caller rid w Hk Hid) |].
    split; [right; left; eauto | reflexivity].
  - destruct (attr_response response) as [|v|o] eqn:Ho; try discriminate.
    destruct (resp_id_str (PyStr (rar_id o))) as [s|] eqn:Hn; [|discriminate].
    injection Hp as ->. apply resp_id_str_Some in Hn as [[= <-] _].
    eexists. split; [exact (encrypt_nested response caller o w Hk Hid Ho) |].
    split; [right; right; eauto |].
    unfold _get_primary_response_id. cbn [attr_id attr_response setattr_response].
    now rewrite Hid.
Qed.

(** C2, amended. With a signing key configured, tagging the primary id
    [rid] of a response for [caller] and decoding the token gives [rid]
    back together with the caller's user and team ids, an absent one as
    the empty string, provided that no field holds the delimiter [;] or
    its own label, that the ciphertext decrypts to the payload and that
    the ciphertext holds no further marker. *)
Theorem tag_detag_roundtrip (response : ResponseObject) (caller : UserAPIKeyAuth)
    (rid : string) (w w' : World C) :
  signing_key_configured w = true ->
  _get_primary_response_id response = Some rid ->
  contains ";" rid = false ->
  contains "response_id:" rid = false ->
  contains ";" (or_empty (user_id caller)) = false ->
  contains "user_id:" (or_empty (user_id caller)) = false ->
  contains ";" (or_empty (team_id caller)) = false ->
  contains "team_id:" (or_empty (team_id caller)) = false ->
  decrypt_value (encrypt_value (payload_of caller rid)) = Some (payload_of caller rid) ->
  contains "resp_" (encrypt_value (payload_of caller rid)) = false ->
  exists response',
    fst (_encrypt_response_id response caller w) = Ok response'
    /\ _get_primary_response_id response'
       = Some ("resp_" +:+ encrypt_value (payload_of caller rid))
    /\ fst (_is_encrypted_response_id
              ("resp_" +:+ encrypt_value (payload_of caller rid)) w') = Ok true
    /\ fst (_decrypt_response_id
              ("resp_" +:+ encrypt_value (payload_of caller rid)) w')
       = Ok (rid, Some (or_empty (user_id caller)), Some (or_empty (team_id caller))).
Proof.
  intros Hk Hp Hr1 Hr2 Hu1 Hu2 Ht1 Ht2 Hd Hc.
  destruct (encrypt_primary response caller rid w Hk Hp) as (r' & Hrun & _ & Hp').
  exists r'. rewrite Hrun. split; [reflexivity |]. split; [exact Hp' |].
  destruct (decrypt_tagged rid _ _ _ w' Hr1 Hr2 Hu1 Hu2 Ht1 Ht2 Hc Hd) as [E D].
  now rewrite E, D.
Qed.

End RoundTrip.

Section RoundTripRuns.
Local Existing Instance Sample.crypto.

Lemma tag_detag_roundtrip_witness :
  exists response',
    fst (_encrypt_response_id (Cr := Sample.crypto) Sample.response_abc Sample.alice
           Sample.world_with_key) = Ok response'
    /\ _get_primary_response_id response'
       = Some ("resp_" +:+ encrypt_value (payload_of Sample.alice "resp_abc123"))
    /\ fst (_is_encrypted_response_id (Cr := Sample.crypto)
              ("resp_" +:+ encrypt_value (payload_of Sample.alice "resp_abc123"))
              Sample.world_with_key) = Ok true
    /\ fst (_decrypt_response_id (Cr := Sample.crypto)
              ("resp_" +:+ encrypt_value (payload_of Sample.alice "resp_abc123"))
              Sample.world_with_key)
       = Ok ("resp_abc123", Some "u1", Some "t1").
Proof.
  apply (tag_detag_roundtrip (Cr := Sample.crypto) Sample.response_abc Sample.alice
           "resp_abc123" Sample.world_with_key Sample.world_with_key);
    vm_compute; reflexivity.
Defined.

(** C2 as stated fails: an owner whose ids are absent comes back with
    empty strings in their place, and a plaintext id that holds the
    delimiter comes back cut at it, with the rest read as the owner. *)
Lemma tag_detag_not_exact :
  (fst (_encrypt_response_id Sample.response_abc Sample.anonymous
          Sample.world_with_key)
   = Ok (setattr_id Sample.response_abc
           (PyStr ("resp_" +:+ encrypt_value
                     (payload_of Sample.anonymous "resp_abc123"))))
   /\ fst (_decrypt_response_id
             ("resp_" +:+ encrypt_value (payload_of Sample.anonymous "resp_abc123"))
             Sample.world_with_key)
      = Ok ("resp_abc123", Some "", Some "")
   /\ (Some "", Some "") <> (user_id Sample.anonymous, team_id Sample.anonymous))
  /\ (fst (_encrypt_response_id
             (mkResponseObject ClsResponsesAPIResponse (PyStr "resp_a;b") RespNone ∅)
             Sample.alice Sample.world_with_key)
      = Ok (mkResponseObject ClsResponsesAPIResponse
              (PyStr ("resp_" +:+ encrypt_value (payload_of Sample.alice "resp_a;b")))
              RespNone ∅)
      /\ fst (_decrypt_response_id
                ("resp_" +:+ encrypt_value (payload_of Sample.alice "resp_a;b"))
                Sample.world_with_key)
         = Ok ("resp_a", Some "b", Some "user_id:u1")).
Proof.
  split; [split; [|split] | split]; try (vm_compute; reflexivity).
  discriminate.
Qed.

End RoundTripRuns.

(** ** Decoding what tagging did not write *)

Section Detag.
Context {Cr : Crypto} {C : Type} {Ca : DualCache C}.
Import Str StrFacts.

Local Arguments split : simpl never.
Local Arguments startswith : simpl never.

(** A payload of this namespace with no [;] at all takes the fallback:
    the token itself, with no owner. *)
Lemma decrypt_one_field (token rem d : string) (w : World C) :
  nth_error (split "resp_" token) 1 = Some rem ->
  decrypt_value rem = Some d ->
  startswith d LITELM_MANAGED_FILE_ID_PREFIX = true ->
  contains ";" d = false ->
  fst (_decrypt_response_id token w) = Ok (token, None, None).
Proof.
  intros Hrem Hd Hp Hc.
  rewrite (decrypt_marker_fields _ _ _ w Hrem Hd Hp).
  now rewrite split_absent by (discriminate || assumption).
Qed.

Lemma decrypt_two_fields (token rem d p0 p1 : string) (w : World C) :
  nth_error (split "resp_" token) 1 = Some rem ->
  decrypt_value rem = Some d ->
  startswith d LITELM_MANAGED_FILE_ID_PREFIX = true ->
  split ";" d = [p0; p1] ->
  _decrypt_response_id token w
  = (Raise IndexError, record_event (EvDecrypt rem) w).
Proof.
  intros Hrem Hd Hp Hs.
  now rewrite (decrypt_marker_fields _ _ _ w Hrem Hd Hp), Hs.
Qed.

Lemma resolve_two_fields (token rem d p0 p1 : string) (caller : UserAPIKeyAuth)
    (w : World C) :
  nth_error (split "resp_" token) 1 = Some rem ->
  decrypt_value rem = Some d ->
  startswith d LITELM_MANAGED_FILE_ID_PREFIX = true ->
  split ";" d = [p0; p1] ->
  fst (_resolve_encrypted_response_id token caller w) = Raise IndexError.
Proof.
  intros Hrem Hd Hp Hs.
  unfold _resolve_encrypted_response_id, bind at 1.
  rewrite (is_encrypted_marker _ _ w Hrem), (decrypted_or_original_some _ _ Hd), Hp.
  unfold bind at 1.
  now rewrite (decrypt_two_fields _ _ _ _ _ _ Hrem Hd Hp Hs).
Qed.

(** C3. A token whose payload carries the namespace and exactly two
    [;]-separated fields does not take the fallback: reading the third
    field raises [IndexError], in the decoder and so in the resolution
    that calls it. *)
Theorem decrypt_two_fields_raises (token rem d p0 p1 : string)
    (caller : UserAPIKeyAuth) (w : World C) :
  nth_error (split "resp_" token) 1 = Some rem ->
  decrypt_value rem = Some d ->
  startswith d LITELM_MANAGED_FILE_ID_PREFIX = true ->
  split ";" d = [p0; p1] ->
  fst (_decrypt_response_id token w) = Raise IndexError
  /\ fst (_resolve_encrypted_response_id token caller w) = Raise IndexError.
Proof.
  intros Hrem Hd Hp Hs. split.
  - now rewrite (decrypt_two_fields _ _ _ _ _ w Hrem Hd Hp Hs).
  - now apply (resolve_two_fields _ rem d p0 p1).
Qed.

(** C5. Text that was never encrypted is not rejected.  The helper is
    called with [return_original_value=True], so where decryption fails
    the decoder goes on with the text itself: if that text starts with
    the namespace prefix, the string is taken for a token, and its fields
    are read as an owner tag, or raise [IndexError] when there are two of
    them. *)
Theorem undecryptable_text_is_parsed (text : string) (w : World C) :
  contains "resp_" text = false ->
  decrypt_value text = None ->
  startswith text LITELM_MANAGED_FILE_ID_PREFIX = true ->
  _is_encrypted_response_id ("resp_" +:+ text) w
  = (Ok true, record_event (EvDecrypt text) w)
  /\ _decrypt_response_id ("resp_" +:+ text) w
     = (match split ";" text with
        | p0 :: p1 :: p2 :: _ =>
            Ok (last_piece (split "response_id:" p0),
                Some (last_piece (split "user_id:" p1)),
                Some (last_piece (split "team_id:" p2)))
        | [p0; p1] => Raise IndexError
        | _ => Ok ("resp_" +:+ text, None, None)
        end,
        record_event (EvDecrypt text) w).
Proof.
  intros Hc Hd Hp.
  pose proof (token_second_piece text Hc) as Hrem.
  pose proof (decrypted_or_original_none _ Hd) as Hv. split.
  - now rewrite (is_encrypted_marker _ _ w Hrem), Hv, Hp.
  - rewrite (decrypt_marker_inside _ _ w Hrem) by now rewrite Hv.
    now rewrite Hv.
Qed.

End Detag.

Section DetagRuns.
Local Existing Instance Sample.crypto.
Local Existing Instance Sample.memory_cache.

(** A token in the two-field layout of the comment in the decoder. *)
Lemma decrypt_two_fields_raises_witness :
  fst (_decrypt_response_id
         ("resp_" +:+ encrypt_value
            "litellm_proxy:responses_api:response_id:resp_abc123;user_id:u1")
         Sample.world_with_key) = Raise IndexError
  /\ fst (_resolve_encrypted_response_id
            ("resp_" +:+ encrypt_value
               "litellm_proxy:responses_api:response_id:resp_abc123;user_id:u1")
            Sample.alice Sample.world_with_key) = Raise IndexError.
Proof.
  apply (decrypt_two_fields_raises
           ("resp_" +:+ encrypt_value
              "litellm_proxy:responses_api:response_id:resp_abc123;user_id:u1")
           (encrypt_value
              "litellm_proxy:responses_api:response_id:resp_abc123;user_id:u1")
           "litellm_proxy:responses_api:response_id:resp_abc123;user_id:u1"
           "litellm_proxy:responses_api:response_id:resp_abc123" "user_id:u1");
    vm_compute; reflexivity.
Defined.

(** The marker is looked for anywhere: it is not at the start of this
    string, yet the piece after it is decrypted and the string is taken
    for a token. *)
Lemma marker_inside_is_decrypted :
  Str.startswith
    ("x-resp_" +:+ encrypt_value (payload_of Sample.alice "resp_abc123"))
    "resp_" = false
  /\ _is_encrypted_response_id
       ("x-resp_" +:+ encrypt_value (payload_of Sample.alice "resp_abc123"))
       Sample.world_with_key
     = (Ok true,
        record_event
          (EvDecrypt (encrypt_value (payload_of Sample.alice "resp_abc123")))
          Sample.world_with_key)
  /\ fst (_decrypt_response_id
            ("x-resp_" +:+ encrypt_value (payload_of Sample.alice "resp_abc123"))
            Sample.world_with_key)
     = Ok ("resp_abc123", Some "u1", Some "t1").
Proof. repeat split; vm_compute; reflexivity. Qed.

End DetagRuns.

(** ** The mapping cache accessor *)

Section CacheAccessor.
Context {Cr : Crypto} {C : Type} {Ca : DualCache C}.

(** The world after a cache call that left the cache in state [c']. *)
Lemma get_cached_run (rid : string) (w : World C) :
  _get_cached_response_id_mapping rid w
  = match internal_usage_cache w with
    | None => (Ok None, w)
    | Some c =>
        let key := RESPONSE_ID_SECURITY_CACHE_PREFIX +:+ rid in
        let w1 := mkWorld (Some (snd (async_get_cache c key)))
                    (LITELLM_SALT_KEY w) (master_key w)
                    (disable_responses_id_security w)
                    (EvCacheGet key :: trace w) in
        match fst (async_get_cache c key) with
        | Ok r => (Ok r, w1)
        | Raise e =>
            (Ok None,
             record_event
               (EvDebug ("Responses ID Security: unable to fetch cached response id mapping - "
                           +:+ exn_str e)) w1)
        end
    end.
Proof.
  unfold _get_cached_response_id_mapping, bind, gets.
  destruct (internal_usage_cache w) as [c|]; [|reflexivity].
  unfold try_except, internal_usage_cache_async_get_cache.
  destruct (async_get_cache c _) as [[r|e] c']; reflexivity.
Qed.

(** A lookup never raises; a failing transport reads as "no entry". *)
Lemma get_cached_never_raises (rid : string) (w : World C) :
  exists r, fst (_get_cached_response_id_mapping rid w) = Ok r.
Proof.
  rewrite get_cached_run. destruct (internal_usage_cache w) as [c|]; [|now exists None].
  cbv zeta. destruct (fst (async_get_cache c _)) as [r|e]; eauto.
Qed.

Lemma get_cached_failure_is_absent (rid : string) (w : World C) (c : C) (e : Exn) :
  internal_usage_cache w = Some c ->
  fst (async_get_cache c (RESPONSE_ID_SECURITY_CACHE_PREFIX +:+ rid)) = Raise e ->
  fst (_get_cached_response_id_mapping rid w) = Ok None.
Proof. intros Hc He. rewrite get_cached_run, Hc. cbv zeta. now rewrite He. Qed.

(** The outcome of a lookup does not depend on the trace, and a lookup
    adds no access check to it. *)
Lemma get_cached_after_event (rid : string) (w : World C) (ev : Event) :
  fst (_get_cached_response_id_mapping rid (record_event ev w))
  = fst (_get_cached_response_id_mapping rid w).
Proof.
  rewrite !get_cached_run. cbn [record_event internal_usage_cache].
  destruct (internal_usage_cache w) as [c|]; [|reflexivity].
  cbv zeta. now destruct (fst (async_get_cache c _)).
Qed.

Lemma get_cached_trace (rid : string) (w : World C) :
  exists evs,
    trace (snd (_get_cached_response_id_mapping rid w)) = evs ++ trace w
    /\ forallb (fun e => negb (is_check_access e)) evs = true.
Proof.
  rewrite get_cached_run. destruct (internal_usage_cache w) as [c|].
  - cbv zeta. destruct (fst (async_get_cache c _)) as [r|e].
    + now exists [EvCacheGet (RESPONSE_ID_SECURITY_CACHE_PREFIX +:+ rid)].
    + now exists [EvDebug ("Responses ID Security: unable to fetch cached response id mapping - "
                             +:+ exn_str e);
                  EvCacheGet (RESPONSE_ID_SECURITY_CACHE_PREFIX +:+ rid)].
  - now exists [].
Qed.

Lemma cache_mapping_run (tok rid : string) (caller : UserAPIKeyAuth) (w : World C) :
  _cache_response_id_mapping tok rid caller w
  = match internal_usage_cache w with
    | None => (Ok tt, w)
    | Some c =>
        let key := RESPONSE_ID_SECURITY_CACHE_PREFIX +:+ tok in
        let value : gmap string (option string) :=
          <["response_id" := Some rid]>
            (<["user_id" := user_id caller]> (<["team_id" := team_id caller]> ∅)) in
        let w1 := mkWorld
                    (Some (snd (async_set_cache c key value
                                  RESPONSE_ID_SECURITY_CACHE_TTL_SECONDS)))
                    (LITELLM_SALT_KEY w) (master_key w)
                    (disable_responses_id_security w)
                    (EvCacheSet key value RESPONSE_ID_SECURITY_CACHE_TTL_SECONDS
                       :: trace w) in
        match fst (async_set_cache c key value RESPONSE_ID_SECURITY_CACHE_TTL_SECONDS) with
        | Ok _ => (Ok tt, w1)
        | Raise e =>
            (Ok tt,
             record_event
               (EvDebug ("Responses ID Security: unable to cache response id mapping - "
                           +:+ exn_str e)) w1)
        end
    end.
Proof.
  unfold _cache_response_id_mapping, bind, gets.
  destruct (internal_usage_cache w) as [c|]; [|reflexivity].
  unfold try_except, internal_usage_cache_async_set_cache.
  destruct (async_set_cache c _ _ _) as [[[]|e] c']; reflexivity.
Qed.

(** Recording never raises: a failing write is logged and swallowed. *)
Lemma cache_mapping_never_raises (tok rid : string) (caller : UserAPIKeyAuth)
    (w : World C) :
  fst (_cache_response_id_mapping tok rid caller w) = Ok tt.
Proof.
  rewrite cache_mapping_run. destruct (internal_usage_cache w) as [c|]; [|reflexivity].
  cbv zeta. now destruct (fst (async_set_cache c _ _ _)).
Qed.

End CacheAccessor.

(** ** Inbound resolution *)

Section Inbound.
Context {Cr : Crypto} {C : Type} {Ca : DualCache C}.
Import Str StrFacts.

Local Arguments split : simpl never.
Local Arguments startswith : simpl never.

(** For a call type of the responses API the hook resolves the field
    that carries the identifier and returns the request. *)
Lemma pre_call_hook_field (call_type field : string) (caller : UserAPIKeyAuth)
    (data : gmap string string) :
  identifier_field call_type = Some field ->
  async_pre_call_hook caller data call_type
  = (data' <- resolve_field field data caller ;; ret (Some data')).
Proof.
  unfold identifier_field, async_pre_call_hook.
  destruct (String.eqb call_type "aresponses") eqn:E1.
  { apply String.eqb_eq in E1 as ->. intros [= <-].
    rewrite bool_decide_eq_true_2 by (unfold responses_api_call_types; set_solver).
    reflexivity. }
  destruct (String.eqb call_type "aget_responses") eqn:E2.
  { apply String.eqb_eq in E2 as ->. intros [= <-].
    rewrite bool_decide_eq_true_2 by (unfold responses_api_call_types; set_solver).
    rewrite bool_decide_eq_true_2 by set_solver.
    reflexivity. }
  destruct (String.eqb call_type "adelete_responses") eqn:E3.
  { apply String.eqb_eq in E3 as ->. intros [= <-].
    rewrite bool_decide_eq_true_2 by (unfold responses_api_call_types; set_solver).
    rewrite bool_decide_eq_true_2 by set_solver.
    reflexivity. }
  destruct (String.eqb call_type "acancel_responses") eqn:E4; [|discriminate].
  apply String.eqb_eq in E4 as ->. intros [= <-].
  rewrite bool_decide_eq_true_2 by (unfold responses_api_call_types; set_solver).
  rewrite bool_decide_eq_true_2 by set_solver.
  reflexivity.
Qed.

(** Every other call type is left alone: the hook returns [None]. *)
Lemma pre_call_hook_other (call_type : string) (caller : UserAPIKeyAuth)
    (data : gmap string string) (w : World C) :
  identifier_field call_type = None ->
  async_pre_call_hook caller data call_type w = (Ok None, w).
Proof.
  unfold identifier_field, async_pre_call_hook. intros Hf.
  destruct (String.eqb call_type "aresponses") eqn:E1; [discriminate |].
  destruct (String.eqb call_type "aget_responses") eqn:E2; [discriminate |].
  destruct (String.eqb call_type "adelete_responses") eqn:E3; [discriminate |].
  destruct (String.eqb call_type "acancel_responses") eqn:E4; [discriminate |].
  apply String.eqb_neq in E1, E2, E3, E4.
  rewrite bool_decide_eq_false_2; [reflexivity |].
  unfold responses_api_call_types.
  rewrite !elem_of_union, !elem_of_singleton. tauto.
Qed.

(** What recognising a token leaves behind: nothing, or one decryption. *)
Lemma is_encrypted_cases (rid : string) (w : World C) :
  _is_encrypted_response_id rid w = (Ok false, w)
  \/ exists rem b,
       _is_encrypted_response_id rid w = (Ok b, record_event (EvDecrypt rem) w).
Proof.
  destruct (contains "resp_" rid) eqn:Hc.
  - right. destruct (second_piece_present _ Hc) as [rem Hrem].
    exists rem. eexists. now apply is_encrypted_marker.
  - left. now apply is_encrypted_no_marker.
Qed.

(** The two paths of resolution, spelled out on the world. *)
Lemma resolve_run (rid : string) (caller : UserAPIKeyAuth) (w : World C) :
  _resolve_encrypted_response_id rid caller w
  = match _is_encrypted_response_id rid w with
    | (Ok true, w1) =>
        match _decrypt_response_id rid w1 with
        | (Ok (original, owner_user, owner_team), w2) =>
            match check_user_access_to_response_id owner_user owner_team caller w2 with
            | (Ok _, w3) => (Ok (Some original), w3)
            | (Raise e, w3) => (Raise e, w3)
            end
        | (Raise e, w2) => (Raise e, w2)
        end
    | (Ok false, w1) =>
        match _get_cached_response_id_mapping rid w1 with
        | (Ok (Some m), w2) =>
            match check_user_access_to_response_id
                    (mapping_get m "user_id") (mapping_get m "team_id") caller w2 with
            | (Ok _, w3) => (Ok (mapping_get m "response_id"), w3)
            | (Raise e, w3) => (Raise e, w3)
            end
        | (Ok None, w2) => (Ok None, w2)
        | (Raise e, w2) => (Raise e, w2)
        end
    | (Raise e, w1) => (Raise e, w1)
    end.
Proof.
  unfold _resolve_encrypted_response_id, bind.
  destruct (_is_encrypted_response_id rid w) as [[[|]|e] w1]; [| |reflexivity].
  - destruct (_decrypt_response_id rid w1) as [[[[o u] t]|e] w2]; reflexivity.
  - destruct (_get_cached_response_id_mapping rid w1) as [[[m|]|e] w2]; reflexivity.
Qed.

(** The hook on a request whose identifier field holds [rid]. *)
Lemma pre_call_hook_run (caller : UserAPIKeyAuth) (data : gmap string string)
    (call_type field rid : string) (w : World C) :
  identifier_field call_type = Some field ->
  data !! field = Some rid ->
  async_pre_call_hook caller data call_type w
  = match rid with
    | "" => (Ok (Some data), w)
    | _ =>
        match _resolve_encrypted_response_id rid caller w with
        | (Ok (Some resolved), w1) => (Ok (Some (<[field := resolved]> data)), w1)
        | (Ok None, w1) => (Ok (Some data), w1)
        | (Raise e, w1) => (Raise e, w1)
        end
    end.
Proof.
  intros Hf Hd. rewrite (pre_call_hook_field _ _ _ _ Hf).
  unfold bind at 1, resolve_field. rewrite Hd.
  destruct rid as [|c rid']; [reflexivity |].
  unfold bind.
  destruct (_resolve_encrypted_response_id (String c rid') caller w)
    as [[[r|]|e] w1]; reflexivity.
Qed.

(** C6. When the identifier of a request is not recognised as a token
    and the cache lookup returns absent, resolution yields no replacement,
    the hook returns the request with its identifier field as it was, and
    the access check is not called. *)
Theorem untagged_passthrough (caller : UserAPIKeyAuth) (data : gmap string string)
    (call_type field rid : string) (w : World C) :
  identifier_field call_type = Some field ->
  data !! field = Some rid ->
  fst (_is_encrypted_response_id rid w) = Ok false ->
  fst (_get_cached_response_id_mapping rid w) = Ok None ->
  fst (_resolve_encrypted_response_id rid caller w) = Ok None
  /\ fst (async_pre_call_hook caller data call_type w) = Ok (Some data)
  /\ exists evs,
       trace (snd (async_pre_call_hook caller data call_type w)) = evs ++ trace w
       /\ forallb (fun e => negb (is_check_access e)) evs = true.
Proof.
  intros Hf Hd He Hl.
  assert (Hres : exists w1 evs,
             _resolve_encrypted_response_id rid caller w = (Ok None, w1)
             /\ trace w1 = evs ++ trace w
             /\ forallb (fun e => negb (is_check_access e)) evs = true).
  { rewrite resolve_run.
    destruct (is_encrypted_cases rid w) as [E | (rem & b & E)];
      rewrite E in He |- *; cbn [fst] in He; [clear He | injection He as ->].
    - destruct (get_cached_trace rid w) as (evs & Ht & Hn).
      destruct (_get_cached_response_id_mapping rid w) as [r w1].
      cbn [fst snd] in Hl, Ht. subst r. eauto.
    - pose proof (get_cached_after_event rid w (EvDecrypt rem)) as Hl'.
      rewrite Hl in Hl'.
      destruct (get_cached_trace rid (record_event (EvDecrypt rem) w))
        as (evs & Ht & Hn).
      destruct (_get_cached_response_id_mapping rid (record_event (EvDecrypt rem) w))
        as [r w1].
      cbn [fst snd] in Hl', Ht. subst r.
      exists w1, (evs ++ [EvDecrypt rem]). split; [reflexivity |].
      split; [now rewrite Ht, <- app_assoc |].
      now rewrite forallb_app, Hn. }
  destruct Hres as (w1 & evs & Hr & Ht & Hn).
  rewrite (pre_call_hook_run _ _ _ _ _ _ Hf Hd), Hr. cbn [fst snd].
  split; [reflexivity |].
  destruct rid; cbn [fst snd]; [|eauto].
  split; [reflexivity |]. now exists [].
Qed.

(** The access check raises nothing but its two denials. *)
Lemma check_user_access_raises (owner_user owner_team : option string)
    (caller : UserAPIKeyAuth) (w : World C) (e : Exn) :
  fst (check_user_access_to_response_id owner_user owner_team caller w) = Raise e ->
  e = HTTPException 403 USER_MISMATCH_DETAIL
  \/ e = HTTPException 403 TEAM_MISMATCH_DETAIL.
Proof.
  rewrite check_user_access_run.
  destruct (authorize _ _ _) as [|[|]]; simpl; intros [= <-]; auto.
Qed.

(** The decoder raises only where what the helper returned is of this
    namespace and has exactly two fields. *)
Lemma decrypt_raises (token : string) (w : World C) (e : Exn) :
  fst (_decrypt_response_id token w) = Raise e ->
  e = IndexError
  /\ exists rem p0 p1,
       nth_error (split "resp_" token) 1 = Some rem
       /\ startswith (decrypted_or_original rem) LITELM_MANAGED_FILE_ID_PREFIX = true
       /\ split ";" (decrypted_or_original rem) = [p0; p1].
Proof.
  destruct (contains "resp_" token) eqn:Hc.
  2: { rewrite decrypt_no_marker by assumption. discriminate. }
  destruct (second_piece_present _ Hc) as [rem Hrem].
  destruct (startswith (decrypted_or_original rem) LITELM_MANAGED_FILE_ID_PREFIX)
    eqn:Hp.
  2: { rewrite (decrypt_marker_outside _ _ w Hrem Hp). discriminate. }
  rewrite (decrypt_marker_inside _ _ w Hrem Hp).
  destruct (split ";" (decrypted_or_original rem)) as [|p0 [|p1 [|p2 l]]] eqn:Hs;
    simpl; try discriminate.
  intros [= <-]. split; [reflexivity |]. now exists rem, p0, p1.
Qed.

(** Whatever aborts a resolution is a denial of the access check or the
    [IndexError] of a two-field payload. *)
Lemma resolve_raises (rid : string) (caller : UserAPIKeyAuth) (w : World C) (e : Exn) :
  fst (_resolve_encrypted_response_id rid caller w) = Raise e ->
  e = HTTPException 403 USER_MISMATCH_DETAIL
  \/ e = HTTPException 403 TEAM_MISMATCH_DETAIL
  \/ e = IndexError
      /\ exists rem p0 p1,
           nth_error (split "resp_" rid) 1 = Some rem
           /\ startswith (decrypted_or_original rem) LITELM_MANAGED_FILE_ID_PREFIX
              = true
           /\ split ";" (decrypted_or_original rem) = [p0; p1].
Proof.
  assert (Hcheck : forall ou ot (w1 : World C) r w2,
             check_user_access_to_response_id ou ot caller w1 = (r, w2) ->
             r = Raise e ->
             e = HTTPException 403 USER_MISMATCH_DETAIL
             \/ e = HTTPException 403 TEAM_MISMATCH_DETAIL
             \/ e = IndexError
                 /\ exists rem p0 p1,
                      nth_error (split "resp_" rid) 1 = Some rem
                      /\ startswith (decrypted_or_original rem)
                           LITELM_MANAGED_FILE_ID_PREFIX = true
                      /\ split ";" (decrypted_or_original rem) = [p0; p1]).
  { intros ou ot w1 r w2 Hk ->.
    destruct (check_user_access_raises ou ot caller w1 e) as [-> | ->]; auto.
    now rewrite Hk. }
  assert (Hcache : forall (w0 : World C) r w1,
             _get_cached_response_id_mapping rid w0 = (r, w1) ->
             exists m, r = Ok m).
  { intros w0 r w1 Hg. destruct (get_cached_never_raises rid w0) as [m Hm].
    rewrite Hg in Hm. now exists m. }
  rewrite resolve_run.
  destruct (_is_encrypted_response_id rid w) as [[[|]|e0] w1] eqn:E.
  - destruct (_decrypt_response_id rid w1) as [[[[o u] t]|e'] w2] eqn:Hd.
    + destruct (check_user_access_to_response_id u t caller w2) as [[?|e''] w3] eqn:Hk;
        [discriminate |].
      cbn [fst]. intros [= <-]. now apply (Hcheck _ _ _ _ _ Hk).
    + cbn [fst]. intros [= <-]. right. right.
      apply (decrypt_raises rid w1). now rewrite Hd.
  - destruct (_get_cached_response_id_mapping rid w1) as [r w2] eqn:Hg.
    destruct (Hcache _ _ _ Hg) as [[m|] ->]; [|discriminate].
    destruct (check_user_access_to_response_id _ _ caller w2) as [[?|e'] w3] eqn:Hk;
      [discriminate |].
    cbn [fst]. intros [= <-]. now apply (Hcheck _ _ _ _ _ Hk).
  - destruct (is_encrypted_cases rid w) as [E' | (rem & b & E')];
      rewrite E' in E; discriminate.
Qed.

(** C4. A request whose identifier is a token with a two-field payload
    is aborted by the hook with [IndexError], which is not a denial of
    the access check. *)
Theorem two_field_token_aborts_request (caller : UserAPIKeyAuth)
    (data : gmap string string) (call_type field token rem d p0 p1 : string)
    (w : World C) :
  identifier_field call_type = Some field ->
  data !! field = Some token ->
  nth_error (split "resp_" token) 1 = Some rem ->
  decrypt_value rem = Some d ->
  startswith d LITELM_MANAGED_FILE_ID_PREFIX = true ->
  split ";" d = [p0; p1] ->
  fst (async_pre_call_hook caller data call_type w) = Raise IndexError
  /\ forall status detail, IndexError <> HTTPException status detail.
Proof.
  intros Hf Hdata Hrem Hd Hp Hs. split; [|discriminate].
  rewrite (pre_call_hook_run _ _ _ _ _ _ Hf Hdata).
  pose proof (resolve_two_fields _ _ _ _ _ caller w Hrem Hd Hp Hs) as Hr.
  destruct token as [|c token']; [discriminate |].
  destruct (_resolve_encrypted_response_id (String c token') caller w) as [r w1].
  cbn [fst] in Hr. now subst r.
Qed.

End Inbound.

(** ** The outbound hooks *)

Section OutboundHooks.
Context {Cr : Crypto} {C : Type} {Ca : DualCache C}.
Import Str StrFacts.

Local Arguments split : simpl never.
Local Arguments startswith : simpl never.

Lemma same_settings_refl (w : World C) : same_settings w w.
Proof. now repeat split. Qed.

Lemma same_settings_trans (w1 w2 w3 : World C) :
  same_settings w1 w2 -> same_settings w2 w3 -> same_settings w1 w3.
Proof. intros (?&?&?) (?&?&?). repeat split; congruence. Qed.

Lemma same_settings_event (e : Event) (w : World C) :
  same_settings w (record_event e w).
Proof. now repeat split. Qed.

Lemma same_settings_key (w w' : World C) :
  same_settings w w' -> signing_key_configured w' = signing_key_configured w.
Proof. intros (Hs & Hm & _). unfold signing_key_configured. now rewrite Hs, Hm. Qed.

Lemma no_cache_write_refl (w : World C) : no_cache_write w w.
Proof. split; [reflexivity |]. now exists []. Qed.

Lemma no_cache_write_trans (w1 w2 w3 : World C) :
  no_cache_write w1 w2 -> no_cache_write w2 w3 -> no_cache_write w1 w3.
Proof.
  intros (Hc1 & evs1 & Ht1 & Hn1) (Hc2 & evs2 & Ht2 & Hn2).
  split; [congruence |]. exists (evs2 ++ evs1).
  split; [now rewrite Ht2, Ht1, app_assoc |].
  now rewrite forallb_app, Hn1, Hn2.
Qed.

Lemma opt_ne_same (x : option string) : opt_ne x x = false.
Proof. unfold opt_ne. now rewrite bool_decide_eq_true_2. Qed.

(** Tagging always returns, with the chunk it was given up to the
    identifier, and touches neither the settings nor the cache. *)
Lemma encrypt_returns (response : ResponseObject) (caller : UserAPIKeyAuth)
    (w : World C) :
  exists response' w',
    _encrypt_response_id response caller w = (Ok response', w')
    /\ same_chunk response response'
    /\ (carries_no_identifier response = true -> response' = response)
    /\ same_settings w w'
    /\ no_cache_write w w'.
Proof.
  assert (Hev : forall e, no_cache_write w (record_event e w)
                          \/ is_cache_set e = true).
  { intros e. destruct (is_cache_set e) eqn:He; [now right | left].
    split; [reflexivity |]. exists [e]. split; [reflexivity |].
    simpl. now rewrite He. }
  destruct (signing_key_configured w) eqn:Hk.
  - destruct (resp_id_str (attr_id response)) as [rid|] eqn:Hid.
    + eexists _, _. split; [exact (encrypt_top_level response caller rid w Hk Hid) |].
      split; [right; left; eauto |].
      split. { unfold carries_no_identifier. now rewrite Hid. }
      split; [apply same_settings_event |].
      now destruct (Hev (EvEncrypt (payload_of caller rid))).
    + destruct (attr_response response) as [|v|o] eqn:Ho.
      * exists response, w. split.
        { apply encrypt_no_identifier; [assumption |].
          unfold carries_no_identifier. now rewrite Hid, Ho. }
        split; [now left |]. split; [reflexivity |].
        split; [apply same_settings_refl | apply no_cache_write_refl].
      * exists response, w. split.
        { apply encrypt_no_identifier; [assumption |].
          unfold carries_no_identifier. now rewrite Hid, Ho. }
        split; [now left |]. split; [reflexivity |].
        split; [apply same_settings_refl | apply no_cache_write_refl].
      * eexists _, _. split; [exact (encrypt_nested response caller o w Hk Hid Ho) |].
        split; [right; right; eauto |].
        split. { unfold carries_no_identifier. now rewrite Hid, Ho. }
        split; [apply same_settings_event |].
        now destruct (Hev (EvEncrypt (payload_of caller (rar_id o)))).
  - exists response, (record_event (EvDebug NO_SIGNING_KEY_MESSAGE) w).
    split; [now apply encrypt_no_key |].
    split; [now left |]. split; [reflexivity |].
    split; [apply same_settings_event |].
    now destruct (Hev (EvDebug NO_SIGNING_KEY_MESSAGE)).
Qed.

Lemma cache_mapping_settings (tok rid : string) (caller : UserAPIKeyAuth)
    (w : World C) :
  same_settings w (snd (_cache_response_id_mapping tok rid caller w)).
Proof.
  rewrite cache_mapping_run. destruct (internal_usage_cache w) as [c|].
  - cbv zeta. destruct (fst (async_set_cache c _ _ _)); now repeat split.
  - apply same_settings_refl.
Qed.

(** The shared body of the two hooks always returns. *)
Lemma encrypt_and_cache_returns (response : ResponseObject)
    (caller : UserAPIKeyAuth) (w : World C) :
  exists response' w',
    encrypt_and_cache response caller w = (Ok response', w')
    /\ same_chunk response response'
    /\ (carries_no_identifier response = true -> response' = response)
    /\ same_settings w w'.
Proof.
  destruct (encrypt_returns response caller w)
    as (r' & w1 & Hrun & Hsame & Hno & Hset & _).
  unfold encrypt_and_cache, bind at 1. rewrite Hrun.
  destruct (truthy (_get_primary_response_id response)
            && truthy (_get_primary_response_id r')
            && opt_ne (_get_primary_response_id response)
                 (_get_primary_response_id r')).
  - unfold bind.
    pose proof (cache_mapping_never_raises
                  (or_empty (_get_primary_response_id r'))
                  (or_empty (_get_primary_response_id response)) caller w1) as Hok.
    pose proof (cache_mapping_settings
                  (or_empty (_get_primary_response_id r'))
                  (or_empty (_get_primary_response_id response)) caller w1) as Hs.
    destruct (_cache_response_id_mapping _ _ caller w1) as [r w2].
    cbn [fst snd] in Hok, Hs. subst r. exists r', w2.
    split; [reflexivity |]. split; [assumption |]. split; [assumption |].
    now apply (same_settings_trans _ w1).
  - exists r', w1. split; [reflexivity |]. auto.
Qed.

Lemma encrypt_and_cache_no_key (response : ResponseObject)
    (caller : UserAPIKeyAuth) (w : World C) :
  signing_key_configured w = false ->
  encrypt_and_cache response caller w
  = (Ok response, record_event (EvDebug NO_SIGNING_KEY_MESSAGE) w).
Proof.
  intros Hk. unfold encrypt_and_cache, bind at 1.
  rewrite (encrypt_no_key _ _ _ Hk), opt_ne_same, andb_false_r.
  reflexivity.
Qed.

Lemma no_cache_write_debug (msg : string) (w : World C) :
  no_cache_write w (record_event (EvDebug msg) w).
Proof. split; [reflexivity |]. now exists [EvDebug msg]. Qed.

Lemma streaming_no_key (caller : UserAPIKeyAuth) (chunks : list ResponseObject)
    (request_data : gmap string string) (w : World C) :
  signing_key_configured w = false ->
  exists w',
    async_post_call_streaming_iterator_hook caller chunks request_data w
    = (Ok chunks, w')
    /\ no_cache_write w w' /\ same_settings w w'.
Proof.
  unfold async_post_call_streaming_iterator_hook.
  revert w; induction chunks as [|c chunks IH]; intros w Hk.
  - exists w. split; [reflexivity |].
    split; [apply no_cache_write_refl | apply same_settings_refl].
  - assert (Hstep : exists w1, streaming_step caller c w = (Ok c, w1)
                               /\ no_cache_write w w1 /\ same_settings w w1).
    { unfold streaming_step, bind, gets.
      destruct (_ && _ && _).
      - rewrite (encrypt_and_cache_no_key _ _ _ Hk). eexists.
        split; [reflexivity |].
        split; [apply no_cache_write_debug | apply same_settings_event].
      - exists w. split; [reflexivity |].
        split; [apply no_cache_write_refl | apply same_settings_refl]. }
    destruct Hstep as (w1 & Hs & Hn1 & Hset1).
    destruct (IH w1) as (w2 & Hrest & Hn2 & Hset2).
    { now rewrite (same_settings_key _ _ Hset1). }
    exists w2. cbn [mapM]. unfold bind at 1. rewrite Hs.
    unfold bind at 1. rewrite Hrest.
    split; [reflexivity |].
    split; [now apply (no_cache_write_trans _ w1)
           | now apply (same_settings_trans _ w1)].
Qed.

(** C7. Without a signing key, tagging returns the response as it is and
    the cache is not written: in the tagging step itself, in the hook on
    a finished response and in the hook on a stream. *)
Theorem no_signing_key_no_tagging (caller : UserAPIKeyAuth)
    (response : ResponseObject) (chunks : list ResponseObject)
    (data request_data : gmap string string) (w : World C) :
  signing_key_configured w = false ->
  (exists w', _encrypt_response_id response caller w = (Ok response, w')
              /\ no_cache_write w w')
  /\ (exists w', async_post_call_success_hook data caller response w
                 = (Ok response, w')
                 /\ no_cache_write w w')
  /\ (exists w', async_post_call_streaming_iterator_hook caller chunks request_data w
                 = (Ok chunks, w')
                 /\ no_cache_write w w').
Proof.
  intros Hk. split; [|split].
  - eexists. split; [now apply encrypt_no_key | apply no_cache_write_debug].
  - unfold async_post_call_success_hook, bind, gets.
    destruct (disable_responses_id_security w).
    { exists w. split; [reflexivity | apply no_cache_write_refl]. }
    destruct (cls response).
    + rewrite (encrypt_and_cache_no_key _ _ _ Hk). eexists.
      split; [reflexivity | apply no_cache_write_debug].
    + exists w. split; [reflexivity | apply no_cache_write_refl].
    + exists w. split; [reflexivity | apply no_cache_write_refl].
  - destruct (streaming_no_key caller chunks request_data w Hk) as (w' & Hr & Hn & _).
    eauto.
Qed.

(** Top level first, never both: a top-level identifier of response
    shape is the one rewritten and the wrapped response is left alone. *)
Lemma top_level_takes_precedence (response : ResponseObject)
    (caller : UserAPIKeyAuth) (rid : string) (w : World C) :
  signing_key_configured w = true ->
  resp_id_str (attr_id response) = Some rid ->
  exists response',
    fst (_encrypt_response_id response caller w) = Ok response'
    /\ attr_id response'
       = PyStr ("resp_" +:+ encrypt_value (payload_of caller rid))
    /\ attr_response response' = attr_response response.
Proof.
  intros Hk Hid. rewrite (encrypt_top_level _ _ _ _ Hk Hid).
  eexists. split; [reflexivity |]. now split.
Qed.

(** C8. With a signing key configured, a response whose top-level id is
    not of response shape and which wraps a [ResponsesAPIResponse] has
    the wrapped id rewritten to a token whatever its shape: also when no
    identifier of the response matches the shape, the response does not
    come back unchanged. *)
Theorem nested_id_rewritten_whatever_its_shape (response : ResponseObject)
    (caller : UserAPIKeyAuth) (o : ResponsesAPIResponse) (w : World C) :
  signing_key_configured w = true ->
  _get_primary_response_id response = None ->
  attr_response response = RespObj o ->
  exists response',
    fst (_encrypt_response_id response caller w) = Ok response'
    /\ attr_response response'
       = RespObj (setattr_rar_id o
                    ("resp_" +:+ encrypt_value (payload_of caller (rar_id o))))
    /\ response' <> response.
Proof.
  intros Hk Hp Ho. unfold _get_primary_response_id in Hp. rewrite Ho in Hp.
  destruct (resp_id_str (attr_id response)) eqn:Hid; [discriminate |].
  destruct (resp_id_str (PyStr (rar_id o))) eqn:Hn; [discriminate |].
  rewrite (encrypt_nested _ _ _ _ Hk Hid Ho). eexists.
  split; [reflexivity |]. split; [reflexivity |].
  intros Heq. apply (f_equal attr_response) in Heq.
  rewrite Ho in Heq. cbn [attr_response setattr_response] in Heq.
  injection Heq as Heq. apply (f_equal rar_id) in Heq.
  cbn [rar_id setattr_rar_id] in Heq.
  rewrite <- Heq in Hn. now rewrite resp_id_str_token in Hn.
Qed.

(** One round of the stream loop. *)
Lemma streaming_step_returns (caller : UserAPIKeyAuth) (c : ResponseObject)
    (w : World C) :
  exists c' w',
    streaming_step caller c w = (Ok c', w')
    /\ same_chunk c c'
    /\ (carries_no_identifier c = true -> c' = c)
    /\ same_settings w w'
    /\ (request_route caller = Some "/v1/responses"
          /\ disable_responses_id_security w = false
        \/ c' = c /\ w' = w).
Proof.
  unfold streaming_step, bind at 1, gets.
  destruct (isinstance_BaseLiteLLMOpenAIResponseObject c) eqn:Hi;
    cbn [andb].
  2: { exists c, w. split; [reflexivity |]. split; [now left |].
       split; [reflexivity |]. split; [apply same_settings_refl | now right]. }
  destruct (bool_decide (request_route caller = Some "/v1/responses")) eqn:Hr;
    cbn [andb].
  2: { exists c, w. split; [reflexivity |]. split; [now left |].
       split; [reflexivity |]. split; [apply same_settings_refl | now right]. }
  apply bool_decide_eq_true_1 in Hr.
  destruct (disable_responses_id_security w) eqn:Hd; cbn [negb].
  { exists c, w. split; [reflexivity |]. split; [now left |].
    split; [reflexivity |]. split; [apply same_settings_refl | now right]. }
  destruct (encrypt_and_cache_returns c caller w) as (c' & w' & Hrun & Hs & Hn & Hset).
  exists c', w'. rewrite Hrun. repeat split; try assumption; try apply Hset.
  now left.
Qed.

(** On the responses route with security on, a round of the loop is the
    body of the outbound hook, applied to the chunks that are response
    objects. *)
Lemma streaming_step_enabled (caller : UserAPIKeyAuth) (c : ResponseObject)
    (w : World C) :
  request_route caller = Some "/v1/responses" ->
  disable_responses_id_security w = false ->
  streaming_step caller c w
  = (if isinstance_BaseLiteLLMOpenAIResponseObject c
     then encrypt_and_cache c caller else ret c) w.
Proof.
  intros Hr Hd. unfold streaming_step, bind, gets.
  rewrite Hd, (bool_decide_eq_true_2 _ Hr).
  now destruct (isinstance_BaseLiteLLMOpenAIResponseObject c).
Qed.


(** When tagging changes the primary id and a cache is configured, the
    mapping from the token to the plaintext id and the caller is written
    under the namespaced key with the 24 hour time-to-live. *)
Lemma encrypt_and_cache_records (response : ResponseObject)
    (caller : UserAPIKeyAuth) (rid : string) (cache : C) (w : World C) :
  signing_key_configured w = true ->
  internal_usage_cache w = Some cache ->
  _get_primary_response_id response = Some rid ->
  "resp_" +:+ encrypt_value (payload_of caller rid) <> rid ->
  exists evs,
    trace (snd (encrypt_and_cache response caller w))
    = evs ++ EvCacheSet
               (RESPONSE_ID_SECURITY_CACHE_PREFIX
                  +:+ "resp_" +:+ encrypt_value (payload_of caller rid))
               (<["response_id" := Some rid]>
                  (<["user_id" := user_id caller]>
                     (<["team_id" := team_id caller]> ∅)))
               86400
             :: EvEncrypt (payload_of caller rid) :: trace w.
Proof.
  intros Hk Hc Hp Hne.
  destruct (encrypt_primary response caller rid w Hk Hp) as (r' & Hrun & _ & Hp').
  assert (Hrid : truthy (Some rid) = true).
  { unfold _get_primary_response_id in Hp.
    destruct (resp_id_str (attr_id response)) as [s|] eqn:Hid.
    - injection Hp as ->. apply resp_id_str_Some in Hid as [_ Hs].
      destruct rid; [discriminate | reflexivity].
    - destruct (attr_response response) as [| |o]; try discriminate.
      destruct (resp_id_str (PyStr (rar_id o))) as [s|] eqn:Hn; [|discriminate].
      injection Hp as ->. apply resp_id_str_Some in Hn as [_ Hs].
      destruct rid; [discriminate | reflexivity]. }
  assert (Htok : truthy (Some ("resp_" +:+ encrypt_value (payload_of caller rid)))
                 = true) by reflexivity.
  unfold encrypt_and_cache, bind at 1. rewrite Hrun, Hp, Hp', Hrid, Htok.
  unfold opt_ne. rewrite bool_decide_eq_false_2 by congruence.
  cbn [andb negb or_empty]. unfold bind.
  rewrite cache_mapping_run. cbn [record_event internal_usage_cache].
  rewrite Hc. cbv zeta.
  destruct (fst (async_set_cache cache _ _ _)); cbn [snd trace record_event].
  - now exists [].
  - eexists [_]. reflexivity.
Qed.


End OutboundHooks.

(** ** Owners without constraints *)

Section EmptyOwner.
Context {Cr : Crypto} {C : Type} {Ca : DualCache C}.
Import Str StrFacts.

Local Arguments split : simpl never.
Local Arguments startswith : simpl never.

Lemma unset_owner_allowed (owner_user owner_team : option string)
    (caller : UserAPIKeyAuth) (w : World C) :
  is_set owner_user = false -> is_set owner_team = false ->
  fst (check_user_access_to_response_id owner_user owner_team caller w) = Ok true.
Proof.
  intros Hu Ht. rewrite check_user_access_run. unfold authorize.
  cbn [userId teamId]. rewrite Hu, Ht.
  now destruct (is_admin caller).
Qed.

Lemma or_empty_unset (x : option string) : is_set x = false -> or_empty x = "".
Proof. destruct x as [[|c s]|]; simpl; (reflexivity || discriminate). Qed.

(** C10, amended. An owner whose user id and team id are absent or empty
    is never denied, whoever the caller.  A token tagged for a creator
    without user id and team id carries both as empty strings, and when
    the plaintext id holds no [;], the ciphertext decrypts to the payload
    and holds no further marker, it decodes to that unconstrained owner,
    so that resolving it succeeds for every caller. *)
Theorem empty_owner_never_denied (caller : UserAPIKeyAuth) (w : World C) :
  (forall owner_user owner_team,
      is_set owner_user = false -> is_set owner_team = false ->
      fst (check_user_access_to_response_id owner_user owner_team caller w)
      = Ok true)
  /\ (forall (creator : UserAPIKeyAuth) (response : ResponseObject) (rid : string)
             (w0 : World C),
        is_set (user_id creator) = false ->
        is_set (team_id creator) = false ->
        signing_key_configured w0 = true ->
        _get_primary_response_id response = Some rid ->
        contains ";" rid = false ->
        decrypt_value (encrypt_value (payload_of creator rid))
        = Some (payload_of creator rid) ->
        contains "resp_" (encrypt_value (payload_of creator rid)) = false ->
        payload_of creator rid
        = LITELLM_MANAGED_RESPONSE_API_RESPONSE_ID_COMPLETE_STR_format rid "" ""
        /\ exists response' rid',
             fst (_encrypt_response_id response creator w0) = Ok response'
             /\ _get_primary_response_id response'
                = Some ("resp_" +:+ encrypt_value (payload_of creator rid))
             /\ fst (_decrypt_response_id
                       ("resp_" +:+ encrypt_value (payload_of creator rid)) w)
                = Ok (rid', Some "", Some "")
             /\ fst (_resolve_encrypted_response_id
                       ("resp_" +:+ encrypt_value (payload_of creator rid)) caller w)
                = Ok (Some rid')).
Proof.
  split; [intros; now apply unset_owner_allowed |].
  intros creator response rid w0 Hu Ht Hk Hp Hr Hd Hc.
  assert (Hpay : payload_of creator rid
                 = LITELLM_MANAGED_RESPONSE_API_RESPONSE_ID_COMPLETE_STR_format rid "" "").
  { unfold payload_of. now rewrite (or_empty_unset _ Hu), (or_empty_unset _ Ht). }
  split; [exact Hpay |].
  destruct (encrypt_primary response creator rid w0 Hk Hp) as (r' & Hrun & _ & Hp').
  pose proof (token_second_piece _ Hc) as Hrem.
  assert (Hdec : forall w1 : World C,
             _decrypt_response_id
               ("resp_" +:+ encrypt_value (payload_of creator rid)) w1
             = (Ok (last_piece (split "response_id:"
                                  ("litellm_proxy:responses_api:response_id:" +:+ rid)),
                    Some "", Some ""),
                record_event (EvDecrypt (encrypt_value (payload_of creator rid))) w1)).
  { intros w1. rewrite (decrypt_marker_fields _ _ _ w1 Hrem Hd).
    2: { rewrite Hpay. apply format_startswith. }
    rewrite Hpay, format_fields by (assumption || reflexivity).
    reflexivity. }
  exists r', (last_piece (split "response_id:"
                            ("litellm_proxy:responses_api:response_id:" +:+ rid))).
  rewrite Hrun. split; [reflexivity |]. split; [exact Hp' |].
  split; [now rewrite Hdec |].
  rewrite resolve_run, (is_encrypted_marker _ _ w Hrem),
    (decrypted_or_original_some _ _ Hd).
  rewrite Hpay at 1. rewrite format_startswith, Hdec.
  pose proof (unset_owner_allowed (Some "") (Some "") caller
                (record_event (EvDecrypt (encrypt_value (payload_of creator rid)))
                   (record_event (EvDecrypt (encrypt_value (payload_of creator rid))) w))
                eq_refl eq_refl) as Hok.
  destruct (check_user_access_to_response_id (Some "") (Some "") caller _) as [r w3].
  cbn [fst] in Hok. now subst r.
Qed.

End EmptyOwner.

(** ** Concrete runs *)

Section Runs.
Local Existing Instance Sample.crypto.
Local Existing Instance Sample.memory_cache.

Example split_on_marker : Str.split "resp_" "resp_abc" = [""; "abc"].
Proof. reflexivity. Qed.

Example split_without_marker : Str.split "resp_" "" = [""].
Proof. reflexivity. Qed.

Example split_marker_inside :
  Str.split "resp_" "xresp_aresp_b" = ["x"; "a"; "b"].
Proof. reflexivity. Qed.

Example split_does_not_overlap : Str.split "aa" "aaa" = [""; "a"].
Proof. reflexivity. Qed.

Example split_keeps_empty_pieces : Str.split ";" "a;;b;" = ["a"; ""; "b"; ""].
Proof. reflexivity. Qed.

(** The request of section 8: [resp_abc123] tagged for user [u1] of team
    [t1]. *)
Example tagged_for_alice :
  fst (_encrypt_response_id Sample.response_abc Sample.alice Sample.world_with_key)
  = Ok (setattr_id Sample.response_abc
          (PyStr "resp_Zmhudmml^qsnyx;sdrqnordr^`qh;sdrqnord^he;sdrq^`cb032:trds^he;t0:ud`l^he;u0")).
Proof. vm_compute. reflexivity. Qed.

Lemma untagged_passthrough_witness :
  fst (_resolve_encrypted_response_id "resp_unknown" Sample.bob Sample.world_with_key)
  = Ok None
  /\ fst (async_pre_call_hook Sample.bob {["response_id" := "resp_unknown"]}
            "aget_responses" Sample.world_with_key)
     = Ok (Some {["response_id" := "resp_unknown"]})
  /\ exists evs,
       trace (snd (async_pre_call_hook Sample.bob {["response_id" := "resp_unknown"]}
                     "aget_responses" Sample.world_with_key))
       = evs ++ trace Sample.world_with_key
       /\ forallb (fun e => negb (is_check_access e)) evs = true.
Proof.
  apply (untagged_passthrough Sample.bob {["response_id" := "resp_unknown"]}
           "aget_responses" "response_id" "resp_unknown" Sample.world_with_key);
    vm_compute; reflexivity.
Defined.

Lemma two_field_token_aborts_request_witness :
  fst (async_pre_call_hook Sample.alice
         {["previous_response_id" :=
             "resp_" +:+ encrypt_value
               "litellm_proxy:responses_api:response_id:resp_abc123;user_id:u1"]}
         "aresponses" Sample.world_with_key)
  = Raise IndexError
  /\ forall status detail, IndexError <> HTTPException status detail.
Proof.
  apply (two_field_token_aborts_request Sample.alice
           {["previous_response_id" :=
               "resp_" +:+ encrypt_value
                 "litellm_proxy:responses_api:response_id:resp_abc123;user_id:u1"]}
           "aresponses" "previous_response_id"
           ("resp_" +:+ encrypt_value
              "litellm_proxy:responses_api:response_id:resp_abc123;user_id:u1")
           (encrypt_value
              "litellm_proxy:responses_api:response_id:resp_abc123;user_id:u1")
           "litellm_proxy:responses_api:response_id:resp_abc123;user_id:u1"
           "litellm_proxy:responses_api:response_id:resp_abc123" "user_id:u1"
           Sample.world_with_key);
    vm_compute; reflexivity.
Defined.

Lemma no_signing_key_no_tagging_witness :
  (exists w', _encrypt_response_id Sample.response_abc Sample.alice
                Sample.world_without_key = (Ok Sample.response_abc, w')
              /\ no_cache_write Sample.world_without_key w')
  /\ (exists w', async_post_call_success_hook ∅ Sample.alice Sample.response_abc
                   Sample.world_without_key = (Ok Sample.response_abc, w')
                 /\ no_cache_write Sample.world_without_key w')
  /\ (exists w', async_post_call_streaming_iterator_hook Sample.alice
                   [Sample.response_abc; Sample.response_abc] ∅
                   Sample.world_without_key
                 = (Ok [Sample.response_abc; Sample.response_abc], w')
                 /\ no_cache_write Sample.world_without_key w').
Proof.
  apply (no_signing_key_no_tagging Sample.alice Sample.response_abc
           [Sample.response_abc; Sample.response_abc] ∅ ∅ Sample.world_without_key).
  reflexivity.
Defined.

(** A stream event that wraps a response whose id lacks the marker. *)
Lemma nested_id_rewritten_whatever_its_shape_witness :
  exists response',
    fst (_encrypt_response_id
           (mkResponseObject ClsBaseLiteLLMOpenAIResponseObject PyNone
              (RespObj (mkResponsesAPIResponse "chatcmpl-123" ∅)) ∅)
           Sample.alice Sample.world_with_key) = Ok response'
    /\ attr_response response'
       = RespObj (setattr_rar_id (mkResponsesAPIResponse "chatcmpl-123" ∅)
                    ("resp_" +:+ encrypt_value (payload_of Sample.alice "chatcmpl-123")))
    /\ response'
       <> mkResponseObject ClsBaseLiteLLMOpenAIResponseObject PyNone
            (RespObj (mkResponsesAPIResponse "chatcmpl-123" ∅)) ∅.
Proof.
  apply (nested_id_rewritten_whatever_its_shape
           (mkResponseObject ClsBaseLiteLLMOpenAIResponseObject PyNone
              (RespObj (mkResponsesAPIResponse "chatcmpl-123" ∅)) ∅)
           Sample.alice (mkResponsesAPIResponse "chatcmpl-123" ∅)
           Sample.world_with_key);
    reflexivity.
Defined.

(** Plain text in the layout of a payload, never encrypted: it is taken
    for a token, with the owner written in it. *)
Lemma undecryptable_text_is_parsed_witness :
  _is_encrypted_response_id
    "resp_litellm_proxy:responses_api:response_id:victim-123;user_id:;team_id:"
    Sample.world_with_key
  = (Ok true,
     record_event
       (EvDecrypt "litellm_proxy:responses_api:response_id:victim-123;user_id:;team_id:")
       Sample.world_with_key)
  /\ _decrypt_response_id
       "resp_litellm_proxy:responses_api:response_id:victim-123;user_id:;team_id:"
       Sample.world_with_key
     = (Ok ("victim-123", Some "", Some ""),
        record_event
          (EvDecrypt
             "litellm_proxy:responses_api:response_id:victim-123;user_id:;team_id:")
          Sample.world_with_key).
Proof.
  apply (undecryptable_text_is_parsed
           "litellm_proxy:responses_api:response_id:victim-123;user_id:;team_id:"
           Sample.world_with_key);
    reflexivity.
Defined.

(** Presented by bob, that text is replaced in his request by the id
    written in it, with no denial. *)
Example plain_text_token_resolves :
  fst (async_pre_call_hook Sample.bob
         {[ "response_id"
            := "resp_litellm_proxy:responses_api:response_id:victim-123;user_id:;team_id:" ]}
         "aget_responses" Sample.world_with_key)
  = Ok (Some {[ "response_id" := "victim-123" ]}).
Proof. vm_compute. reflexivity. Qed.

(** Plain text with the namespace prefix and two fields aborts the
    request. *)
Example plain_text_two_fields_raises :
  fst (_decrypt_response_id "resp_litellm_proxy:a;b" Sample.world_with_key)
  = Raise IndexError
  /\ fst (async_pre_call_hook Sample.bob
            {[ "response_id" := "resp_litellm_proxy:a;b" ]}
            "aget_responses" Sample.world_with_key)
     = Raise IndexError.
Proof. split; vm_compute; reflexivity. Qed.

(** A plain id without the marker, and a marker followed by text outside
    the namespace, are no tokens. *)
Example plain_ids_are_no_tokens :
  (_is_encrypted_response_id "chatcmpl-42" Sample.world_with_key
   = (Ok false, Sample.world_with_key)
   /\ _decrypt_response_id "chatcmpl-42" Sample.world_with_key
      = (Ok ("chatcmpl-42", None, None), Sample.world_with_key))
  /\ (_is_encrypted_response_id "resp_garbage" Sample.world_with_key
      = (Ok false, record_event (EvDecrypt "garbage") Sample.world_with_key)
      /\ _decrypt_response_id "resp_garbage" Sample.world_with_key
         = (Ok ("resp_garbage", None, None),
            record_event (EvDecrypt "garbage") Sample.world_with_key)).
Proof. repeat split; reflexivity. Qed.

(** A token tagged for a creator without ids resolves for any caller. *)
Lemma empty_owner_never_denied_witness :
  exists response' rid',
    fst (_encrypt_response_id Sample.response_abc Sample.anonymous
           Sample.world_with_key) = Ok response'
    /\ _get_primary_response_id response'
       = Some ("resp_" +:+ encrypt_value (payload_of Sample.anonymous "resp_abc123"))
    /\ fst (_decrypt_response_id
              ("resp_" +:+ encrypt_value (payload_of Sample.anonymous "resp_abc123"))
              Sample.world_with_key)
       = Ok (rid', Some "", Some "")
    /\ fst (_resolve_encrypted_response_id
              ("resp_" +:+ encrypt_value (payload_of Sample.anonymous "resp_abc123"))
              Sample.bob Sample.world_with_key)
       = Ok (Some rid').
Proof.
  apply (proj2 (empty_owner_never_denied Sample.bob Sample.world_with_key)
           Sample.anonymous Sample.response_abc "resp_abc123" Sample.world_with_key);
    vm_compute; reflexivity.
Defined.

(** C10 as stated fails: a plaintext id that holds the delimiter makes
    the token of a creator without ids decode to a constrained owner, and
    another caller is denied. *)
Lemma delimiter_in_id_constrains_owner :
  user_id Sample.anonymous = None /\ team_id Sample.anonymous = None
  /\ fst (_encrypt_response_id
            (mkResponseObject ClsResponsesAPIResponse
               (PyStr "resp_x;user_id:u9;team_id:t9") RespNone ∅)
            Sample.anonymous Sample.world_with_key)
     = Ok (mkResponseObject ClsResponsesAPIResponse
             (PyStr ("resp_" +:+ encrypt_value
                       (payload_of Sample.anonymous "resp_x;user_id:u9;team_id:t9")))
             RespNone ∅)
  /\ fst (_decrypt_response_id
            ("resp_" +:+ encrypt_value
               (payload_of Sample.anonymous "resp_x;user_id:u9;team_id:t9"))
            Sample.world_with_key)
     = Ok ("resp_x", Some "u9", Some "t9")
  /\ fst (_resolve_encrypted_response_id
            ("resp_" +:+ encrypt_value
               (payload_of Sample.anonymous "resp_x;user_id:u9;team_id:t9"))
            Sample.alice Sample.world_with_key)
     = Raise (HTTPException 403 USER_MISMATCH_DETAIL).
Proof. repeat split; vm_compute; reflexivity. Qed.

(** The round trip also fails on a plaintext id that holds a field
    label ... *)
Example roundtrip_fails_on_label :
  fst (_decrypt_response_id
         ("resp_" +:+ encrypt_value (payload_of Sample.alice "resp_response_id:7"))
         Sample.world_with_key)
  = Ok ("7", Some "u1", Some "t1").
Proof. vm_compute. reflexivity. Qed.

(** ... and on a ciphertext in which the marker occurs: the decoder cuts
    it at that occurrence. *)
Example roundtrip_fails_on_marker_in_ciphertext :
  let creator := mkUserAPIKeyAuth (Some "u1") (Some "sdrq^") None None in
  Str.contains "resp_" (encrypt_value (payload_of creator "resp_abc123")) = true
  /\ fst (_is_encrypted_response_id
            ("resp_" +:+ encrypt_value (payload_of creator "resp_abc123"))
            Sample.world_with_key) = Ok true
  /\ fst (_decrypt_response_id
            ("resp_" +:+ encrypt_value (payload_of creator "resp_abc123"))
            Sample.world_with_key)
     = Ok ("resp_abc123", Some "u1", Some "").
Proof. repeat split; vm_compute; reflexivity. Qed.

(** The scenarios of section 8. *)
Example access_same_user :
  fst (check_user_access_to_response_id (Some "u1") None Sample.alice
         Sample.world_with_key) = Ok true.
Proof. reflexivity. Qed.

Example access_other_user_denied :
  fst (check_user_access_to_response_id (Some "u1") None Sample.bob
         Sample.world_with_key)
  = Raise (HTTPException 403 USER_MISMATCH_DETAIL).
Proof. reflexivity. Qed.

Example access_admin_allowed :
  fst (check_user_access_to_response_id (Some "u1") (Some "t7")
         (mkUserAPIKeyAuth (Some "u2") (Some "t1") (Some (RoleValue "proxy_admin")) None)
         Sample.world_with_key) = Ok true.
Proof. reflexivity. Qed.

Example access_security_disabled :
  fst (check_user_access_to_response_id (Some "u1") None Sample.bob
         Sample.world_security_disabled) = Ok true.
Proof. reflexivity. Qed.

Example access_team_mismatch_denied :
  fst (check_user_access_to_response_id (Some "u1") (Some "t2") Sample.alice
         Sample.world_with_key)
  = Raise (HTTPException 403 TEAM_MISMATCH_DETAIL).
Proof. reflexivity. Qed.

Example scenario_other_user_denied :
  fst (async_pre_call_hook Sample.bob
         {["previous_response_id" :=
             "resp_" +:+ encrypt_value (payload_of Sample.alice "resp_abc123")]}
         "aresponses" Sample.world_with_key)
  = Raise (HTTPException 403 USER_MISMATCH_DETAIL).
Proof. vm_compute. reflexivity. Qed.

Example scenario_admin_resolves :
  fst (async_pre_call_hook
         (mkUserAPIKeyAuth (Some "u1") None (Some (RoleMember PROXY_ADMIN)) None)
         {["previous_response_id" :=
             "resp_" +:+ encrypt_value (payload_of Sample.alice "resp_abc123")]}
         "aresponses" Sample.world_with_key)
  = Ok (Some {["previous_response_id" := "resp_abc123"]}).
Proof. vm_compute. reflexivity. Qed.

(** A stream of three chunks, the second without identifier: the first
    and the third are tagged and recorded, in that order. *)
Example scenario_stream :
  let plain := mkResponseObject ClsBaseLiteLLMOpenAIResponseObject PyNone RespNone ∅ in
  let created := mkResponseObject ClsBaseLiteLLMOpenAIResponseObject PyNone
                   (RespObj (mkResponsesAPIResponse "resp_abc123" ∅)) ∅ in
  let token := "resp_" +:+ encrypt_value (payload_of Sample.alice "resp_abc123") in
  let run := async_post_call_streaming_iterator_hook Sample.alice
               [Sample.response_abc; plain; created] ∅ Sample.world_with_key in
  fst run
  = Ok [setattr_id Sample.response_abc (PyStr token); plain;
        setattr_response created (mkResponsesAPIResponse token ∅)]
  /\ filter (fun e => is_cache_set e = true) (trace (snd run))
     = [EvCacheSet (RESPONSE_ID_SECURITY_CACHE_PREFIX +:+ token)
          (<["response_id" := Some "resp_abc123"]>
             (<["user_id" := Some "u1"]> (<["team_id" := Some "t1"]> ∅)))
          86400;
        EvCacheSet (RESPONSE_ID_SECURITY_CACHE_PREFIX +:+ token)
          (<["response_id" := Some "resp_abc123"]>
             (<["user_id" := Some "u1"]> (<["team_id" := Some "t1"]> ∅)))
          86400].
Proof. split; vm_compute; reflexivity. Qed.

(** A cache whose transport is down changes nothing for the caller. *)
Example broken_cache_lookup_is_absent :
  fst (_get_cached_response_id_mapping (Ca := Sample.broken_cache) "resp_unknown"
         Sample.world_broken_cache) = Ok None.
Proof. reflexivity. Qed.

Example broken_cache_record_is_swallowed :
  fst (async_post_call_success_hook (Ca := Sample.broken_cache) ∅ Sample.alice
         Sample.response_abc Sample.world_broken_cache)
  = Ok (setattr_id Sample.response_abc
          (PyStr ("resp_" +:+ encrypt_value (payload_of Sample.alice "resp_abc123")))).
Proof. vm_compute. reflexivity. Qed.

End Runs.

(** * Properties beyond the claims *)

(** ** How the calls change the world *)

Section Worlds.
Context {Cr : Crypto} {C : Type} {Ca : DualCache C}.
Import Str StrFacts.

Local Arguments split : simpl never.
Local Arguments startswith : simpl never.

Lemma grows_by_refl (P : Event -> bool) (w : World C) : grows_by P w w.
Proof. now exists []. Qed.

Lemma grows_by_trans (P : Event -> bool) (w1 w2 w3 : World C) :
  grows_by P w1 w2 -> grows_by P w2 w3 -> grows_by P w1 w3.
Proof.
  intros (evs1 & Ht1 & Hn1) (evs2 & Ht2 & Hn2). exists (evs2 ++ evs1).
  split; [now rewrite Ht2, Ht1, app_assoc |].
  now rewrite forallb_app, Hn1, Hn2.
Qed.

Lemma grows_by_event (P : Event -> bool) (e : Event) (w : World C) :
  P e = true -> grows_by P w (record_event e w).
Proof. intros He. exists [e]. split; [reflexivity |]. simpl. now rewrite He. Qed.

Lemma grows_by_weaken (P Q : Event -> bool) (w w' : World C) :
  (forall e, P e = true -> Q e = true) -> grows_by P w w' -> grows_by Q w w'.
Proof.
  intros HPQ (evs & Ht & Hn). exists evs. split; [exact Ht |].
  apply forallb_forall. intros e He.
  apply HPQ. rewrite forallb_forall in Hn. now apply Hn.
Qed.

(** The access check decides by [authorize], keeps settings and cache,
    and traces only its own call and a debug line. *)
Lemma check_user_access_world (owner_user owner_team : option string)
    (caller : UserAPIKeyAuth) (w : World C) :
  exists w',
    check_user_access_to_response_id owner_user owner_team caller w
    = (surfaced (authorize (disable_responses_id_security w)
                   (mkOwnerTag owner_user owner_team) caller), w')
    /\ same_settings w w'
    /\ internal_usage_cache w' = internal_usage_cache w
    /\ grows_by (fun e => match e with
                          | EvCheckAccess _ _ _ | EvDebug _ => true
                          | _ => false
                          end) w w'.
Proof.
  pose proof (check_user_access_run w owner_user owner_team caller) as Hrun.
  destruct (check_user_access_to_response_id owner_user owner_team caller w)
    as [r w'] eqn:Hc.
  cbn [fst] in Hrun. subst r. exists w'. split; [reflexivity |].
  revert Hc.
  unfold check_user_access_to_response_id, bind, emit, gets, ret, raise,
    verbose_proxy_logger_debug.
  destruct (_ || _).
  { intros [= _ <-]. split; [apply same_settings_event |].
    split; [reflexivity | now apply grows_by_event]. }
  destruct (_ && _).
  { cbn [record_event disable_responses_id_security].
    destruct (disable_responses_id_security w); intros [= _ <-].
    - split; [now repeat split |]. split; [reflexivity |].
      now eexists [_; _].
    - split; [apply same_settings_event |].
      split; [reflexivity | now apply grows_by_event]. }
  destruct (_ && _).
  { cbn [record_event disable_responses_id_security].
    destruct (disable_responses_id_security w); intros [= _ <-].
    - split; [now repeat split |]. split; [reflexivity |].
      now eexists [_; _].
    - split; [apply same_settings_event |].
      split; [reflexivity | now apply grows_by_event]. }
  intros [= _ <-]. split; [apply same_settings_event |].
  split; [reflexivity | now apply grows_by_event].
Qed.

(** Recognising and decoding trace at most one decryption each. *)
Lemma decrypt_cases (rid : string) (w : World C) :
  (exists r, _decrypt_response_id rid w = (r, w))
  \/ exists rem r,
       _decrypt_response_id rid w = (r, record_event (EvDecrypt rem) w).
Proof.
  destruct (contains "resp_" rid) eqn:Hc.
  2: { left. eexists. now apply decrypt_no_marker. }
  right. destruct (second_piece_present _ Hc) as [rem Hrem]. exists rem.
  destruct (startswith (decrypted_or_original rem) LITELM_MANAGED_FILE_ID_PREFIX)
    eqn:Hp.
  2: { eexists. now apply decrypt_marker_outside. }
  eexists. now apply decrypt_marker_inside.
Qed.

Lemma get_cached_settings (rid : string) (w : World C) :
  same_settings w (snd (_get_cached_response_id_mapping rid w)).
Proof.
  rewrite get_cached_run. destruct (internal_usage_cache w) as [c|].
  - cbv zeta. destruct (fst (async_get_cache c _)); now repeat split.
  - apply same_settings_refl.
Qed.

Lemma get_cached_grows (rid : string) (w : World C) :
  grows_by (fun e => match e with
                     | EvCacheGet _ | EvDebug _ => true
                     | _ => false
                     end) w (snd (_get_cached_response_id_mapping rid w)).
Proof.
  rewrite get_cached_run. destruct (internal_usage_cache w) as [c|].
  - cbv zeta. destruct (fst (async_get_cache c _)).
    + now eexists [_].
    + now eexists [_; _].
  - apply grows_by_refl.
Qed.

End Worlds.

(** ** The pre-call hook on arbitrary requests *)

Section PreCallHook.
Context {Cr : Crypto} {C : Type} {Ca : DualCache C}.
Import Str StrFacts.

Local Arguments split : simpl never.
Local Arguments startswith : simpl never.

Lemma identifier_field_member (call_type : string) :
  call_type ∈ responses_api_call_types <->
  exists field, identifier_field call_type = Some field.
Proof.
  unfold responses_api_call_types, identifier_field.
  rewrite !elem_of_union, !elem_of_singleton.
  destruct (String.eqb call_type "aresponses") eqn:E1.
  { apply String.eqb_eq in E1. split; [eauto | tauto]. }
  destruct (String.eqb call_type "aget_responses") eqn:E2.
  { apply String.eqb_eq in E2. split; [eauto | tauto]. }
  destruct (String.eqb call_type "adelete_responses") eqn:E3.
  { apply String.eqb_eq in E3. split; [eauto | tauto]. }
  destruct (String.eqb call_type "acancel_responses") eqn:E4.
  { apply String.eqb_eq in E4. split; [eauto | tauto]. }
  apply String.eqb_neq in E1, E2, E3, E4.
  split; [tauto | intros [f Hf]; discriminate].
Qed.

Lemma identifier_field_foreign (call_type : string) :
  call_type ∉ responses_api_call_types <-> identifier_field call_type = None.
Proof.
  rewrite identifier_field_member.
  destruct (identifier_field call_type) as [f|].
  - split; [intros Hn; exfalso; apply Hn; eauto | discriminate].
  - split; [reflexivity | intros _ [f Hf]; discriminate].
Qed.

(** The hook, in terms of the resolution of the identifier it finds. *)
Lemma pre_call_hook_cases (caller : UserAPIKeyAuth) (data : gmap string string)
    (call_type field : string) (w : World C) :
  identifier_field call_type = Some field ->
  async_pre_call_hook caller data call_type w
  = match data !! field with
    | Some (String c s as rid) =>
        match _resolve_encrypted_response_id rid caller w with
        | (Ok (Some resolved), w1) => (Ok (Some (<[field := resolved]> data)), w1)
        | (Ok None, w1) => (Ok (Some data), w1)
        | (Raise e, w1) => (Raise e, w1)
        end
    | _ => (Ok (Some data), w)
    end.
Proof.
  intros Hf. destruct (data !! field) as [rid|] eqn:Hd.
  - rewrite (pre_call_hook_run _ _ _ _ _ _ Hf Hd). now destruct rid.
  - rewrite (pre_call_hook_field _ _ _ _ Hf).
    unfold bind at 1, resolve_field. now rewrite Hd.
Qed.

(** X1. The hook returns [None], with nothing decrypted, looked up or
    checked, for every call type outside the four of the responses API,
    and for those four it never returns [None]. *)
Theorem pre_call_hook_none_iff_foreign (caller : UserAPIKeyAuth)
    (data : gmap string string) (call_type : string) (w : World C) :
  (call_type ∉ responses_api_call_types ->
     async_pre_call_hook caller data call_type w = (Ok None, w))
  /\ (call_type ∈ responses_api_call_types ->
        fst (async_pre_call_hook caller data call_type w) <> Ok None).
Proof.
  split.
  - intros Hn. apply pre_call_hook_other. now apply identifier_field_foreign.
  - intros Hin. apply identifier_field_member in Hin as [field Hf].
    rewrite (pre_call_hook_cases _ _ _ _ _ Hf).
    destruct (data !! field) as [[|c s]|]; try discriminate.
    destruct (_resolve_encrypted_response_id (String c s) caller w)
      as [[[r|]|e] w1]; discriminate.
Qed.

(** X2. A request that the hook lets through differs from the one it
    was given at most in the identifier field of its call type: that
    field was present and non-empty if it was rewritten, and every other
    field is as it was. *)
Theorem pre_call_hook_frame (caller : UserAPIKeyAuth)
    (data data' : gmap string string) (call_type : string) (w : World C) :
  fst (async_pre_call_hook caller data call_type w) = Ok (Some data') ->
  exists field,
    identifier_field call_type = Some field
    /\ (data' = data
        \/ exists rid resolved,
             data !! field = Some rid /\ rid <> ""
             /\ fst (_resolve_encrypted_response_id rid caller w) = Ok (Some resolved)
             /\ data' = <[field := resolved]> data)
    /\ forall k, k <> field -> data' !! k = data !! k.
Proof.
  intros Hrun. destruct (identifier_field call_type) as [field|] eqn:Hf.
  2: { rewrite pre_call_hook_other in Hrun by assumption. discriminate. }
  exists field. split; [reflexivity |].
  rewrite (pre_call_hook_cases _ _ _ _ _ Hf) in Hrun.
  assert (Hgoal : data' = data
                  \/ exists rid resolved,
                       data !! field = Some rid /\ rid <> ""
                       /\ fst (_resolve_encrypted_response_id rid caller w)
                          = Ok (Some resolved)
                       /\ data' = <[field := resolved]> data).
  { destruct (data !! field) as [[|c s]|] eqn:Hd;
      try (injection Hrun as <-; now left).
    destruct (_resolve_encrypted_response_id (String c s) caller w)
      as [[[r|]|e] w1] eqn:Hr; cbn [fst] in Hrun; try discriminate.
    - injection Hrun as <-. right. exists (String c s), r.
      split; [reflexivity |]. split; [discriminate |].
      split; [now rewrite Hr | reflexivity].
    - injection Hrun as <-. now left. }
  split; [exact Hgoal |].
  intros k Hk. destruct Hgoal as [-> | (rid & r & _ & _ & _ & ->)]; [reflexivity |].
  now apply lookup_insert_ne.
Qed.

(** X3. When the identifier field of the call type is missing from the
    request or holds the empty string, the hook returns the request as
    it is and leaves the world as it is: nothing is decrypted, looked up
    or checked. *)
Theorem pre_call_hook_without_identifier (caller : UserAPIKeyAuth)
    (data : gmap string string) (call_type field : string) (w : World C) :
  identifier_field call_type = Some field ->
  data !! field = None \/ data !! field = Some "" ->
  async_pre_call_hook caller data call_type w = (Ok (Some data), w).
Proof.
  intros Hf Hd. rewrite (pre_call_hook_cases _ _ _ _ _ Hf).
  now destruct Hd as [-> | ->].
Qed.

End PreCallHook.

(** ** From tagging to resolution: who may reuse a token *)

Section Isolation.
Context {Cr : Crypto} {C : Type} {Ca : DualCache C}.
Import Str StrFacts.

Local Arguments split : simpl never.
Local Arguments startswith : simpl never.

Lemma authorize_creator (disabled : bool) (creator : UserAPIKeyAuth) :
  authorize disabled (owner_of creator) creator = Allow.
Proof.
  unfold authorize, owner_of. cbn [userId teamId].
  destruct (is_admin creator); [reflexivity |].
  assert (Hf : forall x : option string,
             is_set (Some (or_empty x)) && negb (bool_decide (Some (or_empty x) = x))
             = false).
  { intros [[|c s]|]; try reflexivity.
    cbn [or_empty]. rewrite bool_decide_eq_true_2 by reflexivity.
    apply andb_false_r. }
  now rewrite !Hf.
Qed.

Lemma authorize_bypass (disabled : bool) (owner : OwnerTag) (caller : UserAPIKeyAuth) :
  is_admin caller = true \/ disabled = true ->
  authorize disabled owner caller = Allow.
Proof.
  unfold authorize. intros [-> | ->]; [reflexivity |].
  destruct (is_admin caller); [reflexivity |].
  destruct (_ && _); [reflexivity |]. now destruct (_ && _).
Qed.

Lemma is_set_or_empty (x : option string) :
  is_set x = true -> Some (or_empty x) = x /\ is_set (Some (or_empty x)) = true.
Proof. destruct x as [[|c s]|]; simpl; try discriminate. now split. Qed.

Lemma authorize_other_user (creator caller : UserAPIKeyAuth) :
  is_admin caller = false ->
  is_set (user_id creator) = true ->
  user_id caller <> user_id creator ->
  authorize false (owner_of creator) caller = Deny UserMismatch.
Proof.
  intros Ha Hs Hne. unfold authorize, owner_of. cbn [userId teamId]. rewrite Ha.
  destruct (is_set_or_empty _ Hs) as [-> ->].
  rewrite bool_decide_eq_false_2 by congruence. reflexivity.
Qed.

Lemma authorize_other_team (creator caller : UserAPIKeyAuth) :
  is_admin caller = false ->
  is_set (user_id creator) = false \/ user_id caller = user_id creator ->
  is_set (team_id creator) = true ->
  team_id caller <> team_id creator ->
  authorize false (owner_of creator) caller = Deny TeamMismatch.
Proof.
  intros Ha Hu Hs Hne. unfold authorize, owner_of. cbn [userId teamId]. rewrite Ha.
  assert (Hf : is_set (Some (or_empty (user_id creator)))
               && negb (bool_decide (Some (or_empty (user_id creator)) = user_id caller))
               = false).
  { destruct (is_set (user_id creator)) eqn:Hsu.
    - destruct Hu as [Hu | Hu]; [discriminate |].
      destruct (is_set_or_empty _ Hsu) as [-> _].
      rewrite bool_decide_eq_true_2 by congruence. apply andb_false_r.
    - now rewrite (or_empty_unset _ Hsu). }
  rewrite Hf. destruct (is_set_or_empty _ Hs) as [-> ->].
  rewrite bool_decide_eq_false_2 by congruence. reflexivity.
Qed.

(** Resolving a token of this layer: the decoded owner is checked and the
    plaintext id comes back when the check passes. *)
Lemma resolve_tagged (creator caller : UserAPIKeyAuth) (rid : string) (w : World C) :
  codec_recovers creator rid ->
  fst (_resolve_encrypted_response_id (token_of creator rid) caller w)
  = match surfaced (authorize (disable_responses_id_security w)
                      (owner_of creator) caller) with
    | Ok _ => Ok (Some rid)
    | Raise e => Raise e
    end.
Proof.
  intros (Hr1 & Hr2 & Hu1 & Hu2 & Ht1 & Ht2 & Hd & Hc).
  rewrite resolve_run. unfold token_of.
  destruct (decrypt_tagged rid _ _ _ w Hr1 Hr2 Hu1 Hu2 Ht1 Ht2 Hc Hd) as [E _].
  rewrite E.
  destruct (decrypt_tagged rid _ _ _
              (record_event (EvDecrypt (encrypt_value (payload_of creator rid))) w)
              Hr1 Hr2 Hu1 Hu2 Ht1 Ht2 Hc Hd) as [_ D].
  rewrite D.
  destruct (check_user_access_world (Some (or_empty (user_id creator)))
              (Some (or_empty (team_id creator))) caller
              (record_event (EvDecrypt (encrypt_value (payload_of creator rid)))
                 (record_event (EvDecrypt (encrypt_value (payload_of creator rid))) w)))
    as (w3 & Hk & _).
  rewrite Hk. cbn [record_event disable_responses_id_security]. unfold owner_of.
  now destruct (surfaced _).
Qed.

Lemma pre_call_hook_tagged (creator caller : UserAPIKeyAuth)
    (data : gmap string string) (call_type field rid : string) (w : World C) :
  codec_recovers creator rid ->
  identifier_field call_type = Some field ->
  data !! field = Some (token_of creator rid) ->
  fst (async_pre_call_hook caller data call_type w)
  = match surfaced (authorize (disable_responses_id_security w)
                      (owner_of creator) caller) with
    | Ok _ => Ok (Some (<[field := rid]> data))
    | Raise e => Raise e
    end.
Proof.
  intros Hcodec Hf Hd.
  pose proof (resolve_tagged creator caller rid w Hcodec) as Hr.
  rewrite (pre_call_hook_cases _ _ _ _ _ Hf), Hd.
  unfold token_of in Hr |- *. rewrite append_cons.
  rewrite append_cons in Hr.
  destruct (_resolve_encrypted_response_id _ caller w) as [r w1].
  cbn [fst] in Hr. subst r. now destruct (surfaced _).
Qed.

(** What the outbound hook returns is what tagging returns. *)
Lemma encrypt_and_cache_result (response : ResponseObject)
    (caller : UserAPIKeyAuth) (w : World C) :
  fst (encrypt_and_cache response caller w)
  = fst (_encrypt_response_id response caller w).
Proof.
  destruct (encrypt_returns response caller w) as (r' & w1 & Hrun & _).
  unfold encrypt_and_cache, bind at 1. rewrite Hrun.
  destruct (_ && _ && _); [|reflexivity].
  unfold bind.
  pose proof (cache_mapping_never_raises
                (or_empty (_get_primary_response_id r'))
                (or_empty (_get_primary_response_id response)) caller w1) as Hok.
  destruct (_cache_response_id_mapping _ _ caller w1) as [r w2].
  cbn [fst] in Hok. now subst r.
Qed.

Lemma success_hook_tags (data : gmap string string) (creator : UserAPIKeyAuth)
    (response : ResponseObject) (rid : string) (w : World C) :
  signing_key_configured w = true ->
  disable_responses_id_security w = false ->
  cls response = ClsResponsesAPIResponse ->
  _get_primary_response_id response = Some rid ->
  exists response',
    fst (async_post_call_success_hook data creator response w) = Ok response'
    /\ same_chunk response response'
    /\ _get_primary_response_id response' = Some (token_of creator rid).
Proof.
  intros Hk Hd Hcls Hp.
  destruct (encrypt_primary response creator rid w Hk Hp) as (r' & Hrun & Hs & Hp').
  exists r'. unfold async_post_call_success_hook, bind at 1, gets.
  rewrite Hd, Hcls, encrypt_and_cache_result, Hrun. auto.
Qed.

(** X4. A response tagged by the outbound hook for its creator carries a
    token that the pre-call hook resolves, for that same creator, back to
    the plaintext id: the request goes on with the identifier field
    holding the id the provider issued. *)
Theorem creator_reuses_own_token (creator : UserAPIKeyAuth)
    (response : ResponseObject) (rid : string)
    (data0 data : gmap string string) (call_type field : string)
    (w0 w : World C) :
  signing_key_configured w0 = true ->
  disable_responses_id_security w0 = false ->
  cls response = ClsResponsesAPIResponse ->
  _get_primary_response_id response = Some rid ->
  codec_recovers creator rid ->
  identifier_field call_type = Some field ->
  data !! field = Some (token_of creator rid) ->
  (exists response',
     fst (async_post_call_success_hook data0 creator response w0) = Ok response'
     /\ _get_primary_response_id response' = Some (token_of creator rid))
  /\ fst (async_pre_call_hook creator data call_type w)
     = Ok (Some (<[field := rid]> data)).
Proof.
  intros Hk Hdis Hcls Hp Hcodec Hf Hd. split.
  - destruct (success_hook_tags data0 creator response rid w0 Hk Hdis Hcls Hp)
      as (r' & Hrun & _ & Hp').
    eauto.
  - rewrite (pre_call_hook_tagged creator creator data call_type field rid w
               Hcodec Hf Hd).
    now rewrite authorize_creator.
Qed.

(** X5. A token tagged for a creator with a user id, and from which the
    codec recovers what was tagged ([codec_recovers]: no field holds the
    delimiter or its own label, the ciphertext decrypts to the payload
    and holds no marker), is refused to every caller with another user id
    who is not an admin, as long as security is not disabled: the hook
    raises the 403 that names the user. *)
Theorem other_user_is_denied (creator caller : UserAPIKeyAuth)
    (data : gmap string string) (call_type field rid : string) (w : World C) :
  codec_recovers creator rid ->
  identifier_field call_type = Some field ->
  data !! field = Some (token_of creator rid) ->
  disable_responses_id_security w = false ->
  is_admin caller = false ->
  is_set (user_id creator) = true ->
  user_id caller <> user_id creator ->
  fst (async_pre_call_hook caller data call_type w)
  = Raise (HTTPException 403 USER_MISMATCH_DETAIL).
Proof.
  intros Hcodec Hf Hd Hdis Ha Hs Hne.
  rewrite (pre_call_hook_tagged creator caller data call_type field rid w
             Hcodec Hf Hd), Hdis.
  now rewrite authorize_other_user.
Qed.

(** X6. When the user ids do not decide (the creator had none, or the
    caller has the same), a token tagged for a creator with a team id,
    and from which the codec recovers what was tagged ([codec_recovers]),
    is refused to every non-admin caller of another team, as long as
    security is not disabled: the hook raises the 403 that names the
    team. *)
Theorem other_team_is_denied (creator caller : UserAPIKeyAuth)
    (data : gmap string string) (call_type field rid : string) (w : World C) :
  codec_recovers creator rid ->
  identifier_field call_type = Some field ->
  data !! field = Some (token_of creator rid) ->
  disable_responses_id_security w = false ->
  is_admin caller = false ->
  is_set (user_id creator) = false \/ user_id caller = user_id creator ->
  is_set (team_id creator) = true ->
  team_id caller <> team_id creator ->
  fst (async_pre_call_hook caller data call_type w)
  = Raise (HTTPException 403 TEAM_MISMATCH_DETAIL).
Proof.
  intros Hcodec Hf Hd Hdis Ha Hu Hs Hne.
  rewrite (pre_call_hook_tagged creator caller data call_type field rid w
             Hcodec Hf Hd), Hdis.
  now rewrite authorize_other_team.
Qed.

(** X7. An admin, and any caller once security is disabled, resolves the
    token of any creator to its plaintext id, provided the codec recovers
    from the token what was tagged ([codec_recovers]). *)
Theorem admin_or_disabled_resolves_any_token (creator caller : UserAPIKeyAuth)
    (data : gmap string string) (call_type field rid : string) (w : World C) :
  codec_recovers creator rid ->
  identifier_field call_type = Some field ->
  data !! field = Some (token_of creator rid) ->
  is_admin caller = true \/ disable_responses_id_security w = true ->
  fst (async_pre_call_hook caller data call_type w)
  = Ok (Some (<[field := rid]> data)).
Proof.
  intros Hcodec Hf Hd Hby.
  rewrite (pre_call_hook_tagged creator caller data call_type field rid w
             Hcodec Hf Hd).
  now rewrite authorize_bypass.
Qed.

End Isolation.

(** ** The cache path of resolution *)

Section CachePath.
Context {Cr : Crypto} {C : Type} {Ca : DualCache C}.
Import Str StrFacts.

Local Arguments split : simpl never.
Local Arguments startswith : simpl never.

Lemma mapping_of_fields (caller : UserAPIKeyAuth) (rid : string) :
  mapping_get (mapping_of caller rid) "response_id" = Some rid
  /\ mapping_get (mapping_of caller rid) "user_id" = user_id caller
  /\ mapping_get (mapping_of caller rid) "team_id" = team_id caller.
Proof.
  unfold mapping_get, mapping_of. split; [|split]; reflexivity.
Qed.

(** The world after a successful record. *)
Lemma cache_mapping_world (tok rid : string) (caller : UserAPIKeyAuth)
    (cache cache' : C) (w : World C) :
  internal_usage_cache w = Some cache ->
  async_set_cache cache (RESPONSE_ID_SECURITY_CACHE_PREFIX +:+ tok)
    (mapping_of caller rid) RESPONSE_ID_SECURITY_CACHE_TTL_SECONDS = (Ok tt, cache') ->
  _cache_response_id_mapping tok rid caller w
  = (Ok tt,
     mkWorld (Some cache') (LITELLM_SALT_KEY w) (master_key w)
       (disable_responses_id_security w)
       (EvCacheSet (RESPONSE_ID_SECURITY_CACHE_PREFIX +:+ tok)
          (mapping_of caller rid) RESPONSE_ID_SECURITY_CACHE_TTL_SECONDS
          :: trace w)).
Proof.
  intros Hc Hs. rewrite cache_mapping_run, Hc. cbv zeta.
  fold (mapping_of caller rid). now rewrite Hs.
Qed.

(** X8. A mapping recorded for a token is the one a later lookup of that
    token reads, whenever the cache accepts the write and returns what
    was written: both accessors derive the same key, and the entry holds
    the plaintext id and the caller's user id and team id as they are. *)
Theorem record_then_lookup (tok rid : string) (caller : UserAPIKeyAuth)
    (cache cache' cache'' : C) (w : World C) :
  internal_usage_cache w = Some cache ->
  async_set_cache cache (RESPONSE_ID_SECURITY_CACHE_PREFIX +:+ tok)
    (mapping_of caller rid) RESPONSE_ID_SECURITY_CACHE_TTL_SECONDS = (Ok tt, cache') ->
  async_get_cache cache' (RESPONSE_ID_SECURITY_CACHE_PREFIX +:+ tok)
  = (Ok (Some (mapping_of caller rid)), cache'') ->
  exists m,
    fst (_get_cached_response_id_mapping tok
           (snd (_cache_response_id_mapping tok rid caller w))) = Ok (Some m)
    /\ mapping_get m "response_id" = Some rid
    /\ mapping_get m "user_id" = user_id caller
    /\ mapping_get m "team_id" = team_id caller.
Proof.
  intros Hc Hs Hg. exists (mapping_of caller rid).
  rewrite (cache_mapping_world _ _ _ _ _ _ Hc Hs). cbn [snd].
  rewrite get_cached_run. cbn [internal_usage_cache]. cbv zeta.
  rewrite Hg. cbn [fst]. split; [reflexivity | apply mapping_of_fields].
Qed.

(** The cache path from the lookup on, in a world with the settings of
    [w]. *)
Lemma resolve_from_entry (rid : string) (caller : UserAPIKeyAuth)
    (m : gmap string (option string)) (w w1 : World C) :
  same_settings w w1 ->
  fst (_get_cached_response_id_mapping rid w1) = Ok (Some m) ->
  fst (match _get_cached_response_id_mapping rid w1 with
       | (Ok (Some m0), w2) =>
           match check_user_access_to_response_id
                   (mapping_get m0 "user_id") (mapping_get m0 "team_id")
                   caller w2 with
           | (Ok _, w3) => (Ok (mapping_get m0 "response_id"), w3)
           | (Raise e, w3) => (Raise e, w3)
           end
       | (Ok None, w2) => (Ok None, w2)
       | (Raise e, w2) => (Raise e, w2)
       end)
  = match surfaced (authorize (disable_responses_id_security w)
                      (mkOwnerTag (mapping_get m "user_id")
                         (mapping_get m "team_id")) caller) with
    | Ok _ => Ok (mapping_get m "response_id")
    | Raise e => Raise e
    end.
Proof.
  intros Hset Hl1.
  pose proof (get_cached_settings rid w1) as Hset2.
  destruct (_get_cached_response_id_mapping rid w1) as [r w2].
  cbn [fst snd] in Hl1, Hset2. subst r.
  destruct (check_user_access_world (mapping_get m "user_id")
              (mapping_get m "team_id") caller w2) as (w3 & Hk & _).
  rewrite Hk. clear Hk.
  destruct (same_settings_trans _ _ _ Hset Hset2) as (_ & _ & ->).
  destruct (surfaced _); reflexivity.
Qed.

(** Resolution through an entry of the cache. *)
Lemma resolve_cached (rid : string) (caller : UserAPIKeyAuth)
    (m : gmap string (option string)) (w : World C) :
  fst (_is_encrypted_response_id rid w) = Ok false ->
  fst (_get_cached_response_id_mapping rid w) = Ok (Some m) ->
  fst (_resolve_encrypted_response_id rid caller w)
  = match surfaced (authorize (disable_responses_id_security w)
                      (mkOwnerTag (mapping_get m "user_id") (mapping_get m "team_id"))
                      caller) with
    | Ok _ => Ok (mapping_get m "response_id")
    | Raise e => Raise e
    end.
Proof.
  intros He Hl. rewrite resolve_run.
  destruct (is_encrypted_cases rid w) as [E | (rem & b & E)];
    rewrite E in He |- *; cbn [fst] in He; [clear He | injection He as ->].
  - apply resolve_from_entry; [apply same_settings_refl | exact Hl].
  - apply resolve_from_entry; [apply same_settings_event |].
    now rewrite get_cached_after_event.
Qed.

(** X9. An identifier that is not recognised as a token but has an entry
    in the cache is resolved from that entry: the caller is checked
    against the entry's user id and team id, a denial is raised as for a
    token, and otherwise the entry's plaintext id is the result. *)
Theorem cached_entry_is_enforced (rid : string) (caller : UserAPIKeyAuth)
    (m : gmap string (option string)) (w : World C) :
  fst (_is_encrypted_response_id rid w) = Ok false ->
  fst (_get_cached_response_id_mapping rid w) = Ok (Some m) ->
  fst (_resolve_encrypted_response_id rid caller w)
  = match surfaced (authorize (disable_responses_id_security w)
                      (mkOwnerTag (mapping_get m "user_id") (mapping_get m "team_id"))
                      caller) with
    | Ok _ => Ok (mapping_get m "response_id")
    | Raise e => Raise e
    end.
Proof.
  intros He Hl. rewrite resolve_run.
  destruct (is_encrypted_cases rid w) as [E | (rem & b & E)].
  - rewrite E.
    apply resolve_from_entry; [apply same_settings_refl | exact Hl].
  - rewrite E in He |- *. cbn [fst] in He. injection He as ->.
    apply resolve_from_entry; [apply same_settings_event |].
    now rewrite get_cached_after_event.
Qed.

Lemma authorize_same (disabled : bool) (caller : UserAPIKeyAuth) :
  authorize disabled (mkOwnerTag (user_id caller) (team_id caller)) caller = Allow.
Proof.
  unfold authorize. cbn [userId teamId].
  destruct (is_admin caller); [reflexivity |].
  rewrite !bool_decide_eq_true_2 by reflexivity.
  now rewrite !andb_false_r.
Qed.

(** A string whose piece after the marker does not decrypt and lies
    outside the namespace is not recognised. *)
Lemma is_encrypted_undecodable (tok : string) (w : World C) :
  (forall rem,
      nth_error (split "resp_" tok) 1 = Some rem ->
      decrypt_value rem = None
      /\ startswith rem LITELM_MANAGED_FILE_ID_PREFIX = false) ->
  fst (_is_encrypted_response_id tok w) = Ok false.
Proof.
  intros Hu. destruct (contains "resp_" tok) eqn:Hc.
  - destruct (second_piece_present _ Hc) as [rem Hrem].
    destruct (Hu rem Hrem) as [Hd Hp].
    now rewrite (is_encrypted_marker _ _ w Hrem), (decrypted_or_original_none _ Hd), Hp.
  - now rewrite is_encrypted_no_marker.
Qed.

(** Whether a string is recognised does not depend on the world. *)
Lemma is_encrypted_any_world (tok : string) (w w' : World C) :
  fst (_is_encrypted_response_id tok w) = fst (_is_encrypted_response_id tok w').
Proof.
  destruct (contains "resp_" tok) eqn:Hc.
  - destruct (second_piece_present _ Hc) as [rem Hrem].
    now rewrite !(is_encrypted_marker _ _ _ Hrem).
  - now rewrite !is_encrypted_no_marker.
Qed.

(** X10. A token whose payload carries the namespace but no [;] at all
    is taken for a token without an owner: it resolves to itself for
    every caller, security enabled or not, and the request goes on
    unchanged. *)
Theorem bare_payload_resolves_to_itself (caller : UserAPIKeyAuth)
    (data : gmap string string) (call_type field token rem d : string)
    (w : World C) :
  identifier_field call_type = Some field ->
  data !! field = Some token ->
  nth_error (split "resp_" token) 1 = Some rem ->
  decrypt_value rem = Some d ->
  startswith d LITELM_MANAGED_FILE_ID_PREFIX = true ->
  contains ";" d = false ->
  fst (_resolve_encrypted_response_id token caller w) = Ok (Some token)
  /\ fst (async_pre_call_hook caller data call_type w) = Ok (Some data).
Proof.
  intros Hf Hdata Hrem Hd Hp Hc.
  assert (Hres : fst (_resolve_encrypted_response_id token caller w) = Ok (Some token)).
  { rewrite resolve_run, (is_encrypted_marker _ _ w Hrem),
      (decrypted_or_original_some _ _ Hd), Hp.
    rewrite (decrypt_marker_fields _ _ _ _ Hrem Hd Hp).
    rewrite split_absent by (discriminate || assumption).
    destruct (check_user_access_world None None caller
                (record_event (EvDecrypt rem) (record_event (EvDecrypt rem) w)))
      as (w3 & Hk & _).
    rewrite Hk. unfold authorize. cbn [userId teamId is_set andb].
    now destruct (is_admin caller). }
  split; [exact Hres |].
  rewrite (pre_call_hook_cases _ _ _ _ _ Hf), Hdata.
  destruct token as [|c token']; [discriminate |].
  destruct (_resolve_encrypted_response_id (String c token') caller w) as [r w1].
  cbn [fst] in Hres. subst r. cbn [fst].
  now rewrite insert_id.
Qed.

End CachePath.

(** ** The outbound hook and the cache *)

Section OutboundCache.
Context {Cr : Crypto} {C : Type} {Ca : DualCache C}.
Import Str StrFacts.

Local Arguments split : simpl never.
Local Arguments startswith : simpl never.

Lemma primary_id_truthy (response : ResponseObject) (rid : string) :
  _get_primary_response_id response = Some rid -> truthy (Some rid) = true.
Proof.
  unfold _get_primary_response_id.
  destruct (resp_id_str (attr_id response)) as [s|] eqn:Hid.
  - intros [= ->]. apply resp_id_str_Some in Hid as [_ Hs].
    destruct rid; [discriminate | reflexivity].
  - destruct (attr_response response) as [| |o]; try discriminate.
    destruct (resp_id_str (PyStr (rar_id o))) as [s|] eqn:Hn; [|discriminate].
    intros [= ->]. apply resp_id_str_Some in Hn as [_ Hs].
    destruct rid; [discriminate | reflexivity].
Qed.

(** When the primary id changes, the shared body records the mapping in
    the world that tagging left. *)
Lemma encrypt_and_cache_changed (response : ResponseObject)
    (caller : UserAPIKeyAuth) (rid : string) (w : World C) :
  signing_key_configured w = true ->
  _get_primary_response_id response = Some rid ->
  token_of caller rid <> rid ->
  snd (encrypt_and_cache response caller w)
  = snd (_cache_response_id_mapping (token_of caller rid) rid caller
           (record_event (EvEncrypt (payload_of caller rid)) w)).
Proof.
  intros Hk Hp Hne.
  destruct (encrypt_primary response caller rid w Hk Hp) as (r' & Hrun & _ & Hp').
  pose proof (primary_id_truthy _ _ Hp) as Hrid.
  assert (Htok : truthy (Some (token_of caller rid)) = true) by reflexivity.
  fold (token_of caller rid) in Hp'.
  unfold encrypt_and_cache, bind at 1. rewrite Hrun, Hp, Hp', Hrid, Htok.
  unfold opt_ne. rewrite bool_decide_eq_false_2 by congruence.
  cbn [andb negb or_empty]. unfold bind.
  pose proof (cache_mapping_never_raises (token_of caller rid) rid caller
                (record_event (EvEncrypt (payload_of caller rid)) w)) as Hok.
  destruct (_cache_response_id_mapping _ _ caller _) as [r w2].
  cbn [fst] in Hok. now subst r.
Qed.

(** When the primary id does not change, nothing is recorded. *)
Lemma encrypt_and_cache_unchanged (response : ResponseObject)
    (caller : UserAPIKeyAuth) (w : World C) :
  _get_primary_response_id response = None ->
  snd (encrypt_and_cache response caller w)
  = snd (_encrypt_response_id response caller w).
Proof.
  intros Hp.
  destruct (encrypt_returns response caller w) as (r' & w1 & Hrun & _).
  unfold encrypt_and_cache, bind at 1. now rewrite Hrun, Hp.
Qed.

(** X11. The outbound hook never raises, whatever the cache does: it
    returns the response it was given up to the identifier, and leaves
    the signing key and the security switch as they were. *)
Theorem success_hook_always_returns (data : gmap string string)
    (caller : UserAPIKeyAuth) (response : ResponseObject) (w : World C) :
  exists response' w',
    async_post_call_success_hook data caller response w = (Ok response', w')
    /\ same_chunk response response'
    /\ same_settings w w'.
Proof.
  unfold async_post_call_success_hook, bind at 1, gets.
  destruct (disable_responses_id_security w).
  { exists response, w. split; [reflexivity |].
    split; [now left | apply same_settings_refl]. }
  destruct (cls response);
    try (exists response, w; split; [reflexivity |];
         split; [now left | apply same_settings_refl]).
  destruct (encrypt_and_cache_returns response caller w)
    as (r' & w' & Hrun & Hs & _ & Hset).
  exists r', w'. auto.
Qed.

(** X12. When the outbound hook changes the primary id of a response
    and a cache is configured, it makes exactly one write to the cache:
    under the namespaced key of the token, the plaintext id with the
    caller's user id and team id, for 24 hours; and it reads nothing from
    the cache. *)
Theorem success_hook_records_once (data : gmap string string)
    (caller : UserAPIKeyAuth) (response : ResponseObject) (rid : string)
    (cache : C) (w : World C) :
  signing_key_configured w = true ->
  disable_responses_id_security w = false ->
  cls response = ClsResponsesAPIResponse ->
  internal_usage_cache w = Some cache ->
  _get_primary_response_id response = Some rid ->
  token_of caller rid <> rid ->
  exists evs,
    trace (snd (async_post_call_success_hook data caller response w))
    = evs ++ trace w
    /\ filter (fun e => is_cache_call e = true) evs
       = [EvCacheSet (RESPONSE_ID_SECURITY_CACHE_PREFIX +:+ token_of caller rid)
            (mapping_of caller rid) 86400].
Proof.
  intros Hk Hd Hcls Hc Hp Hne.
  unfold async_post_call_success_hook, bind at 1, gets. rewrite Hd, Hcls.
  rewrite (encrypt_and_cache_changed _ _ _ _ Hk Hp Hne), cache_mapping_run.
  cbn [record_event internal_usage_cache]. rewrite Hc. cbv zeta.
  fold (mapping_of caller rid).
  destruct (fst (async_set_cache cache _ _ _)); cbn [snd trace record_event].
  - now eexists [_; _].
  - now eexists [_; _; _].
Qed.

(** X13. On the responses route with security on, a stream chunk whose
    own id lacks the response shape and whose wrapped response has an id
    that lacks it too is yielded with the wrapped id rewritten to a
    token, but the mapping is not recorded: the cache is neither written
    nor read. *)
Theorem unshaped_nested_id_is_not_recorded (caller : UserAPIKeyAuth)
    (chunk : ResponseObject) (o : ResponsesAPIResponse)
    (request_data : gmap string string) (w : World C) :
  signing_key_configured w = true ->
  disable_responses_id_security w = false ->
  request_route caller = Some "/v1/responses" ->
  isinstance_BaseLiteLLMOpenAIResponseObject chunk = true ->
  _get_primary_response_id chunk = None ->
  attr_response chunk = RespObj o ->
  async_post_call_streaming_iterator_hook caller [chunk] request_data w
  = (Ok [setattr_response chunk (setattr_rar_id o (token_of caller (rar_id o)))],
     record_event (EvEncrypt (payload_of caller (rar_id o))) w).
Proof.
  intros Hk Hd Hroute Hinst Hp Ho.
  assert (Hid : resp_id_str (attr_id chunk) = None).
  { unfold _get_primary_response_id in Hp.
    now destruct (resp_id_str (attr_id chunk)). }
  pose proof (encrypt_nested chunk caller o w Hk Hid Ho) as Hrun.
  pose proof (encrypt_and_cache_result chunk caller w) as Hfst.
  pose proof (encrypt_and_cache_unchanged chunk caller w Hp) as Hsnd.
  unfold async_post_call_streaming_iterator_hook. cbn [mapM]. unfold bind at 1.
  rewrite (streaming_step_enabled caller chunk w Hroute Hd), Hinst.
  destruct (encrypt_and_cache chunk caller w) as [r w'].
  rewrite Hrun in Hfst, Hsnd. cbn [fst snd] in Hfst, Hsnd. now subst.
Qed.

End OutboundCache.

(** ** What the outbound hooks return *)

Section OutboundResults.
Context {Cr : Crypto} {C : Type} {Ca : DualCache C}.

Lemma success_hook_result (data : gmap string string) (caller : UserAPIKeyAuth)
    (response : ResponseObject) (w : World C) :
  fst (async_post_call_success_hook data caller response w)
  = if disable_responses_id_security w then Ok response
    else match cls response with
         | ClsResponsesAPIResponse => fst (_encrypt_response_id response caller w)
         | _ => Ok response
         end.
Proof.
  unfold async_post_call_success_hook, bind at 1, gets.
  destruct (disable_responses_id_security w); [reflexivity |].
  destruct (cls response); try reflexivity. apply encrypt_and_cache_result.
Qed.

Lemma streaming_step_result (caller : UserAPIKeyAuth) (c : ResponseObject)
    (w : World C) :
  fst (streaming_step caller c w)
  = if isinstance_BaseLiteLLMOpenAIResponseObject c
       && bool_decide (request_route caller = Some "/v1/responses")
       && negb (disable_responses_id_security w)
    then fst (_encrypt_response_id c caller w)
    else Ok c.
Proof.
  unfold streaming_step, bind at 1, gets.
  destruct (_ && _ && _); [|reflexivity]. apply encrypt_and_cache_result.
Qed.

End OutboundResults.

(** ** The cache has no say in what is returned *)

Section CacheIndependence.
Context {Cr : Crypto} {C1 C2 : Type} {Ca1 : DualCache C1} {Ca2 : DualCache C2}.
Import Str StrFacts.

Local Arguments split : simpl never.
Local Arguments startswith : simpl never.

Lemma encrypt_result_independent (response : ResponseObject)
    (caller : UserAPIKeyAuth) (w1 : World C1) (w2 : World C2) :
  signing_key_configured w1 = signing_key_configured w2 ->
  fst (_encrypt_response_id response caller w1)
  = fst (_encrypt_response_id response caller w2).
Proof.
  intros Hk. destruct (signing_key_configured w2) eqn:Hk2.
  - destruct (resp_id_str (attr_id response)) as [rid|] eqn:Hid.
    + now rewrite (encrypt_top_level _ _ _ w1 Hk Hid),
                  (encrypt_top_level _ _ _ w2 Hk2 Hid).
    + destruct (attr_response response) as [|v|o] eqn:Ho.
      * rewrite !encrypt_no_identifier; try assumption; try reflexivity;
          unfold carries_no_identifier; now rewrite Hid, Ho.
      * rewrite !encrypt_no_identifier; try assumption; try reflexivity;
          unfold carries_no_identifier; now rewrite Hid, Ho.
      * now rewrite (encrypt_nested _ _ _ w1 Hk Hid Ho),
                    (encrypt_nested _ _ _ w2 Hk2 Hid Ho).
  - now rewrite (encrypt_no_key _ _ w1 Hk), (encrypt_no_key _ _ w2 Hk2).
Qed.

Lemma signing_key_configured_eq (w1 : World C1) (w2 : World C2) :
  LITELLM_SALT_KEY w1 = LITELLM_SALT_KEY w2 ->
  master_key w1 = master_key w2 ->
  signing_key_configured w1 = signing_key_configured w2.
Proof. intros Hs Hm. unfold signing_key_configured. now rewrite Hs, Hm. Qed.

Lemma streaming_step_independent (caller : UserAPIKeyAuth) (c : ResponseObject)
    (w1 : World C1) (w2 : World C2) :
  signing_key_configured w1 = signing_key_configured w2 ->
  disable_responses_id_security w1 = disable_responses_id_security w2 ->
  fst (streaming_step caller c w1) = fst (streaming_step caller c w2).
Proof.
  intros Hk Hd. rewrite !streaming_step_result, Hd.
  destruct (_ && _ && _); [|reflexivity].
  now apply encrypt_result_independent.
Qed.

(** X14. What the outbound hooks return does not depend on the cache:
    two runs under the same signing key and security switch return the
    same response, and the same stream of chunks, whatever caches they
    run against and whether those caches work or fail. *)
Theorem returned_response_independent_of_cache (data request_data : gmap string string)
    (caller : UserAPIKeyAuth) (response : ResponseObject)
    (chunks : list ResponseObject) (w1 : World C1) (w2 : World C2) :
  LITELLM_SALT_KEY w1 = LITELLM_SALT_KEY w2 ->
  master_key w1 = master_key w2 ->
  disable_responses_id_security w1 = disable_responses_id_security w2 ->
  fst (async_post_call_success_hook data caller response w1)
  = fst (async_post_call_success_hook data caller response w2)
  /\ fst (async_post_call_streaming_iterator_hook caller chunks request_data w1)
     = fst (async_post_call_streaming_iterator_hook caller chunks request_data w2).
Proof.
  intros Hs Hm Hd. pose proof (signing_key_configured_eq w1 w2 Hs Hm) as Hk.
  split.
  - rewrite !success_hook_result, Hd.
    destruct (disable_responses_id_security w2); [reflexivity |].
    destruct (cls response); try reflexivity.
    now apply encrypt_result_independent.
  - unfold async_post_call_streaming_iterator_hook. clear Hs Hm.
    revert w1 w2 Hk Hd. induction chunks as [|c chunks IH]; intros w1 w2 Hk Hd;
      [reflexivity |].
    cbn [mapM].
    pose proof (streaming_step_independent caller c w1 w2 Hk Hd) as Hstep.
    destruct (streaming_step_returns caller c w1) as (c1 & w1' & Hs1 & _ & _ & Hset1 & _).
    destruct (streaming_step_returns caller c w2) as (c2 & w2' & Hs2 & _ & _ & Hset2 & _).
    rewrite Hs1, Hs2 in Hstep. cbn [fst] in Hstep. injection Hstep as ->.
    assert (Hk' : signing_key_configured w1' = signing_key_configured w2').
    { now rewrite (same_settings_key _ _ Hset1), (same_settings_key _ _ Hset2). }
    assert (Hd' : disable_responses_id_security w1'
                  = disable_responses_id_security w2').
    { destruct Hset1 as (_ & _ & ->). now destruct Hset2 as (_ & _ & ->). }
    specialize (IH w1' w2' Hk' Hd').
    unfold bind at 1. rewrite Hs1. unfold bind at 1.
    destruct (mapM (streaming_step caller) chunks w1') as [[out1|e1] w1''].
    + unfold bind at 1. rewrite Hs2. unfold bind at 1.
      destruct (mapM (streaming_step caller) chunks w2') as [[out2|e2] w2''];
        cbn [fst] in IH |- *; unfold ret; cbn [fst]; congruence.
    + unfold bind at 1. rewrite Hs2. unfold bind at 1.
      destruct (mapM (streaming_step caller) chunks w2') as [[out2|e2] w2''];
        cbn [fst] in IH |- *; unfold ret; cbn [fst]; congruence.
Qed.

End CacheIndependence.

(** ** A token that can no longer be decrypted *)

Section KeyChange.
Context (Cr Cr' : Crypto) {C : Type} {Ca : DualCache C}.
Import Str StrFacts.

Local Arguments split : simpl never.
Local Arguments startswith : simpl never.

(** X15. The recorded mapping stands in for a token that is no longer
    recognised.  When the outbound hook tagged a response for its creator
    and the cache took the write, and later, under another cipher, the
    token is not recognised as one (after a change of the signing key
    decryption fails, the helper hands back the ciphertext, and that lies
    outside the namespace), the pre-call hook finds the entry under the
    token, checks the creator against the ids recorded with it and puts
    the plaintext id back into the request. *)
Theorem cached_mapping_survives_key_change (creator : UserAPIKeyAuth)
    (response : ResponseObject) (rid : string) (cache cache' cache'' : C)
    (data0 data : gmap string string) (call_type field : string) (w : World C) :
  signing_key_configured w = true ->
  disable_responses_id_security w = false ->
  cls response = ClsResponsesAPIResponse ->
  internal_usage_cache w = Some cache ->
  _get_primary_response_id response = Some rid ->
  token_of (Cr := Cr) creator rid <> rid ->
  async_set_cache cache
    (RESPONSE_ID_SECURITY_CACHE_PREFIX +:+ token_of (Cr := Cr) creator rid)
    (mapping_of creator rid) RESPONSE_ID_SECURITY_CACHE_TTL_SECONDS = (Ok tt, cache') ->
  async_get_cache cache'
    (RESPONSE_ID_SECURITY_CACHE_PREFIX +:+ token_of (Cr := Cr) creator rid)
  = (Ok (Some (mapping_of creator rid)), cache'') ->
  fst (_is_encrypted_response_id (Cr := Cr') (token_of (Cr := Cr) creator rid) w)
  = Ok false ->
  identifier_field call_type = Some field ->
  data !! field = Some (token_of (Cr := Cr) creator rid) ->
  fst (async_pre_call_hook (Cr := Cr') creator data call_type
         (snd (async_post_call_success_hook (Cr := Cr) data0 creator response w)))
  = Ok (Some (<[field := rid]> data)).
Proof.
  intros Hk Hdis Hcls Hc Hp Hne Hset Hget Hund Hf Hdata.
  assert (Hw : snd (async_post_call_success_hook (Cr := Cr) data0 creator response w)
               = mkWorld (Some cache') (LITELLM_SALT_KEY w) (master_key w)
                   (disable_responses_id_security w)
                   (EvCacheSet
                      (RESPONSE_ID_SECURITY_CACHE_PREFIX
                         +:+ token_of (Cr := Cr) creator rid)
                      (mapping_of creator rid) RESPONSE_ID_SECURITY_CACHE_TTL_SECONDS
                      :: EvEncrypt (payload_of creator rid) :: trace w)).
  { unfold async_post_call_success_hook, bind at 1, gets. rewrite Hdis, Hcls.
    rewrite (encrypt_and_cache_changed (Cr := Cr) _ _ _ _ Hk Hp Hne).
    rewrite (cache_mapping_world _ _ _ cache cache'
               (record_event (EvEncrypt (payload_of creator rid)) w) Hc Hset).
    cbn [snd record_event LITELLM_SALT_KEY master_key
         disable_responses_id_security trace].
    now rewrite Hdis. }
  rewrite Hw. set (w1 := mkWorld _ _ _ _ _).
  assert (Hres : fst (_resolve_encrypted_response_id (Cr := Cr')
                        (token_of (Cr := Cr) creator rid) creator w1)
                 = Ok (Some rid)).
  { rewrite (resolve_cached (Cr := Cr') _ creator (mapping_of creator rid)).
    - destruct (mapping_of_fields creator rid) as (-> & -> & ->).
      now rewrite authorize_same.
    - now rewrite (is_encrypted_any_world (Cr := Cr') _ w1 w).
    - rewrite get_cached_run. subst w1. cbn [internal_usage_cache]. cbv zeta.
      now rewrite Hget. }
  rewrite (pre_call_hook_cases (Cr := Cr') _ _ _ _ _ Hf), Hdata.
  unfold token_of in Hres |- *. rewrite append_cons. rewrite append_cons in Hres.
  destruct (_resolve_encrypted_response_id _ creator w1) as [r w2].
  cbn [fst] in Hres. now subst r.
Qed.

End KeyChange.

(** ** What resolution does to the world, and what can abort it *)

Section InboundEffects.
Context {Cr : Crypto} {C : Type} {Ca : DualCache C}.
Import Str StrFacts.

Local Arguments split : simpl never.
Local Arguments startswith : simpl never.

(** The world after recognising and after decoding. *)
Lemma is_encrypted_world (rid : string) (w : World C) :
  same_settings w (snd (_is_encrypted_response_id rid w))
  /\ internal_usage_cache (snd (_is_encrypted_response_id rid w))
     = internal_usage_cache w
  /\ grows_by is_decrypt w (snd (_is_encrypted_response_id rid w)).
Proof.
  destruct (is_encrypted_cases rid w) as [E | (rem & b & E)]; rewrite E; cbn [snd].
  - split; [apply same_settings_refl |]. split; [reflexivity | apply grows_by_refl].
  - split; [apply same_settings_event |].
    split; [reflexivity | now apply grows_by_event].
Qed.

Lemma decrypt_world (rid : string) (w : World C) :
  same_settings w (snd (_decrypt_response_id rid w))
  /\ internal_usage_cache (snd (_decrypt_response_id rid w))
     = internal_usage_cache w
  /\ grows_by is_decrypt w (snd (_decrypt_response_id rid w)).
Proof.
  destruct (decrypt_cases rid w) as [[r E] | (rem & r & E)]; rewrite E; cbn [snd].
  - split; [apply same_settings_refl |]. split; [reflexivity | apply grows_by_refl].
  - split; [apply same_settings_event |].
    split; [reflexivity | now apply grows_by_event].
Qed.

(** Resolution keeps the settings, and traces decryptions, cache reads,
    access checks and debug lines only. *)
Lemma resolve_world (rid : string) (caller : UserAPIKeyAuth) (w : World C) :
  same_settings w (snd (_resolve_encrypted_response_id rid caller w))
  /\ grows_by (fun e => negb (is_cache_set e) && negb (is_encrypt e)) w
       (snd (_resolve_encrypted_response_id rid caller w)).
Proof.
  set (P := fun e => negb (is_cache_set e) && negb (is_encrypt e)).
  assert (Hdec : forall e, is_decrypt e = true -> P e = true)
    by (now intros []).
  assert (Hchk : forall e, match e with
                           | EvCheckAccess _ _ _ | EvDebug _ => true
                           | _ => false
                           end = true -> P e = true)
    by (now intros []).
  assert (Hget : forall e, match e with
                           | EvCacheGet _ | EvDebug _ => true
                           | _ => false
                           end = true -> P e = true)
    by (now intros []).
  assert (Hcheck : forall ou ot (w1 : World C),
             same_settings w w1 -> grows_by P w w1 ->
             same_settings w (snd (check_user_access_to_response_id ou ot caller w1))
             /\ grows_by P w (snd (check_user_access_to_response_id ou ot caller w1))).
  { intros ou ot w1 Hs Hg.
    destruct (check_user_access_world ou ot caller w1) as (w2 & Hk & Hs2 & _ & Hg2).
    rewrite Hk. cbn [snd]. split; [now apply (same_settings_trans _ w1) |].
    apply (grows_by_trans _ _ w1); [exact Hg |].
    now apply (grows_by_weaken _ P _ _ Hchk). }
  rewrite resolve_run.
  destruct (is_encrypted_world rid w) as (Hs1 & _ & Hg1).
  apply (grows_by_weaken _ P _ _ Hdec) in Hg1.
  destruct (_is_encrypted_response_id rid w) as [[[|]|e] w1]; cbn [snd] in Hs1, Hg1.
  - destruct (decrypt_world rid w1) as (Hs2 & _ & Hg2).
    apply (grows_by_weaken _ P _ _ Hdec) in Hg2.
    destruct (_decrypt_response_id rid w1) as [[[[o u] t]|e] w2]; cbn [snd] in Hs2, Hg2.
    + destruct (Hcheck u t w2) as [Hs3 Hg3].
      { now apply (same_settings_trans _ w1). }
      { now apply (grows_by_trans _ _ w1). }
      destruct (check_user_access_to_response_id u t caller w2) as [[?|?] w3];
        now split.
    + split; [now apply (same_settings_trans _ w1) | now apply (grows_by_trans _ _ w1)].
  - pose proof (get_cached_settings rid w1) as Hs2.
    pose proof (get_cached_grows rid w1) as Hg2.
    apply (grows_by_weaken _ P _ _ Hget) in Hg2.
    destruct (_get_cached_response_id_mapping rid w1) as [[[m|]|e] w2];
      cbn [snd] in Hs2, Hg2.
    + destruct (Hcheck (mapping_get m "user_id") (mapping_get m "team_id") w2)
        as [Hs3 Hg3].
      { now apply (same_settings_trans _ w1). }
      { now apply (grows_by_trans _ _ w1). }
      destruct (check_user_access_to_response_id _ _ caller w2) as [[?|?] w3];
        now split.
    + split; [now apply (same_settings_trans _ w1) | now apply (grows_by_trans _ _ w1)].
    + split; [now apply (same_settings_trans _ w1) | now apply (grows_by_trans _ _ w1)].
  - now split.
Qed.

(** X16. The pre-call hook only reads: whatever the request, it never
    writes to the cache, never encrypts, and leaves the signing key and
    the security switch as they were. *)
Theorem pre_call_hook_only_reads (caller : UserAPIKeyAuth)
    (data : gmap string string) (call_type : string) (w : World C) :
  same_settings w (snd (async_pre_call_hook caller data call_type w))
  /\ grows_by (fun e => negb (is_cache_set e) && negb (is_encrypt e)) w
       (snd (async_pre_call_hook caller data call_type w)).
Proof.
  destruct (identifier_field call_type) as [field|] eqn:Hf.
  2: { rewrite pre_call_hook_other by assumption. cbn [snd].
       split; [apply same_settings_refl | apply grows_by_refl]. }
  rewrite (pre_call_hook_cases _ _ _ _ _ Hf).
  destruct (data !! field) as [[|c s]|];
    try (cbn [snd]; split; [apply same_settings_refl | apply grows_by_refl]).
  pose proof (resolve_world (String c s) caller w) as Hw.
  destruct (_resolve_encrypted_response_id (String c s) caller w) as [[[r|]|e] w1];
    exact Hw.
Qed.

(** X17. An identifier that is recognised as a token is resolved from
    the token alone: the cache is neither read nor written, and its state
    is what it was. *)
Theorem token_path_skips_cache (rid : string) (caller : UserAPIKeyAuth)
    (w : World C) :
  fst (_is_encrypted_response_id rid w) = Ok true ->
  internal_usage_cache (snd (_resolve_encrypted_response_id rid caller w))
  = internal_usage_cache w
  /\ grows_by (fun e => negb (is_cache_call e)) w
       (snd (_resolve_encrypted_response_id rid caller w)).
Proof.
  intros He.
  set (P := fun e => negb (is_cache_call e)).
  assert (Hdec : forall e, is_decrypt e = true -> P e = true)
    by (now intros []).
  assert (Hchk : forall e, match e with
                           | EvCheckAccess _ _ _ | EvDebug _ => true
                           | _ => false
                           end = true -> P e = true)
    by (now intros []).
  rewrite resolve_run.
  destruct (is_encrypted_world rid w) as (_ & Hc1 & Hg1).
  apply (grows_by_weaken _ P _ _ Hdec) in Hg1.
  destruct (_is_encrypted_response_id rid w) as [r w1].
  cbn [fst snd] in He, Hc1, Hg1. subst r.
  destruct (decrypt_world rid w1) as (_ & Hc2 & Hg2).
  apply (grows_by_weaken _ P _ _ Hdec) in Hg2.
  destruct (_decrypt_response_id rid w1) as [[[[o u] t]|e] w2]; cbn [snd] in Hc2, Hg2.
  - destruct (check_user_access_world u t caller w2) as (w3 & Hk & _ & Hc3 & Hg3).
    apply (grows_by_weaken _ P _ _ Hchk) in Hg3.
    rewrite Hk.
    assert (Hall : internal_usage_cache w3 = internal_usage_cache w /\ grows_by P w w3).
    { split; [congruence |].
      apply (grows_by_trans _ _ w1); [exact Hg1 |].
      now apply (grows_by_trans _ _ w2). }
    now destruct (surfaced _).
  - cbn [snd]. split; [congruence | now apply (grows_by_trans _ _ w1)].
Qed.

End InboundEffects.

(** ** What can abort a request *)

Section Aborts.
Context {Cr : Crypto} {C : Type} {Ca : DualCache C}.
Import Str StrFacts.

Local Arguments split : simpl never.
Local Arguments startswith : simpl never.

(** X18. The pre-call hook aborts a request in two ways only: with the
    403 of the access check, naming the user or the team, or with
    [IndexError], when the piece after the marker in the request's
    identifier, decrypted, or taken as it is where decryption fails,
    carries the namespace prefix and exactly two fields.  Cache failures
    and text outside the namespace never abort it. *)
Theorem pre_call_hook_aborts_only (caller : UserAPIKeyAuth)
    (data : gmap string string) (call_type : string) (w : World C) (e : Exn) :
  fst (async_pre_call_hook caller data call_type w) = Raise e ->
  e = HTTPException 403 USER_MISMATCH_DETAIL
  \/ e = HTTPException 403 TEAM_MISMATCH_DETAIL
  \/ e = IndexError
     /\ exists field token rem d p0 p1,
          identifier_field call_type = Some field
          /\ data !! field = Some token
          /\ nth_error (split "resp_" token) 1 = Some rem
          /\ (decrypt_value rem = Some d \/ decrypt_value rem = None /\ d = rem)
          /\ startswith d LITELM_MANAGED_FILE_ID_PREFIX = true
          /\ split ";" d = [p0; p1].
Proof.
  destruct (identifier_field call_type) as [field|] eqn:Hf.
  2: { rewrite pre_call_hook_other by assumption. discriminate. }
  rewrite (pre_call_hook_cases _ _ _ _ _ Hf).
  destruct (data !! field) as [[|c s]|] eqn:Hd; try discriminate.
  destruct (_resolve_encrypted_response_id (String c s) caller w)
    as [[[r|]|e'] w1] eqn:Hr; try discriminate.
  cbn [fst]. intros [= <-].
  destruct (resolve_raises (String c s) caller w e') as [-> | [-> | [-> Hex]]];
    [now rewrite Hr | auto | auto |].
  right. right. split; [reflexivity |].
  destruct Hex as (rem & p0 & p1 & H1 & H2 & H3).
  exists field, (String c s), rem, (decrypted_or_original rem), p0, p1.
  split; [reflexivity |]. split; [exact Hd |]. split; [exact H1 |].
  split; [|now split].
  unfold decrypted_or_original. destruct (decrypt_value rem); auto.
Qed.

Lemma resolve_bypass (rid : string) (caller : UserAPIKeyAuth) (w : World C) (e : Exn) :
  is_admin caller = true \/ disable_responses_id_security w = true ->
  fst (_resolve_encrypted_response_id rid caller w) = Raise e ->
  e = IndexError.
Proof.
  intros Hby.
  assert (Hcheck : forall ou ot (w1 : World C),
             same_settings w w1 ->
             fst (check_user_access_to_response_id ou ot caller w1) = Ok true).
  { intros ou ot w1 (_ & _ & Hd). rewrite check_user_access_run, Hd.
    now rewrite authorize_bypass. }
  rewrite resolve_run.
  destruct (is_encrypted_world rid w) as (Hs1 & _).
  destruct (_is_encrypted_response_id rid w) as [[[|]|e0] w1] eqn:E; cbn [snd] in Hs1.
  - destruct (decrypt_world rid w1) as (Hs2 & _).
    destruct (_decrypt_response_id rid w1) as [[[[o u] t]|e'] w2] eqn:D;
      cbn [snd] in Hs2.
    + pose proof (Hcheck u t w2 (same_settings_trans _ _ _ Hs1 Hs2)) as Hk.
      destruct (check_user_access_to_response_id u t caller w2) as [r w3].
      cbn [fst] in Hk. subst r. discriminate.
    + cbn [fst]. intros [= <-].
      destruct (decrypt_raises rid w1 e') as [-> _]; [now rewrite D | reflexivity].
  - pose proof (get_cached_settings rid w1) as Hs2.
    destruct (get_cached_never_raises rid w1) as [m Hm].
    destruct (_get_cached_response_id_mapping rid w1) as [r w2].
    cbn [fst snd] in Hm, Hs2. subst r. destruct m as [m|]; [|discriminate].
    pose proof (Hcheck (mapping_get m "user_id") (mapping_get m "team_id") w2
                  (same_settings_trans _ _ _ Hs1 Hs2)) as Hk.
    destruct (check_user_access_to_response_id _ _ caller w2) as [r w3].
    cbn [fst] in Hk. subst r. discriminate.
  - destruct (is_encrypted_cases rid w) as [E' | (rem & b & E')];
      rewrite E' in E; discriminate.
Qed.

(** X19. For an admin, and for every caller once security is disabled,
    the pre-call hook never rejects a request with a 403, whatever
    identifier the request carries and whatever the cache holds. *)
Theorem bypass_is_never_denied (caller : UserAPIKeyAuth)
    (data : gmap string string) (call_type : string) (w : World C)
    (status : Z) (detail : string) :
  is_admin caller = true \/ disable_responses_id_security w = true ->
  fst (async_pre_call_hook caller data call_type w)
  <> Raise (HTTPException status detail).
Proof.
  intros Hby.
  destruct (identifier_field call_type) as [field|] eqn:Hf.
  2: { rewrite pre_call_hook_other by assumption. discriminate. }
  rewrite (pre_call_hook_cases _ _ _ _ _ Hf).
  destruct (data !! field) as [[|c s]|]; try discriminate.
  destruct (_resolve_encrypted_response_id (String c s) caller w)
    as [[[r|]|e] w1] eqn:Hr; try discriminate.
  cbn [fst]. intros [= ->].
  assert (He : HTTPException status detail = IndexError); [|discriminate].
  apply (resolve_bypass (String c s) caller w _ Hby). now rewrite Hr.
Qed.

End Aborts.

(** ** One token for all the chunks of a response *)

Section StreamTokens.
Context {Cr : Crypto} {C : Type} {Ca : DualCache C}.
Import Str StrFacts.

Local Arguments split : simpl never.
Local Arguments startswith : simpl never.

(** X20. On the responses route, with a signing key and security on,
    every chunk of a stream that is a response object and carries a
    primary id is yielded with the token of that id for the caller as
    its primary id: chunks that carry the same id carry the same token,
    wherever the id sits in them. *)
Theorem stream_chunks_carry_the_token (caller : UserAPIKeyAuth)
    (chunks : list ResponseObject) (request_data : gmap string string)
    (w : World C) :
  signing_key_configured w = true ->
  disable_responses_id_security w = false ->
  request_route caller = Some "/v1/responses" ->
  exists out w',
    async_post_call_streaming_iterator_hook caller chunks request_data w
    = (Ok out, w')
    /\ Forall2 (fun c c' =>
                  forall rid,
                    isinstance_BaseLiteLLMOpenAIResponseObject c = true ->
                    _get_primary_response_id c = Some rid ->
                    _get_primary_response_id c' = Some (token_of caller rid))
         chunks out.
Proof.
  intros Hk Hd Hroute. unfold async_post_call_streaming_iterator_hook.
  revert w Hk Hd. induction chunks as [|c chunks IH]; intros w Hk Hd.
  - exists [], w. split; [reflexivity | constructor].
  - destruct (streaming_step_returns caller c w) as (c' & w1 & Hs & _ & _ & Hset & _).
    destruct (IH w1) as (out & w2 & Hrest & Hall).
    { now rewrite (same_settings_key _ _ Hset). }
    { destruct Hset as (_ & _ & ->). exact Hd. }
    exists (c' :: out), w2. cbn [mapM]. unfold bind at 1. rewrite Hs.
    unfold bind at 1. rewrite Hrest. split; [reflexivity |].
    constructor; [|exact Hall].
    intros rid Hinst Hp.
    pose proof (streaming_step_result caller c w) as Hres.
    rewrite Hs, Hinst, Hd, (bool_decide_eq_true_2 _ Hroute) in Hres.
    cbn [fst andb negb] in Hres.
    destruct (encrypt_primary c caller rid w Hk Hp) as (r' & Hrun & _ & Hp').
    rewrite Hrun in Hres. cbn [fst] in Hres. injection Hres as ->.
    exact Hp'.
Qed.

End StreamTokens.

(** ** The one field the pre-call hook looks at *)

Section OneField.
Context {Cr : Crypto} {C : Type} {Ca : DualCache C}.

(** X21. For a call type of the responses API the pre-call hook looks
    at the identifier field of that call type and at nothing else: two
    requests that agree on that field leave the same world behind and
    are rejected alike, whatever their other fields hold. *)
Theorem pre_call_hook_reads_one_field (caller : UserAPIKeyAuth)
    (data data' : gmap string string) (call_type field : string) (w : World C) :
  identifier_field call_type = Some field ->
  data !! field = data' !! field ->
  snd (async_pre_call_hook caller data call_type w)
  = snd (async_pre_call_hook caller data' call_type w)
  /\ forall e,
       fst (async_pre_call_hook caller data call_type w) = Raise e <->
       fst (async_pre_call_hook caller data' call_type w) = Raise e.
Proof.
  intros Hf Heq. rewrite !(pre_call_hook_cases _ _ _ _ _ Hf), <- Heq.
  destruct (data !! field) as [[|c s]|];
    try (split; [reflexivity | intros e; split; discriminate]).
  destruct (_resolve_encrypted_response_id (String c s) caller w) as [[[r|]|e'] w1];
    cbn [fst snd]; (split; [reflexivity |]); intros e; split; congruence.
Qed.

End OneField.

(** ** Concrete runs of the further properties *)

Section MoreRuns.
Local Existing Instance Sample.crypto.
Local Existing Instance Sample.memory_cache.
Import MoreSamples.

Lemma sample_codec_recovers : codec_recovers Sample.alice "resp_abc123".
Proof.
  unfold codec_recovers. repeat (split; [vm_compute; reflexivity |]).
  vm_compute; reflexivity.
Qed.

Lemma pre_call_hook_frame_witness :
  exists field,
    identifier_field "aget_responses" = Some field
    /\ (<["response_id" := "resp_abc123"]> get_request = get_request
        \/ exists rid resolved,
             get_request !! field = Some rid /\ rid <> ""
             /\ fst (_resolve_encrypted_response_id rid Sample.alice
                       Sample.world_with_key) = Ok (Some resolved)
             /\ <["response_id" := "resp_abc123"]> get_request
                = <[field := resolved]> get_request)
    /\ forall k, k <> field ->
         (<["response_id" := "resp_abc123"]> get_request) !! k = get_request !! k.
Proof.
  apply (pre_call_hook_frame Sample.alice get_request
           (<["response_id" := "resp_abc123"]> get_request)
           "aget_responses" Sample.world_with_key).
  vm_compute. reflexivity.
Defined.

Lemma pre_call_hook_without_identifier_witness :
  async_pre_call_hook Sample.alice {["model" := "gpt"]} "aresponses"
    Sample.world_with_key
  = (Ok (Some {["model" := "gpt"]}), Sample.world_with_key).
Proof.
  apply (pre_call_hook_without_identifier Sample.alice {["model" := "gpt"]}
           "aresponses" "previous_response_id" Sample.world_with_key).
  - reflexivity.
  - left. vm_compute. reflexivity.
Defined.

Lemma creator_reuses_own_token_witness :
  (exists response',
     fst (async_post_call_success_hook ∅ Sample.alice Sample.response_abc
            Sample.world_with_key) = Ok response'
     /\ _get_primary_response_id response' = Some alice_token)
  /\ fst (async_pre_call_hook Sample.alice get_request "aget_responses"
            Sample.world_with_key)
     = Ok (Some (<["response_id" := "resp_abc123"]> get_request)).
Proof.
  apply (creator_reuses_own_token Sample.alice Sample.response_abc "resp_abc123"
           ∅ get_request "aget_responses" "response_id"
           Sample.world_with_key Sample.world_with_key);
    try exact sample_codec_recovers; vm_compute; reflexivity.
Defined.

Lemma other_user_is_denied_witness :
  fst (async_pre_call_hook Sample.bob get_request "aget_responses"
         Sample.world_with_key)
  = Raise (HTTPException 403 USER_MISMATCH_DETAIL).
Proof.
  apply (other_user_is_denied Sample.alice Sample.bob get_request
           "aget_responses" "response_id" "resp_abc123" Sample.world_with_key);
    try exact sample_codec_recovers; try discriminate; vm_compute; reflexivity.
Defined.

Lemma other_team_is_denied_witness :
  fst (async_pre_call_hook carol get_request "adelete_responses"
         Sample.world_with_key)
  = Raise (HTTPException 403 TEAM_MISMATCH_DETAIL).
Proof.
  apply (other_team_is_denied Sample.alice carol get_request
           "adelete_responses" "response_id" "resp_abc123" Sample.world_with_key);
    try exact sample_codec_recovers; try discriminate;
    try (right; reflexivity); vm_compute; reflexivity.
Defined.

Lemma admin_or_disabled_resolves_any_token_witness :
  fst (async_pre_call_hook Sample.bob get_request "acancel_responses"
         Sample.world_security_disabled)
  = Ok (Some (<["response_id" := "resp_abc123"]> get_request)).
Proof.
  apply (admin_or_disabled_resolves_any_token Sample.alice Sample.bob get_request
           "acancel_responses" "response_id" "resp_abc123"
           Sample.world_security_disabled);
    try exact sample_codec_recovers; try (right; reflexivity);
    vm_compute; reflexivity.
Defined.

Lemma record_then_lookup_witness :
  exists m,
    fst (_get_cached_response_id_mapping alice_token
           (snd (_cache_response_id_mapping alice_token "resp_abc123" Sample.alice
                   Sample.world_with_key))) = Ok (Some m)
    /\ mapping_get m "response_id" = Some "resp_abc123"
    /\ mapping_get m "user_id" = Some "u1"
    /\ mapping_get m "team_id" = Some "t1".
Proof.
  apply (record_then_lookup alice_token "resp_abc123" Sample.alice ∅
           {[ RESPONSE_ID_SECURITY_CACHE_PREFIX +:+ alice_token
              := mapping_of Sample.alice "resp_abc123" ]}
           {[ RESPONSE_ID_SECURITY_CACHE_PREFIX +:+ alice_token
              := mapping_of Sample.alice "resp_abc123" ]}
           Sample.world_with_key);
    vm_compute; reflexivity.
Defined.

Lemma cached_entry_is_enforced_witness :
  fst (_resolve_encrypted_response_id "resp_legacy" Sample.bob world_with_entry)
  = Raise (HTTPException 403 USER_MISMATCH_DETAIL).
Proof.
  apply (cached_entry_is_enforced "resp_legacy" Sample.bob
           (mapping_of Sample.alice "resp_abc123") world_with_entry);
    vm_compute; reflexivity.
Defined.

Lemma bare_payload_resolves_to_itself_witness :
  fst (_resolve_encrypted_response_id bare_token Sample.bob Sample.world_with_key)
  = Ok (Some bare_token)
  /\ fst (async_pre_call_hook Sample.bob {["previous_response_id" := bare_token]}
            "aresponses" Sample.world_with_key)
     = Ok (Some {["previous_response_id" := bare_token]}).
Proof.
  apply (bare_payload_resolves_to_itself Sample.bob
           {["previous_response_id" := bare_token]} "aresponses"
           "previous_response_id" bare_token
           (encrypt_value "litellm_proxy:file") "litellm_proxy:file"
           Sample.world_with_key);
    vm_compute; reflexivity.
Defined.

Lemma success_hook_records_once_witness :
  exists evs,
    trace (snd (async_post_call_success_hook ∅ Sample.alice Sample.response_abc
                  Sample.world_with_key))
    = evs ++ trace Sample.world_with_key
    /\ filter (fun e => is_cache_call e = true) evs
       = [EvCacheSet (RESPONSE_ID_SECURITY_CACHE_PREFIX +:+ alice_token)
            (mapping_of Sample.alice "resp_abc123") 86400].
Proof.
  apply (success_hook_records_once ∅ Sample.alice Sample.response_abc
           "resp_abc123" ∅ Sample.world_with_key);
    try discriminate; vm_compute; reflexivity.
Defined.

Lemma unshaped_nested_id_is_not_recorded_witness :
  async_post_call_streaming_iterator_hook Sample.alice
    [created_event "chatcmpl-123"] ∅ Sample.world_with_key
  = (Ok [setattr_response (created_event "chatcmpl-123")
           (setattr_rar_id (mkResponsesAPIResponse "chatcmpl-123" ∅)
              (token_of Sample.alice "chatcmpl-123"))],
     record_event (EvEncrypt (payload_of Sample.alice "chatcmpl-123"))
       Sample.world_with_key).
Proof.
  apply (unshaped_nested_id_is_not_recorded Sample.alice
           (created_event "chatcmpl-123")
           (mkResponsesAPIResponse "chatcmpl-123" ∅) ∅ Sample.world_with_key);
    reflexivity.
Defined.

Lemma returned_response_independent_of_cache_witness :
  fst (async_post_call_success_hook (Ca := Sample.memory_cache) ∅ Sample.alice
         Sample.response_abc Sample.world_with_key)
  = fst (async_post_call_success_hook (Ca := Sample.broken_cache) ∅ Sample.alice
           Sample.response_abc Sample.world_broken_cache)
  /\ fst (async_post_call_streaming_iterator_hook (Ca := Sample.memory_cache)
            Sample.alice [Sample.response_abc; delta_event] ∅ Sample.world_with_key)
     = fst (async_post_call_streaming_iterator_hook (Ca := Sample.broken_cache)
              Sample.alice [Sample.response_abc; delta_event] ∅
              Sample.world_broken_cache).
Proof.
  apply (returned_response_independent_of_cache
           (Ca1 := Sample.memory_cache) (Ca2 := Sample.broken_cache)
           ∅ ∅ Sample.alice Sample.response_abc
           [Sample.response_abc; delta_event]
           Sample.world_with_key Sample.world_broken_cache);
    reflexivity.
Defined.

Lemma cached_mapping_survives_key_change_witness :
  fst (async_pre_call_hook (Cr := locked_crypto) Sample.alice get_request
         "aget_responses"
         (snd (async_post_call_success_hook (Cr := Sample.crypto) ∅ Sample.alice
                 Sample.response_abc Sample.world_with_key)))
  = Ok (Some (<["response_id" := "resp_abc123"]> get_request)).
Proof.
  apply (cached_mapping_survives_key_change Sample.crypto locked_crypto
           Sample.alice Sample.response_abc "resp_abc123" ∅
           {[ RESPONSE_ID_SECURITY_CACHE_PREFIX +:+ alice_token
              := mapping_of Sample.alice "resp_abc123" ]}
           {[ RESPONSE_ID_SECURITY_CACHE_PREFIX +:+ alice_token
              := mapping_of Sample.alice "resp_abc123" ]}
           ∅ get_request "aget_responses" "response_id" Sample.world_with_key);
    try discriminate; try (intros rem _; reflexivity); vm_compute; reflexivity.
Defined.

Lemma token_path_skips_cache_witness :
  internal_usage_cache
    (snd (_resolve_encrypted_response_id alice_token Sample.alice world_with_entry))
  = internal_usage_cache world_with_entry
  /\ grows_by (fun e => negb (is_cache_call e)) world_with_entry
       (snd (_resolve_encrypted_response_id alice_token Sample.alice world_with_entry)).
Proof.
  apply (token_path_skips_cache alice_token Sample.alice world_with_entry).
  vm_compute. reflexivity.
Defined.

(** A request for plain text with the namespace prefix and two fields:
    the abort is the [IndexError]. *)
Lemma pre_call_hook_aborts_only_witness :
  IndexError = HTTPException 403 USER_MISMATCH_DETAIL
  \/ IndexError = HTTPException 403 TEAM_MISMATCH_DETAIL
  \/ IndexError = IndexError
     /\ exists field token rem d p0 p1,
          identifier_field "aget_responses" = Some field
          /\ ({[ "response_id" := "resp_litellm_proxy:a;b" ]} : gmap string string)
               !! field = Some token
          /\ nth_error (Str.split "resp_" token) 1 = Some rem
          /\ (decrypt_value rem = Some d \/ decrypt_value rem = None /\ d = rem)
          /\ Str.startswith d LITELM_MANAGED_FILE_ID_PREFIX = true
          /\ Str.split ";" d = [p0; p1].
Proof.
  apply (pre_call_hook_aborts_only Sample.bob
           {[ "response_id" := "resp_litellm_proxy:a;b" ]} "aget_responses"
           Sample.world_with_key).
  vm_compute. reflexivity.
Defined.

Lemma bypass_is_never_denied_witness :
  fst (async_pre_call_hook admin get_request "aget_responses" Sample.world_with_key)
  <> Raise (HTTPException 403 USER_MISMATCH_DETAIL).
Proof.
  apply (bypass_is_never_denied admin get_request "aget_responses"
           Sample.world_with_key 403 USER_MISMATCH_DETAIL).
  left. reflexivity.
Defined.

Lemma stream_chunks_carry_the_token_witness :
  exists out w',
    async_post_call_streaming_iterator_hook Sample.alice
      [Sample.response_abc; delta_event; created_event "resp_abc123"] ∅
      Sample.world_with_key = (Ok out, w')
    /\ Forall2 (fun c c' =>
                  forall rid,
                    isinstance_BaseLiteLLMOpenAIResponseObject c = true ->
                    _get_primary_response_id c = Some rid ->
                    _get_primary_response_id c' = Some (token_of Sample.alice rid))
         [Sample.response_abc; delta_event; created_event "resp_abc123"] out.
Proof.
  apply (stream_chunks_carry_the_token Sample.alice
           [Sample.response_abc; delta_event; created_event "resp_abc123"] ∅
           Sample.world_with_key);
    reflexivity.
Defined.

Lemma pre_call_hook_reads_one_field_witness :
  snd (async_pre_call_hook Sample.bob get_request "aget_responses"
         Sample.world_with_key)
  = snd (async_pre_call_hook Sample.bob
           (<["previous_response_id" := "resp_other"]> get_request)
           "aget_responses" Sample.world_with_key)
  /\ forall e,
       fst (async_pre_call_hook Sample.bob get_request "aget_responses"
              Sample.world_with_key) = Raise e <->
       fst (async_pre_call_hook Sample.bob
              (<["previous_response_id" := "resp_other"]> get_request)
              "aget_responses" Sample.world_with_key) = Raise e.
Proof.
  apply (pre_call_hook_reads_one_field Sample.bob get_request
           (<["previous_response_id" := "resp_other"]> get_request)
           "aget_responses" "response_id" Sample.world_with_key);
    vm_compute; reflexivity.
Defined.

End MoreRuns.
